(** * GhidraInsight: resilience and orchestration layer

    A shallow embedding of
      - [ghidrainsight/core/error_recovery.py]  (module [ErrorRecovery]),
      - [ghidrainsight/core/multi_region.py]    (module [MultiRegion]),
      - [ghidrainsight/core/distributed_tasks.py] (module [DistributedTasks]),
    together with the properties of the specification that concern them;
    and, with the properties their code shows,
      - the rest of those three files (modules [ErrorStatistics],
        [Replication], [ChunkTasks]),
      - [ghidrainsight/plugins/marketplace.py] (module [Marketplace]),
      - the example plugins [community_string_analyzer.py] and
        [community_entropy_analyzer.py] (modules [StringAnalyzer],
        [EntropyWindows]).

    Conventions of the embedding.
      - Python [str] is [string]; class names are ASCII identifiers, so
        [str.lower] is the ASCII lower-casing.
      - Python [float] values that occur (delays, latencies, timestamps) are
        finite and are represented by the rational they denote ([Q]). The
        delays of retry-with-backoff are exact in floating point; jittered
        delays and latencies are given without the rounding of the floats.
      - A Python [dict] whose iteration order is observable is an association
        list with unique keys kept in insertion order; the two dispatch tables
        of the recovery manager, which are only ever looked up, are [gmap]s.
      - Coroutines are run to completion: [await] is sequencing, and
        [asyncio.sleep] only records the requested delay.
      - An exception carries whether its class derives from [Exception].
        The handlers around the calls of an operation, an engine or an HTTP
        client are [except Exception] clauses: they handle those exceptions
        and let the others (a cancellation, a keyboard interrupt, an exit)
        pass to the caller. *)

From Stdlib Require Import Ascii QArith Qminmax Lqa.
From stdpp Require Import base option list gmap strings pretty.

Set Warnings "-register-all".

(** ** Python strings *)

Module PyStr.

(** [c.lower()] for one ASCII character. *)
Definition lower_ascii (c : ascii) : ascii :=
  let n := Ascii.nat_of_ascii c in
  if (65 <=? n)%nat && (n <=? 90)%nat then Ascii.ascii_of_nat (n + 32) else c.

(** [s.lower()] *)
Fixpoint lower (s : string) : string :=
  match s with
  | EmptyString => EmptyString
  | String c s' => String (lower_ascii c) (lower s')
  end.

(** [sub in s]: [sub] occurs in [s] at some offset. *)
Fixpoint contains (sub s : string) : bool :=
  String.prefix sub s ||
  match s with
  | EmptyString => false
  | String _ s' => contains sub s'
  end.

(** *** Vocabulary of the properties *)

(** [sub] occurs in [s]: some text, then [sub], then some text. *)
Definition occurs (sub s : string) : Prop :=
  exists a b, s = a +:+ sub +:+ b.

End PyStr.

(** ** Python values, dictionaries and exceptions *)

(** The values that flow through the orchestration layer. *)
Inductive pyval : Type :=
| VNone
| VBool (b : bool)
| VInt (z : Z)
| VStr (s : string)
| VList (l : list pyval)
| VDict (d : list (string * pyval)).

(** [v is None] *)
Definition is_none (v : pyval) : bool :=
  match v with VNone => true | _ => false end.

Module PyDict.
Section Dict.
Context {V : Type}.

(** An insertion-ordered dictionary with string keys. *)
Definition t := list (string * V).

(** [d.get(k)] *)
Fixpoint get (k : string) (d : t) : option V :=
  match d with
  | [] => None
  | (k', v) :: d' => if String.eqb k k' then Some v else get k d'
  end.

(** [d[k] = v]: an existing key keeps its position, a new key goes last. *)
Fixpoint set (k : string) (v : V) (d : t) : t :=
  match d with
  | [] => [(k, v)]
  | (k', v') :: d' =>
      if String.eqb k k' then (k', v) :: d' else (k', v') :: set k v d'
  end.

(** [list(d.keys())] *)
Definition keys (d : t) : list string := d.*1.

(** [k in d] *)
Definition mem (k : string) (d : t) : bool :=
  match get k d with Some _ => true | None => false end.

End Dict.
Arguments t : clear implicits.
End PyDict.

(** A raised exception: the name of its class ([type(e).__name__]), its
    [str(e)], the traceback text [traceback.format_exc()] renders for it, and
    whether its class derives from [Exception] ([isinstance(e, Exception)]).
    The classes that derive from [BaseException] only, among them
    [asyncio.CancelledError], [KeyboardInterrupt], [SystemExit] and
    [GeneratorExit], are the ones an [except Exception] clause lets pass. *)
Record PyExc : Type := mkExc {
  exc_type : string;
  exc_str : string;
  exc_traceback : string;
  exc_is_exception : bool
}.

(** What a call produces: a value, or a raised exception. *)
Inductive outcome (A : Type) : Type :=
| Return (a : A)
| Raise (e : PyExc).
Arguments Return {A} a.
Arguments Raise {A} e.

(** ** A state-and-exception monad for the stateful code *)

Module Eff.
Section Monad.
Context {W : Type}.

(** A computation over a world [W] that returns or raises. *)
Definition M (A : Type) : Type := W -> outcome A * W.

Definition ret {A} (a : A) : M A := fun w => (Return a, w).

Definition raise {A} (e : PyExc) : M A := fun w => (Raise e, w).

Definition bind {A B} (m : M A) (k : A -> M B) : M B :=
  fun w =>
    match m w with
    | (Return a, w') => k a w'
    | (Raise e, w') => (Raise e, w')
    end.

(** [try: m  except Exception as e: h e]: the handler takes the exceptions
    whose class derives from [Exception]; any other exception passes
    through. *)
Definition try_except {A} (m : M A) (h : PyExc -> M A) : M A :=
  fun w =>
    match m w with
    | (Return a, w') => (Return a, w')
    | (Raise e, w') => if exc_is_exception e then h e w' else (Raise e, w')
    end.

Definition gets {A} (f : W -> A) : M A := fun w => (Return (f w), w).

Definition modify (f : W -> W) : M unit := fun w => (Return tt, f w).

End Monad.
Arguments M : clear implicits.
End Eff.

Declare Scope eff_scope.
Delimit Scope eff_scope with eff.
Notation "'let*' x := m 'in' k" := (Eff.bind m (fun x => k))
  (at level 10, x name, m at level 100, k at level 200) : eff_scope.

(** ** error_recovery.py *)

Module ErrorRecovery.
Import Eff.
#[local] Open Scope eff_scope.

Inductive ErrorSeverity : Type := LOW | MEDIUM | HIGH | CRITICAL.

Inductive RecoveryStrategy : Type := RETRY | FALLBACK | SKIP | ESCALATE.

#[global] Instance RecoveryStrategy_eq_dec : EqDecision RecoveryStrategy.
Proof. solve_decision. Defined.

(** [strategy.value] *)
Definition strategy_value (s : RecoveryStrategy) : string :=
  match s with
  | RETRY => "retry"
  | FALLBACK => "fallback"
  | SKIP => "skip"
  | ESCALATE => "escalate"
  end.

(** The [context] dictionary of an [AnalysisError]; its four keys are fixed. *)
Record ErrorContext : Type := mkContext {
  ctx_operation : string;
  ctx_args_count : nat;
  ctx_kwargs_keys : list string;
  ctx_traceback : string
}.

Record AnalysisError : Type := mkAnalysisError {
  error_type : string;
  message : string;
  severity : ErrorSeverity;
  recoverable : bool;
  recovery_strategy : RecoveryStrategy;
  context : ErrorContext;
  timestamp : Q;
  retry_count : nat;
  max_retries : nat
}.

(** [AnalysisError.should_retry] *)
Definition should_retry (e : AnalysisError) : bool :=
  recoverable e &&
  bool_decide (recovery_strategy e = RETRY) &&
  (retry_count e <? max_retries e)%nat.

(** [AnalysisError.increment_retry]: [self.retry_count += 1] *)
Definition increment_retry (e : AnalysisError) : AnalysisError :=
  mkAnalysisError (error_type e) (message e) (severity e) (recoverable e)
    (recovery_strategy e) (context e) (timestamp e)
    (S (retry_count e)) (max_retries e).

(** The if/elif chain of [_create_error_from_exception] on the lower-cased
    class name: severity, recoverability and strategy. *)
Definition classify (error_type : string)
  : ErrorSeverity * bool * RecoveryStrategy :=
  if PyStr.contains "timeout" error_type then (HIGH, true, RETRY)
  else if PyStr.contains "memory" error_type then (CRITICAL, true, FALLBACK)
  else if PyStr.contains "network" error_type
          || PyStr.contains "connection" error_type then (MEDIUM, true, RETRY)
  else if PyStr.contains "database" error_type then (HIGH, true, RETRY)
  else (MEDIUM, false, ESCALATE).

(** The bound methods stored in [self.error_handlers]. *)
Inductive Handler : Type :=
| handle_timeout_error
| handle_memory_error
| handle_network_error
| handle_analysis_error
| handle_database_error.

(** The bound methods stored in [self.recovery_strategies]. *)
Inductive Strategy : Type :=
| retry_with_backoff
| retry_with_exponential_backoff
| reduce_complexity_fallback
| fallback_to_simpler_analysis
| retry_with_jitter.

(** The attributes of an [ErrorRecoveryManager]. [error_history] holds
    references to [AnalysisError] objects: the object a retry loop mutates is
    the one the history lists. *)
Record Manager : Type := mkManager {
  error_handlers : gmap string Handler;
  recovery_strategies : gmap string Strategy;
  error_history : list nat;
  max_history_size : nat
}.

(** [_setup_default_handlers], as the ten assignments it makes. *)
Definition _setup_default_handlers (self : Manager) : Manager :=
  let h := error_handlers self in
  let s := recovery_strategies self in
  let h := <["timeout" := handle_timeout_error]> h in
  let s := <["timeout" := retry_with_backoff]> s in
  let h := <["memory" := handle_memory_error]> h in
  let s := <["memory" := reduce_complexity_fallback]> s in
  let h := <["network" := handle_network_error]> h in
  let s := <["network" := retry_with_exponential_backoff]> s in
  let h := <["analysis" := handle_analysis_error]> h in
  let s := <["analysis" := fallback_to_simpler_analysis]> s in
  let h := <["database" := handle_database_error]> h in
  let s := <["database" := retry_with_jitter]> s in
  mkManager h s (error_history self) (max_history_size self).

(** [ErrorRecoveryManager.__init__] *)
Definition __init__ : Manager :=
  _setup_default_handlers (mkManager ∅ ∅ [] 1000).

(** The operation handed to the manager. Its positional arguments never
    change, so it is given by what its [k]-th invocation (counted from 0)
    does with the keyword arguments it receives. *)
Definition Operation : Type := nat -> PyDict.t pyval -> outcome pyval.

(** The world the manager runs in. *)
Record World : Type := mkWorld {
  self_ : Manager;
  heap : list AnalysisError;   (* the AnalysisError objects, by allocation *)
  calls : nat;                 (* invocations of the operation so far *)
  slept : list Q;              (* delays given to asyncio.sleep, oldest first *)
  random_ : nat -> Q;          (* the successive results of random.random() *)
  draws : nat;                 (* how many of them were consumed *)
  now : Q                      (* the reading of time.time() *)
}.

Definition with_self (f : Manager -> Manager) (w : World) : World :=
  mkWorld (f (self_ w)) (heap w) (calls w) (slept w) (random_ w) (draws w) (now w).

Definition with_heap (f : list AnalysisError -> list AnalysisError) (w : World)
  : World :=
  mkWorld (self_ w) (f (heap w)) (calls w) (slept w) (random_ w) (draws w) (now w).

(** [await operation( *args, **kwargs )] *)
Definition call (operation : Operation) (kwargs : PyDict.t pyval) : M World pyval :=
  fun w =>
    (operation (calls w) kwargs,
     mkWorld (self_ w) (heap w) (S (calls w)) (slept w) (random_ w) (draws w) (now w)).

(** [await asyncio.sleep(delay)] *)
Definition sleep (delay : Q) : M World unit :=
  modify (fun w =>
    mkWorld (self_ w) (heap w) (calls w) (slept w ++ [delay]) (random_ w) (draws w) (now w)).

(** [random.uniform(a, b)], that is [a + (b - a) * random.random()] *)
Definition uniform (a b : Q) : M World Q :=
  fun w =>
    (Return (a + (b - a) * random_ w (draws w))%Q,
     mkWorld (self_ w) (heap w) (calls w) (slept w) (random_ w) (S (draws w)) (now w)).

#[global] Instance AnalysisError_inhabited : Inhabited AnalysisError :=
  populate (mkAnalysisError EmptyString EmptyString MEDIUM false ESCALATE
              (mkContext EmptyString 0 [] EmptyString) 0 0 3).

(** Reading the object behind a reference. *)
Definition deref (r : nat) : M World AnalysisError :=
  gets (fun w => heap w !!! r).

(** [_create_error_from_exception]; the result is a new object. *)
Definition _create_error_from_exception (exception : PyExc)
    (operation_name : string) (args_count : nat) (kwargs : PyDict.t pyval)
  : M World nat :=
  fun w =>
    let error_type := PyStr.lower (exc_type exception) in
    let '(severity, recoverable, strategy) := classify error_type in
    let error :=
      mkAnalysisError error_type (exc_str exception) severity recoverable strategy
        (mkContext operation_name args_count (PyDict.keys kwargs)
           (exc_traceback exception))
        (now w) 0 3 in
    (Return (length (heap w)), with_heap (fun h => h ++ [error]) w).

(** [_log_error]: append to the history, then drop the oldest entry when the
    history has grown past [max_history_size]. *)
Definition _log_error (error : nat) : M World unit :=
  modify (with_self (fun self =>
    let history := error_history self ++ [error] in
    let history :=
      if (max_history_size self <? length history)%nat
      then drop 1 history else history in
    mkManager (error_handlers self) (recovery_strategies self)
      history (max_history_size self))).

(** *** Recovery strategies *)

Definition type_error (msg : string) : PyExc := mkExc "TypeError" msg EmptyString true.

Definition overflow_error : PyExc :=
  mkExc "OverflowError" "int too large to convert to float" EmptyString true.

(** [len(v)] *)
Definition py_len (v : pyval) : M World nat :=
  match v with
  | VStr s => ret (String.length s)
  | VList l => ret (length l)
  | VDict d => ret (length d)
  | _ => raise (type_error "object has no len()")
  end.

(** [v[:n]] *)
Definition py_slice_to (n : nat) (v : pyval) : M World pyval :=
  match v with
  | VStr s => ret (VStr (String.substring 0 n s))
  | VList l => ret (VList (take n l))
  | _ => raise (type_error "object is not sliceable")
  end.

(** [min(base_delay * (2 ** attempt), max_delay)]. The power is an exact
    integer; multiplying it by the float [base_delay] converts it, which
    raises from [2 ** 1024] on. *)
Definition capped_backoff (base_delay max_delay : Q) (attempt : nat) : M World Q :=
  if (attempt <? 1024)%nat
  then ret (Qmin (base_delay * inject_Z (2 ^ Z.of_nat attempt)) max_delay)
  else raise overflow_error.

(** The delay of [_retry_with_backoff] before [attempt]. *)
Definition backoff_delay (attempt : nat) : M World Q :=
  let base_delay := 1%Q in
  let max_delay := 30%Q in
  capped_backoff base_delay max_delay attempt.

(** The delay of [_retry_with_exponential_backoff] before [attempt]. *)
Definition exponential_backoff_delay (attempt : nat) : M World Q :=
  let base_delay := 1%Q in
  let max_delay := 60%Q in
  let jitter_factor := (1 # 10)%Q in
  let* delay := capped_backoff base_delay max_delay attempt in
  let* u := uniform (-1) 1 in
  let jitter := (delay * jitter_factor * u)%Q in
  ret (delay + jitter)%Q.

(** The delay of [_retry_with_jitter]; it does not depend on the attempt. *)
Definition jitter_delay (attempt : nat) : M World Q :=
  let* u := uniform 0 4 in
  ret (1 + u)%Q.

(** The body of [for attempt in range(...)], which the three retry strategies
    share word for word but for the computation of the delay: sleep, invoke
    the operation again, return its result, or count the failure and go on.
    Falling off the loop returns [None]. *)
Fixpoint retry_loop (delay_for : nat -> M World Q) (error : nat)
    (operation : Operation) (kwargs : PyDict.t pyval) (attempts : list nat)
  : M World pyval :=
  match attempts with
  | [] => ret VNone
  | attempt :: rest =>
      let* delay := delay_for attempt in
      let* _ := sleep delay in
      let* r :=
        try_except
          (let* result := call operation kwargs in ret (Some result))
          (fun _ =>
             let* _ := modify (with_heap (alter increment_retry error)) in
             ret None) in
      match r with
      | Some result => ret result
      | None => retry_loop delay_for error operation kwargs rest
      end
  end.

(** [range(a, b)] *)
Definition range (a b : nat) : list nat := seq a (b - a).

(** A retry strategy: the [should_retry] guard, then the loop over
    [range(error.retry_count, error.max_retries)], whose bounds are read once. *)
Definition retry_strategy (delay_for : nat -> M World Q) (error : nat)
    (operation : Operation) (kwargs : PyDict.t pyval) : M World pyval :=
  let* e := deref error in
  if negb (should_retry e) then ret VNone
  else retry_loop delay_for error operation kwargs
         (range (retry_count e) (max_retries e)).

Definition _retry_with_backoff := retry_strategy backoff_delay.

Definition _retry_with_exponential_backoff :=
  retry_strategy exponential_backoff_delay.

Definition _retry_with_jitter := retry_strategy jitter_delay.

Definition _reduce_complexity_fallback (error : nat) (operation : Operation)
    (kwargs : PyDict.t pyval) : M World pyval :=
  match PyDict.get "features" kwargs with
  | None => ret VNone
  | Some original_features =>
      let* n := py_len original_features in
      if (1 <? n)%nat then
        let* reduced_features := py_slice_to (n / 2) original_features in
        let kwargs := PyDict.set "features" reduced_features kwargs in
        try_except
          (let* result := call operation kwargs in
           ret (VDict [("fallback_applied", VBool true);
                       ("reason", VStr "memory_error");
                       ("reduced_features", reduced_features);
                       ("result", result)]))
          (fun _ => ret VNone)
      else ret VNone
  end.

Definition _fallback_to_simpler_analysis (error : nat) (operation : Operation)
    (kwargs : PyDict.t pyval) : M World pyval :=
  match PyDict.get "features" kwargs with
  | None => ret VNone
  | Some original_features =>
      let simple_features := VList [VStr "basic_info"; VStr "strings"] in
      let kwargs := PyDict.set "features" simple_features kwargs in
      try_except
        (let* result := call operation kwargs in
         ret (VDict [("fallback_applied", VBool true);
                     ("reason", VStr "analysis_error");
                     ("simple_features", simple_features);
                     ("result", result)]))
        (fun _ => ret VNone)
  end.

(** Calling a stored strategy. *)
Definition run_strategy (f : Strategy)
  : nat -> Operation -> PyDict.t pyval -> M World pyval :=
  match f with
  | retry_with_backoff => _retry_with_backoff
  | retry_with_exponential_backoff => _retry_with_exponential_backoff
  | reduce_complexity_fallback => _reduce_complexity_fallback
  | fallback_to_simpler_analysis => _fallback_to_simpler_analysis
  | retry_with_jitter => _retry_with_jitter
  end.

(** *** The manager *)

Definition _attempt_recovery (error : nat) (operation : Operation)
    (kwargs : PyDict.t pyval) : M World pyval :=
  let* e := deref error in
  if negb (recoverable e) then ret VNone
  else
    let strategy_name := strategy_value (recovery_strategy e) in
    let* strategy_func := gets (fun w => recovery_strategies (self_ w) !! strategy_name) in
    match strategy_func with
    | None => ret VNone
    | Some strategy_func =>
        try_except (run_strategy strategy_func error operation kwargs)
          (fun recovery_error => ret VNone)
    end.

Definition execute_with_recovery (operation : Operation)
    (operation_name : string) (args_count : nat) (kwargs : PyDict.t pyval)
  : M World pyval :=
  try_except (call operation kwargs)
    (fun e =>
       let* error := _create_error_from_exception e operation_name args_count kwargs in
       let* _ := _log_error error in
       let* recovery_result := _attempt_recovery error operation kwargs in
       if is_none recovery_result then raise e else ret recovery_result).

(** A world around a newly constructed manager. *)
Definition fresh_world (random : nat -> Q) (time : Q) : World :=
  mkWorld __init__ [] 0 [] random 0 time.

(** *** Vocabulary of the properties *)

(** Severity, recoverability and strategy of a classified error. *)
Definition disposition (e : AnalysisError)
  : ErrorSeverity * bool * RecoveryStrategy :=
  (severity e, recoverable e, recovery_strategy e).

(** The world after [n] failed attempts that slept [delays]. *)
Definition after_failures (error n : nat) (delays : list Q) (w : World)
  : World :=
  mkWorld (self_ w) (Nat.iter n (alter increment_retry error) (heap w))
    (calls w + n) (slept w ++ delays) (random_ w) (draws w) (now w).

(** The delay before an attempt, as a number. *)
Definition backoff_seconds (attempt : nat) : Q :=
  Qmin (inject_Z (2 ^ Z.of_nat attempt)) 30.

Definition timeout_exc : PyExc :=
  mkExc "TimeoutError" "operation timed out" EmptyString true.

(** Raises [TimeoutError] on its first invocation and returns 42 afterwards. *)
Definition fails_once : Operation :=
  fun k _ => if (k =? 0)%nat then Raise timeout_exc else Return (VInt 42).

(** Raises [TimeoutError] on every invocation. *)
Definition always_times_out : Operation :=
  fun _ _ => Raise timeout_exc.

(** A manager whose strategy table has an entry under the key
    [_attempt_recovery] looks up for a retry-classified error. *)
Definition keyed_by_strategy : Manager :=
  mkManager (error_handlers __init__)
    (<["retry" := retry_with_backoff]> (recovery_strategies __init__))
    (error_history __init__) (max_history_size __init__).

(** The three retry strategies. *)
Definition is_retry (f : Strategy) : bool :=
  match f with
  | retry_with_backoff | retry_with_exponential_backoff | retry_with_jitter => true
  | reduce_complexity_fallback | fallback_to_simpler_analysis => false
  end.

(** The world in which recovery is attempted: the operation was invoked
    once, the error object [err] was allocated and logged. *)
Definition after_logging (w : World) (err : AnalysisError) : World :=
  mkWorld
    (mkManager (error_handlers (self_ w)) (recovery_strategies (self_ w))
       (let history := error_history (self_ w) ++ [length (heap w)] in
        if (max_history_size (self_ w) <? length history)%nat
        then drop 1 history else history)
       (max_history_size (self_ w)))
    (heap w ++ [err]) (S (calls w)) (slept w) (random_ w) (draws w) (now w).






(** Logging a sequence of errors, oldest first. *)
Fixpoint log_all (errors : list nat) : M World unit :=
  match errors with
  | [] => ret tt
  | error :: rest => let* _ := _log_error error in log_all rest
  end.

Definition history (w : World) : list nat := error_history (self_ w).

Definition bound (w : World) : nat := max_history_size (self_ w).

End ErrorRecovery.

(** ** multi_region.py *)

Module MultiRegion.
Import Eff.
#[local] Open Scope eff_scope.

(** Modelled from the spec: [RegionConfig] is declared in [config.py], which is
    not among the sources. The fields are the ones [multi_region.py] reads,
    typed after the configuration inputs of the specification: an enablement
    flag, the region ids, the current region id, an optional primary region
    id, the replication flag and targets, and the cross-region timeout. *)
Record RegionConfig : Type := mkRegionConfig {
  enabled : bool;
  regions_ : list string;
  current_region : string;
  primary_region : option string;
  replication_enabled : bool;
  replication_regions : list string;
  cross_region_timeout : Q
}.

Record RegionStatus : Type := mkRegionStatus {
  region : string;
  url : string;
  healthy : bool;
  latency_ms : Q;
  last_check : option Q;
  error : option string
}.

(** The attributes of a [MultiRegionManager]; [_session] is the timeout of the
    HTTP session when there is one. *)
Record Manager : Type := mkManager {
  region_config : RegionConfig;
  regions : PyDict.t RegionStatus;
  _session : option Q
}.

Definition _get_region_url (region : string) : string :=
  "https://ghidrainsight-" +:+ region +:+ ".example.com".

(** [_initialize_regions]: one unhealthy [RegionStatus] per configured region,
    and none at all when multi-region support is disabled. *)
Definition _initialize_regions (self : Manager) : Manager :=
  if negb (enabled (region_config self)) then self
  else
    mkManager (region_config self)
      (foldl (fun regions region =>
                let url := _get_region_url region in
                PyDict.set region (mkRegionStatus region url false 0 None None) regions)
         (regions self) (regions_ (region_config self)))
      (_session self).

Definition __init__ (config : RegionConfig) : Manager :=
  _initialize_regions (mkManager config [] None).

(** [initialize]: open the HTTP session when multi-region support is enabled. *)
Definition initialize (self : Manager) : Manager :=
  if enabled (region_config self)
  then mkManager (region_config self) (regions self)
         (Some (cross_region_timeout (region_config self)))
  else self.

(** What a GET request meets: a response with a status code, or an exception
    raised by the HTTP client. *)
Inductive HttpOutcome : Type :=
| HttpResponse (status : Z)
| HttpFailure (e : PyExc).

Record World : Type := mkWorld {
  self_ : Manager;
  requests : list string;                (* URLs requested, oldest first *)
  http : nat -> string -> HttpOutcome;   (* what the k-th request meets *)
  loop_time : nat -> Q;                  (* successive readings of loop.time() *)
  time_reads : nat;                      (* how many were made *)
  utcnow : Q                             (* datetime.utcnow() *)
}.

(** [asyncio.get_event_loop().time()] *)
Definition get_time : M World Q :=
  fun w =>
    (Return (loop_time w (time_reads w)),
     mkWorld (self_ w) (requests w) (http w) (loop_time w) (S (time_reads w)) (utcnow w)).

(** [self._session.get(url)] *)
Definition session_get (url : string) : M World Z :=
  fun w =>
    let w' := mkWorld (self_ w) (requests w ++ [url]) (http w) (loop_time w)
                (time_reads w) (utcnow w) in
    match http w (length (requests w)) url with
    | HttpResponse status => (Return status, w')
    | HttpFailure e => (Raise e, w')
    end.

(** Assigning to attributes of [self.regions[region]]. *)
Definition update_status (region : string) (f : RegionStatus -> RegionStatus)
  : M World unit :=
  modify (fun w =>
    let self := self_ w in
    let regions' :=
      match PyDict.get region (regions self) with
      | Some st => PyDict.set region (f st) (regions self)
      | None => regions self
      end in
    mkWorld (mkManager (region_config self) regions' (_session self))
      (requests w) (http w) (loop_time w) (time_reads w) (utcnow w)).

Definition check_region_health (region : string) : M World bool :=
  let* self := gets self_ in
  match _session self, PyDict.get region (regions self) with
  | Some _, Some region_status =>
      let* start_time := get_time in
      try_except
        (let* status := session_get (url region_status +:+ "/health") in
         let* t := get_time in
         let latency := ((t - start_time) * 1000)%Q in
         if (status =? 200)%Z then
           let* now := gets utcnow in
           let* _ := update_status region (fun st =>
             mkRegionStatus (MultiRegion.region st) (url st) true latency (Some now) None) in
           ret true
         else
           let* _ := update_status region (fun st =>
             mkRegionStatus (MultiRegion.region st) (url st) false (latency_ms st)
               (last_check st) (Some ("HTTP " +:+ pretty status))) in
           ret false)
        (fun e =>
           let* t := get_time in
           let latency := ((t - start_time) * 1000)%Q in
           let* _ := update_status region (fun st =>
             mkRegionStatus (MultiRegion.region st) (url st) false latency
               (last_check st) (Some (exc_str e))) in
           ret false)
  | _, _ => ret false
  end.

(** [min(l, key=...)] on a non-empty sequence [x :: l]: the running minimum is
    replaced only by an item whose key is strictly smaller. *)
Fixpoint min_by {A} (key : A -> Q) (best : A) (l : list A) : A :=
  match l with
  | [] => best
  | x :: l' =>
      min_by key (match (key x ?= key best)%Q with Lt => x | _ => best end) l'
  end.

Definition get_best_region (self : Manager) : string :=
  if negb (enabled (region_config self)) then current_region (region_config self)
  else
    let healthy_regions :=
      omap (fun '(region, status) =>
              if healthy status then Some (region, latency_ms status) else None)
        (regions self) in
    match healthy_regions with
    | [] => current_region (region_config self)
    | x :: l => fst (min_by snd x l)
    end.

Definition is_current_region_primary (self : Manager) : bool :=
  if negb (enabled (region_config self)) then true
  else
    match primary_region (region_config self) with
    | None => true
    | Some primary => String.eqb (current_region (region_config self)) primary
    end.

(** *** Vocabulary of the properties *)

(** The condition the specification gives for [is_current_region_primary]. *)
Definition primary_when_replication_disabled (self : Manager) : Prop :=
  is_current_region_primary self = true <->
  (replication_enabled (region_config self) = false
   \/ primary_region (region_config self) = None
   \/ primary_region (region_config self)
        = Some (current_region (region_config self))).

(** Multi-region support is on, replication is off, and the primary region
    is another one than the current region. *)
Definition secondary_without_replication : Manager :=
  __init__ (mkRegionConfig true ["eu-west"; "us-east"] "eu-west"
              (Some "us-east") false [] 30).

(** The pairs [get_best_region] collects. *)
Definition healthy_pair (item : string * RegionStatus) : option (string * Q) :=
  let '(region, status) := item in
  if healthy status then Some (region, latency_ms status) else None.

(** The regions of a manager exist only when multi-region support is on. *)
Definition regions_when_enabled (self : Manager) : Prop :=
  enabled (region_config self) = false -> regions self = [].

(** The regions of the example of the specification: A and B healthy with
    latencies 50 and 10, C unhealthy. *)
Definition three_regions : Manager :=
  mkManager (mkRegionConfig true ["A"; "B"; "C"] "C" None false [] 30)
    [("A", mkRegionStatus "A" (_get_region_url "A") true 50 None None);
     ("B", mkRegionStatus "B" (_get_region_url "B") true 10 None None);
     ("C", mkRegionStatus "C" (_get_region_url "C") false 0 None (Some "HTTP 503"))]
    (Some 30%Q).

(** The latency a check measures: the two readings of the loop clock around
    the request, in milliseconds. *)
Definition measured_latency (w : World) : Q :=
  ((loop_time w (S (time_reads w)) - loop_time w (time_reads w)) * 1000)%Q.

(** What an [except Exception] clause around a request deals with: every
    response, and the exceptions that are an [Exception]. *)
Definition handled (o : HttpOutcome) : bool :=
  match o with
  | HttpResponse _ => true
  | HttpFailure e => exc_is_exception e
  end.

(** The status a probe leaves, by what the request met, when the check
    returns. *)
Definition status_after (w : World) (st : RegionStatus) : RegionStatus :=
  match http w (length (requests w)) (url st +:+ "/health") with
  | HttpResponse status =>
      if (status =? 200)%Z
      then mkRegionStatus (region st) (url st) true (measured_latency w)
             (Some (utcnow w)) None
      else mkRegionStatus (region st) (url st) false (latency_ms st)
             (last_check st) (Some ("HTTP " +:+ pretty status))
  | HttpFailure e =>
      mkRegionStatus (region st) (url st) false (measured_latency w)
        (last_check st) (Some (exc_str e))
  end.

(** The specification's reading of [check_region_health], for a region of the
    map: one request to the health URL, the measured latency recorded
    whatever the request met, healthy only after a 200 response, and after
    anything else unhealthy with the error text recorded. *)
Definition probes_and_records (region : string) (w : World) : Prop :=
  forall st,
    PyDict.get region (regions (self_ w)) = Some st ->
    let w' := snd (check_region_health region w) in
    requests w' = requests w ++ [url st +:+ "/health"]
    /\ exists st',
         PyDict.get region (regions (self_ w')) = Some st'
         /\ latency_ms st' = measured_latency w
         /\ (healthy st' = true ->
             http w (length (requests w)) (url st +:+ "/health")
               = HttpResponse 200)
         /\ (http w (length (requests w)) (url st +:+ "/health")
               <> HttpResponse 200 ->
             healthy st' = false /\ error st' <> None).

(** A manager that was constructed but whose [initialize] was not awaited:
    the region is configured, no HTTP session exists. *)
Definition without_session : World :=
  mkWorld (__init__ (mkRegionConfig true ["eu-west"] "eu-west" None false [] 30))
    [] (fun _ _ => HttpResponse 200) (fun k => inject_Z (Z.of_nat k)) 0 0.

(** The same manager after [initialize], facing a region that answers 503. *)
Definition with_session : World :=
  mkWorld
    (initialize
       (__init__ (mkRegionConfig true ["eu-west"] "eu-west" None false [] 30)))
    [] (fun _ _ => HttpResponse 503) (fun k => inject_Z (Z.of_nat k)) 0 0.

End MultiRegion.

(** ** distributed_tasks.py *)

Module DistributedTasks.
Import Eff.
#[local] Open Scope eff_scope.

(** What [for feature in features] sees of its argument: the next item, the
    end of the iteration, or an exception raised by the iteration itself (at
    once, for an object that is not iterable). A Python list never raises. *)
Inductive Features : Type :=
| FNil
| FCons (feature : string) (rest : Features)
| FRaise (e : PyExc).

Fixpoint of_list (l : list string) : Features :=
  match l with
  | [] => FNil
  | f :: l' => FCons f (of_list l')
  end.

(** [analysis_engine._run_feature_analysis], an external collaborator: what
    its [k]-th run (counted from 0) does on a feature and a payload. *)
Definition Engine : Type := nat -> string -> list Byte.byte -> outcome pyval.

(** The world of a worker: the features the engine was run on, oldest first. *)
Definition World : Type := list string.

Definition _run_feature_analysis (engine : Engine) (feature : string)
    (binary_data : list Byte.byte) : M World pyval :=
  fun w => (engine (length w) feature binary_data, w ++ [feature]).

(** The per-feature loop of [analyze_binary_parallel], on the [results]
    dictionary built so far. *)
Fixpoint feature_loop (engine : Engine) (binary_data : list Byte.byte)
    (features : Features) (results : PyDict.t pyval) : M World (PyDict.t pyval) :=
  match features with
  | FNil => ret results
  | FRaise e => raise e
  | FCons feature rest =>
      let* results :=
        try_except
          (let* result := _run_feature_analysis engine feature binary_data in
           ret (PyDict.set feature result results))
          (fun e =>
             ret (PyDict.set feature (VDict [("error", VStr (exc_str e))]) results)) in
      feature_loop engine binary_data rest results
  end.

(** The items a [features] argument yields. *)
Fixpoint items (features : Features) : list string :=
  match features with
  | FNil | FRaise _ => []
  | FCons f rest => f :: items rest
  end.

Definition analyze_binary_parallel (engine : Engine)
    (binary_data : list Byte.byte) (features : Features) : M World pyval :=
  try_except
    (let* results := feature_loop engine binary_data features [] in
     ret (VDict [("features_analyzed", VList (VStr <$> items features));
                 ("results", VDict results);
                 ("success", VBool true);
                 ("binary_size", VInt (Z.of_nat (length binary_data)))]))
    (fun e =>
       ret (VDict [("error", VStr (exc_str e)); ("success", VBool false)])).

(** The [success] entry of an envelope. *)
Definition success (envelope : pyval) : option pyval :=
  match envelope with
  | VDict d => PyDict.get "success" d
  | _ => None
  end.

(** The [results] entry of an envelope. *)
Definition results (envelope : pyval) : option (PyDict.t pyval) :=
  match envelope with
  | VDict d =>
      match PyDict.get "results" d with
      | Some (VDict r) => Some r
      | _ => None
      end
  | _ => None
  end.

(** *** Vocabulary of the properties *)

(** The entry recorded for a feature, by what the engine did on it. *)
Definition record (o : outcome pyval) : pyval :=
  match o with
  | Return result => result
  | Raise e => VDict [("error", VStr (exc_str e))]
  end.

(** The [results] dictionary after the engine ran on the features [l], its
    runs being numbered from [k]. *)
Fixpoint record_all (engine : Engine) (binary_data : list Byte.byte) (k : nat)
    (l : list string) (results : PyDict.t pyval) : PyDict.t pyval :=
  match l with
  | [] => results
  | feature :: rest =>
      record_all engine binary_data (S k) rest
        (PyDict.set feature (record (engine k feature binary_data)) results)
  end.

(** The exception that ends the iteration over [features], if one does. *)
Fixpoint iteration_error (features : Features) : option PyExc :=
  match features with
  | FNil => None
  | FCons _ rest => iteration_error rest
  | FRaise e => Some e
  end.

(** The engine raises nothing but an [Exception] on the features [l], its
    runs being numbered from [k]. *)
Definition raises_exceptions_only (engine : Engine)
    (binary_data : list Byte.byte) (k : nat) (l : list string) : Prop :=
  forall i feature e,
    l !! i = Some feature ->
    engine (k + i)%nat feature binary_data = Raise e ->
    exc_is_exception e = true.

(** The specification's reading of feature-mode dispatch on a list of
    features: whatever the engine does, the envelope has [success] true and
    an entry for each listed feature, the output or the error record of the
    (last) run on it. *)
Definition isolates_failures (engine : Engine) (binary_data : list Byte.byte)
    (l : list string) (w : World) : Prop :=
  exists envelope r,
    analyze_binary_parallel engine binary_data (of_list l) w
      = (Return envelope, w ++ l)
    /\ success envelope = Some (VBool true)
    /\ results envelope = Some r
    /\ forall i f, l !! i = Some f -> f ∉ drop (S i) l ->
          PyDict.get f r = Some (record (engine (length w + i)%nat f binary_data)).

(** An engine that is interrupted on "a" and would succeed on anything
    else. *)
Definition interrupted_on_a : Engine :=
  fun _ feature _ =>
    if String.eqb feature "a"
    then Raise (mkExc "KeyboardInterrupt" EmptyString EmptyString false)
    else Return (VStr "ok").

(** An engine that succeeds on every feature but "b". *)
Definition fails_on_b : Engine :=
  fun _ feature _ =>
    if String.eqb feature "b"
    then Raise (mkExc "ValueError" "unsupported feature" EmptyString true)
    else Return (VStr "ok").

End DistributedTasks.

(** ** Vocabulary for the recovery strategies *)

Module RecoveryVocabulary.
Import Eff ErrorRecovery.
#[local] Open Scope eff_scope.

(** What no strategy touches: the manager and the number of error objects. *)
Definition same_manager (w w' : World) : Prop :=
  self_ w' = self_ w /\ length (heap w') = length (heap w).

(** The three delay computations leave everything but the count of random
    draws as it was. *)
Definition delay_frame (delay_for : nat -> M World Q) : Prop :=
  forall n w,
    let w' := snd (delay_for n w) in
    self_ w' = self_ w /\ heap w' = heap w /\ calls w' = calls w
    /\ slept w' = slept w /\ random_ w' = random_ w.

(** The history after one more entry, as [_log_error] leaves it. *)
Definition logged (self : Manager) (error : nat) : list nat :=
  let history := error_history self ++ [error] in
  if (max_history_size self <? length history)%nat then drop 1 history
  else history.

(** The error object [_create_error_from_exception] makes of a
    [TimeoutError]. *)
Definition timeout_error : AnalysisError :=
  mkAnalysisError "timeouterror" "operation timed out" HIGH true RETRY
    (mkContext "analyze" 0 [] EmptyString) 0 0 3.

(** A world in which that object is the only one, and not logged. *)
Definition retry_world : World :=
  mkWorld __init__ [timeout_error] 0 [] (fun _ => (1 # 2)%Q) 0 0.

(** The task around the operation is cancelled. *)
Definition cancelled_exc : PyExc :=
  mkExc "CancelledError" EmptyString EmptyString false.

(** Raises [TimeoutError] on its first invocation and is cancelled during
    the next one. *)
Definition cancelled_in_retry : Operation :=
  fun k _ => if (k =? 0)%nat then Raise timeout_exc else Raise cancelled_exc.

(** The world of [retry_world] after the first invocation. *)
Definition retrying_world : World :=
  mkWorld keyed_by_strategy [timeout_error] 1 [] (fun _ => (1 # 2)%Q) 0 0.

(** The dictionary a fallback returns around the result of the operation. *)
Definition fallback_result (reason key : string) (features result : pyval)
  : pyval :=
  VDict [("fallback_applied", VBool true); ("reason", VStr reason);
         (key, features); ("result", result)].

End RecoveryVocabulary.

(** ** Error statistics *)

Module ErrorStatistics.
Import ErrorRecovery.

(** [severity.value] *)
Definition severity_value (s : ErrorSeverity) : string :=
  match s with
  | LOW => "low"
  | MEDIUM => "medium"
  | HIGH => "high"
  | CRITICAL => "critical"
  end.

(** [d[k] = d.get(k, 0) + 1] *)
Definition count_up (k : string) (d : PyDict.t Z) : PyDict.t Z :=
  PyDict.set k (default 0 (PyDict.get k d) + 1)%Z d.

(** One turn of the loop of [get_error_statistics] on the three tallies
    [error_types], [severities] and [recoveries["failed"]]. *)
Definition tally (acc : PyDict.t Z * PyDict.t Z * Z) (error : AnalysisError)
  : PyDict.t Z * PyDict.t Z * Z :=
  let '(error_types, severities, failed) := acc in
  (count_up (error_type error) error_types,
   count_up (severity_value (severity error)) severities,
   (failed + 1)%Z).

(** [max(x :: l, key=key)]: the running maximum is replaced only by an item
    whose key is strictly greater. *)
Fixpoint max_by {A} (key : A -> Z) (best : A) (l : list A) : A :=
  match l with
  | [] => best
  | x :: l' => max_by key (if (key best <? key x)%Z then x else best) l'
  end.

(** The error objects the history refers to, oldest first. *)
Definition logged_errors (w : World) : list AnalysisError :=
  (fun error => heap w !!! error) <$> error_history (self_ w).

(** A dictionary of counts as a Python value. *)
Definition counts_value (d : PyDict.t Z) : pyval :=
  VDict (prod_map id VInt <$> d).

Definition get_error_statistics (w : World) : pyval :=
  match logged_errors w with
  | [] => VDict [("total_errors", VInt 0)]
  | errors =>
      let '(error_types, severities, failed) := foldl tally ([], [], 0%Z) errors in
      VDict [("total_errors", VInt (Z.of_nat (length errors)));
             ("error_types", counts_value error_types);
             ("severities", counts_value severities);
             ("recovery_stats",
              VDict [("successful", VInt 0); ("failed", VInt failed)]);
             ("most_common_error",
              match PyDict.keys error_types with
              | [] => VNone
              | k :: ks =>
                  VStr (max_by (fun k => default 0%Z (PyDict.get k error_types))
                          k ks)
              end)]
  end.

(** [clear_error_history] *)
Definition clear_error_history (w : World) : World :=
  with_self (fun self =>
    mkManager (error_handlers self) (recovery_strategies self) []
      (max_history_size self)) w.

(** An entry of a dictionary value. *)
Definition entry (k : string) (v : pyval) : option pyval :=
  match v with
  | VDict d => PyDict.get k d
  | _ => None
  end.

(** How many items of [l] have the key [k]. *)
Definition tallied {A} (key : A -> string) (k : string) (l : list A) : Z :=
  Z.of_nat (length (filter (fun x => key x = k) l)).

(** How many of the errors have the kind [kind]. *)
Definition occurrences (kind : string) (errors : list AnalysisError) : Z :=
  Z.of_nat (length (filter (fun e => error_type e = kind) errors)).

(** How many of the errors have the severity whose value is [value]. *)
Definition with_severity (value : string) (errors : list AnalysisError) : Z :=
  Z.of_nat
    (length (filter (fun e => severity_value (severity e) = value) errors)).

(** A manager that logged two timeouts and a memory error. *)
Definition logged_world : World :=
  mkWorld
    (mkManager (error_handlers __init__) (recovery_strategies __init__)
       [0; 1; 2]%nat 1000)
    [mkAnalysisError "timeouterror" "first" HIGH true RETRY
       (mkContext "analyze" 0 [] EmptyString) 0 0 3;
     mkAnalysisError "memoryerror" "second" CRITICAL true FALLBACK
       (mkContext "analyze" 0 [] EmptyString) 0 0 3;
     mkAnalysisError "timeouterror" "third" HIGH true RETRY
       (mkContext "analyze" 0 [] EmptyString) 0 0 3]
    3 [] (fun _ => 0%Q) 0 0.

(** The count a dictionary of counts holds for a number of occurrences. *)
Definition count_entry (n : Z) : option Z :=
  if (n =? 0)%Z then None else Some n.

End ErrorStatistics.

(** ** multi_region.py: sessions and replication *)

Module Replication.
Import Eff MultiRegion.
#[local] Open Scope eff_scope.

(** [close]: drop the HTTP session, if there is one. *)
Definition close (self : Manager) : Manager :=
  match _session self with
  | Some _ => mkManager (region_config self) (regions self) None
  | None => self
  end.

(** A POST request: its URL, its JSON body and its [X-Region] header. *)
Record Post : Type := mkPost {
  post_url : string;
  post_json : pyval;
  post_x_region : string
}.

(** The network as replication sees it: the requests posted so far, oldest
    first, and what the [k]-th request meets. *)
Record Net : Type := mkNet {
  posts : list Post;
  post_http : nat -> Post -> HttpOutcome
}.

(** [self._session.post(url, json=data, headers=...)] *)
Definition session_post (request : Post) : M Net Z :=
  fun net =>
    let net' := mkNet (posts net ++ [request]) (post_http net) in
    match post_http net (length (posts net)) request with
    | HttpResponse status => (Return status, net')
    | HttpFailure e => (Raise e, net')
    end.

Definition replicate_to_region (self : Manager) (region : string) (data : pyval)
  : M Net bool :=
  if negb (replication_enabled (region_config self)) then ret false
  else
    match PyDict.get region (regions self) with
    | None => ret false
    | Some region_status =>
        match _session self with
        | None => ret false
        | Some _ =>
            try_except
              (let* status :=
                 session_post
                   (mkPost (url region_status +:+ "/api/replicate") data
                      (current_region (region_config self))) in
               if (status =? 200)%Z then ret true else ret false)
              (fun e => ret false)
        end
    end.

(** The loop of [replicate_to_all] on the [results] built so far. *)
Fixpoint replicate_loop (self : Manager) (data : pyval) (targets : list string)
    (results : PyDict.t bool) : M Net (PyDict.t bool) :=
  match targets with
  | [] => ret results
  | region :: rest =>
      let* ok := replicate_to_region self region data in
      replicate_loop self data rest (PyDict.set region ok results)
  end.

Definition replicate_to_all (self : Manager) (data : pyval)
  : M Net (PyDict.t bool) :=
  if negb (replication_enabled (region_config self)) then ret []
  else replicate_loop self data (replication_regions (region_config self)) [].

(** *** Vocabulary of the properties *)

(** The request [replicate_to_region] posts for a region with status [st]. *)
Definition replication_post (self : Manager) (st : RegionStatus) (data : pyval)
  : Post :=
  mkPost (url st +:+ "/api/replicate") data (current_region (region_config self)).

(** Whether a request was answered with status 200. *)
Definition accepted (o : HttpOutcome) : bool :=
  match o with
  | HttpResponse status => (status =? 200)%Z
  | HttpFailure _ => false
  end.

(** The status [__init__] gives a region. *)
Definition initial_status (region : string) : RegionStatus :=
  mkRegionStatus region (_get_region_url region) false 0 None None.

(** The loop of [_initialize_regions], from the map [d]. *)
Definition fill (d : PyDict.t RegionStatus) (l : list string)
  : PyDict.t RegionStatus :=
  foldl (fun regions region =>
           let url := _get_region_url region in
           PyDict.set region (mkRegionStatus region url false 0 None None)
             regions)
    d l.

(** The request posted for the target [region]. *)
Definition post_for (self : Manager) (data : pyval) (region : string) : Post :=
  replication_post self
    (default (initial_status region) (PyDict.get region (regions self))) data.

(** The [results] after the targets [l] were posted in turn, their requests
    being numbered from [k]. *)
Fixpoint record_replies (self : Manager) (data : pyval)
    (http : nat -> Post -> HttpOutcome) (k : nat) (l : list string)
    (results : PyDict.t bool) : PyDict.t bool :=
  match l with
  | [] => results
  | region :: rest =>
      record_replies self data http (S k) rest
        (PyDict.set region (accepted (http k (post_for self data region)))
           results)
  end.

(** Four regions, the current one replicating to the three others. *)
Definition replicating : Manager :=
  initialize
    (__init__ (mkRegionConfig true ["eu"; "us"; "ap"; "sa"] "eu" (Some "eu")
                 true ["us"; "ap"; "sa"] 30)).

(** A manager with an open session whose only region answers 200. *)
Definition answering_200 : World :=
  mkWorld
    (initialize
       (__init__ (mkRegionConfig true ["eu-west"] "eu-west" None false [] 30)))
    [] (fun _ _ => HttpResponse 200) (fun k => inject_Z (Z.of_nat k)) 0 0.

(** A network that accepts every request but the second, which fails. *)
Definition second_post_fails : Net :=
  mkNet []
    (fun k _ =>
       if (k =? 1)%nat
       then HttpFailure (mkExc "ClientConnectionError" "refused" EmptyString true)
       else HttpResponse 200).

End Replication.

(** ** distributed_tasks.py: chunk mode *)

Module ChunkTasks.
Import Eff DistributedTasks.
#[local] Open Scope eff_scope.

(** What [features[0]] raises on an empty list. *)
Definition index_error : PyExc :=
  mkExc "IndexError" "list index out of range" EmptyString true.

Definition analyze_binary_chunk (engine : Engine) (binary_chunk : list Byte.byte)
    (offset : Z) (features : list string) : M World pyval :=
  try_except
    (let* first :=
       match features with
       | [] => raise index_error
       | feature :: _ => ret feature
       end in
     let* result := _run_feature_analysis engine first binary_chunk in
     ret (VDict [("offset", VInt offset);
                 ("chunk_size", VInt (Z.of_nat (length binary_chunk)));
                 ("features", VList (VStr <$> features));
                 ("results", VDict [(first, result)]);
                 ("success", VBool true)]))
    (fun e =>
       ret (VDict [("offset", VInt offset);
                   ("error", VStr (exc_str e));
                   ("success", VBool false)])).

(** *** Vocabulary of the properties *)

(** The envelope of a failed chunk. *)
Definition chunk_failure (offset : Z) (e : PyExc) : pyval :=
  VDict [("offset", VInt offset); ("error", VStr (exc_str e));
         ("success", VBool false)].

(** An entry of an envelope. *)
Definition entry_of (k : string) (envelope : pyval) : option pyval :=
  match envelope with
  | VDict d => PyDict.get k d
  | _ => None
  end.

End ChunkTasks.

(** ** community_string_analyzer.py *)

Module StringAnalyzer.

(** The integer settings of [self.config]; the flags are the integers 1 and
    0 that [True] and [False] are. *)
Definition Config : Type := PyDict.t Z.

(** [self.config] as [__init__] sets it. *)
Definition default_config : Config :=
  [("min_string_length", 4%Z); ("check_api_keys", 1%Z); ("check_urls", 1%Z);
   ("check_paths", 1%Z)].

(** [config.get(key, fallback)] *)
Definition config_get (config : Config) (key : string) (fallback : Z) : Z :=
  default fallback (PyDict.get key config).

(** [32 <= byte <= 126] *)
Definition printable (byte : Byte.byte) : bool :=
  (32 <=? Byte.to_N byte)%N && (Byte.to_N byte <=? 126)%N.

(** [bs.decode('ascii', errors='ignore')]: bytes from 128 on are dropped. *)
Definition decode_ascii (bs : list Byte.byte) : string :=
  String.string_of_list_byte (filter (fun b => (Byte.to_N b < 128)%N) bs).

(** The two places where [_extract_strings] keeps the current run if it is
    long enough. *)
Definition keep (config : Config) (current_string : list Byte.byte)
    (strings : list string) : list string :=
  if (config_get config "min_string_length" 4
      <=? Z.of_nat (length current_string))%Z
  then strings ++ [decode_ascii current_string]
  else strings.

(** The loop of [_extract_strings] and what follows it. *)
Fixpoint extract_loop (config : Config) (binary_data : list Byte.byte)
    (current_string : list Byte.byte) (strings : list string) : list string :=
  match binary_data with
  | [] => keep config current_string strings
  | byte :: rest =>
      if printable byte
      then extract_loop config rest (current_string ++ [byte]) strings
      else extract_loop config rest [] (keep config current_string strings)
  end.

Definition _extract_strings (config : Config) (binary_data : list Byte.byte)
  : list string :=
  extract_loop config binary_data [] [].

(** [validate] *)
Definition validate (config : Config) : bool :=
  (0 <? config_get config "min_string_length" 0)%Z.

Definition suspicious_keywords : list string :=
  ["password"; "secret"; "key"; "token"; "credential";
   "backdoor"; "trojan"; "malware"; "exploit";
   "cmd.exe"; "/bin/sh"; "powershell"].

(** The finding [_check_suspicious] appends for a keyword. *)
Definition suspicious_finding (keyword : string) : pyval :=
  VDict [("type", VStr "suspicious_string");
         ("keyword", VStr keyword);
         ("severity", VStr "low");
         ("description", VStr ("Suspicious keyword found: " +:+ keyword));
         ("location", VStr "strings")].

Definition _check_suspicious (strings : list string) : list pyval :=
  s ← strings;
  let lower_string := PyStr.lower s in
  keyword ← suspicious_keywords;
  if PyStr.contains keyword lower_string then [suspicious_finding keyword]
  else [].

(** A maximal run of printable bytes of [data], at least as long as the
    configured minimum, that decodes to [s]. *)
Definition long_run_of (config : Config) (data : list Byte.byte) (s : string)
  : Prop :=
  exists pre run post,
    data = pre ++ run ++ post
    /\ s = String.string_of_list_byte run
    /\ Forall (fun b => printable b = true) run
    /\ (config_get config "min_string_length" 4 <= Z.of_nat (length run))%Z
    /\ (pre = [] \/ exists pre' b, pre = pre' ++ [b] /\ printable b = false)
    /\ (post = [] \/ exists b post', post = b :: post' /\ printable b = false).

End StringAnalyzer.

(** ** community_entropy_analyzer.py: the sliding windows *)

Module EntropyWindows.

(** The items of [range(i, stop, step)] for a positive [step], at most
    [fuel] of them. *)
Fixpoint range_from (fuel : nat) (i stop step : Z) : list Z :=
  match fuel with
  | O => []
  | S fuel' =>
      if (i <? stop)%Z then i :: range_from fuel' (i + step)%Z stop step
      else []
  end.

(** [range(start, stop, step)] for a positive [step]; it has no more than
    [stop - start] items. *)
Definition py_range (start stop step : Z) : list Z :=
  range_from (Z.to_nat (stop - start)) start stop step.

(** The offsets [analyze] slides its window over:
    [range(0, len(binary_data) - window_size, step_size)]. *)
Definition window_offsets (binary_size window_size step_size : Z) : list Z :=
  py_range 0 (binary_size - window_size) step_size.

(** The [windows_analyzed] entry of the metadata:
    [(len(binary_data) - window_size) // step_size + 1]. *)
Definition windows_analyzed (binary_size window_size step_size : Z) : Z :=
  ((binary_size - window_size) / step_size + 1)%Z.

End EntropyWindows.

(** ** plugins/marketplace.py

    The marketplace reads untyped JSON, so a repository is any [pyval]; an
    attribute or an item a value does not have raises. In
    [_parse_github_repo] nothing but such an operation can raise, always an
    [Exception], which the handler turns into [None]: that method is an
    [option]. [search] calls the HTTP client inside its [try] block, so it
    is an [outcome]: its handler lets an exception that is not an
    [Exception] pass. Text is ASCII, as elsewhere. The installation
    methods, which work on the file system and the plugin loader, are not
    part of the embedding. *)

Module Marketplace.

Record MarketplacePlugin : Type := mkPlugin {
  name : string;
  version : string;
  author : pyval;
  description : pyval;
  repository : pyval;
  download_url : string;
  install_count : pyval;
  rating : Q;
  tags : list pyval;
  verified : bool
}.

(** [v == s] for a [str] [s]: among JSON values only an equal [str] is equal
    to a [str]. *)
Definition is_str (s : string) (v : pyval) : bool :=
  match v with
  | VStr s' => String.eqb s s'
  | _ => false
  end.

(** [v.get(k, default)]: only a [dict] has the method. *)
Definition get_or (v : pyval) (k : string) (default_ : pyval) : option pyval :=
  match v with
  | VDict d => Some (default default_ (PyDict.get k d))
  | _ => None
  end.

(** [v[k]] for a [str] key [k]: a missing key raises, and so does a string
    index into a value that is not a [dict]. *)
Definition subscript (v : pyval) (k : string) : option pyval :=
  match v with
  | VDict d => PyDict.get k d
  | _ => None
  end.

(** [s.replace(old, new)] for a non-empty [old], scanning from the left;
    [skip] counts the characters of a replaced occurrence still to pass. *)
Fixpoint replace_from (old new : string) (skip : nat) (s : string) : string :=
  match s with
  | EmptyString => EmptyString
  | String c s' =>
      match skip with
      | S k => replace_from old new k s'
      | O =>
          if String.prefix old s
          then new +:+ replace_from old new (String.length old - 1) s'
          else String c (replace_from old new O s')
      end
  end.

Definition replace (old new s : string) : string := replace_from old new 0 s.

(** [v.replace(old, new)]: among JSON values only a [str] has the method. *)
Definition str_replace (v : pyval) (old new : string) : option string :=
  match v with
  | VStr s => Some (replace old new s)
  | _ => None
  end.

(** [s.endswith(suffix)]: some tail of [s] is [suffix]. *)
Fixpoint endswith (suffix s : string) : bool :=
  String.eqb suffix s ||
  match s with
  | EmptyString => false
  | String _ s' => endswith suffix s'
  end.

(** What an f-string renders for [v]: a [str] as it is, any other value as
    its [repr]. *)
Definition py_str (repr : pyval -> string) (v : pyval) : string :=
  match v with
  | VStr s => s
  | _ => repr v
  end.

(** The characters of a [str], each a [str] of length one. *)
Fixpoint characters (s : string) : list pyval :=
  match s with
  | EmptyString => []
  | String c s' => VStr (String c EmptyString) :: characters s'
  end.

(** [for t in v]: the items of a list, the characters of a [str], the keys
    of a [dict]; the other values are not iterable. *)
Definition iterate (v : pyval) : option (list pyval) :=
  match v with
  | VList l => Some l
  | VStr s => Some (characters s)
  | VDict d => Some (VStr <$> PyDict.keys d)
  | _ => None
  end.

(** The topic every plugin repository carries. *)
Definition marker : string := "ghidrainsight-plugin".

(** [PluginMarketplace._parse_github_repo]; [None] is its answer both when
    it returns [None] and when the handler of line 189 does. *)
Definition _parse_github_repo (repr : pyval -> string) (repo : pyval)
  : option MarketplacePlugin :=
  raw ← get_or repo "name" (VStr EmptyString);
  stripped ← str_replace raw "ghidrainsight-" EmptyString;
  let name := replace "-plugin" EmptyString stripped in
  html_url ← subscript repo "html_url";
  let download_url := py_str repr html_url +:+ "/raw/main/" +:+ name +:+ ".py" in
  topics ← get_or repo "topics" (VList []);
  items ← iterate topics;
  let tags := List.filter (fun t => negb (is_str marker t)) items in
  owner ← get_or repo "owner" (VDict []);
  login ← get_or owner "login" (VStr "unknown");
  description ← get_or repo "description" (VStr EmptyString);
  repository ← get_or repo "html_url" (VStr EmptyString);
  install_count ← get_or repo "stargazers_count" (VInt 0);
  owner' ← get_or repo "owner" (VDict []);
  type ← get_or owner' "type" VNone;
  Some (mkPlugin name "1.0.0" login description repository download_url
          install_count 0 tags (is_str "Organization" type)).

(** The response of [requests.get]: its status and what [response.json()]
    does. *)
Record Response : Type := mkResponse {
  status_code : Z;
  json : outcome pyval
}.

(** [requests.get(url, params=params, timeout=...)]: a response, or an
    exception (no connection, timeout, ...). *)
Definition Http : Type := string -> PyDict.t string -> outcome Response.

(** Sequencing in [outcome]: the first exception ends the computation. *)
#[global] Instance outcome_bind : MBind outcome :=
  fun A B k o =>
    match o with
    | Return a => k a
    | Raise e => Raise e
    end.

(** The exceptions the body of [search] raises by itself; each is an
    [Exception]. Their texts, which are only logged, are left out. *)
Definition http_error : PyExc :=
  mkExc "HTTPError" EmptyString EmptyString true.

Definition attribute_error : PyExc :=
  mkExc "AttributeError" EmptyString EmptyString true.

Definition slice_error : PyExc :=
  mkExc "TypeError" EmptyString EmptyString true.

(** An operation on a value that raises [e] where the value does not
    support it. *)
Definition or_raise {A} (e : PyExc) (o : option A) : outcome A :=
  match o with
  | Some a => Return a
  | None => Raise e
  end.

(** [response.raise_for_status()]: raises on a 4xx or 5xx status. *)
Definition raise_for_status (response : Response) : outcome unit :=
  if (400 <=? status_code response)%Z && (status_code response <? 600)%Z
  then Raise http_error else Return tt.

Record PluginMarketplace : Type := mkMarketplace {
  marketplace_url : string
}.

(** [PluginMarketplace.__init__], as far as the URL goes:
    [marketplace_url or "https://api.github.com/search/repositories"]. *)
Definition __init__ (url : option string) : PluginMarketplace :=
  match url with
  | Some (String c s) => mkMarketplace (String c s)
  | _ => mkMarketplace "https://api.github.com/search/repositories"
  end.

(** The query parameters of [search]. *)
Definition search_params (query : string) : PyDict.t string :=
  [("q", query +:+ " topic:ghidrainsight-plugin");
   ("sort", "stars");
   ("order", "desc")].

(** [for repo in v[:20]]: the first twenty items of a list or characters of
    a [str]; the other values cannot be sliced. *)
Definition top20 (v : pyval) : option (list pyval) :=
  match v with
  | VList l => Some (take 20 l)
  | VStr s => Some (take 20 (characters s))
  | _ => None
  end.

(** [tag in plugin.tags] *)
Definition has_tag (plugin : MarketplacePlugin) (tag : string) : bool :=
  existsb (is_str tag) (tags plugin).

(** [tags and not any(tag in plugin.tags for tag in tags)] *)
Definition filtered_out (tags : option (list string))
    (plugin : MarketplacePlugin) : bool :=
  match tags with
  | Some (tag :: more) => negb (existsb (has_tag plugin) (tag :: more))
  | _ => false
  end.

(** The loop of [search] over the repositories, [plugins] being the list it
    appends to. *)
Fixpoint search_loop (repr : pyval -> string) (tags : option (list string))
    (repos : list pyval) (plugins : list MarketplacePlugin)
  : list MarketplacePlugin :=
  match repos with
  | [] => plugins
  | repo :: rest =>
      match _parse_github_repo repr repo with
      | Some plugin =>
          if filtered_out tags plugin
          then search_loop repr tags rest plugins
          else search_loop repr tags rest (plugins ++ [plugin])
      | None => search_loop repr tags rest plugins
      end
  end.

(** The [try] block of [search]. *)
Definition search_body (http : Http) (repr : pyval -> string)
    (self : PluginMarketplace) (query : string) (tags : option (list string))
  : outcome (list MarketplacePlugin) :=
  response ← http (marketplace_url self) (search_params query);
  _ ← raise_for_status response;
  results ← json response;
  items ← or_raise attribute_error (get_or results "items" (VList []));
  repos ← or_raise slice_error (top20 items);
  Return (search_loop repr tags repos []).

(** [PluginMarketplace.search]: the handler, an [except Exception] clause,
    answers the empty list for an [Exception] of the [try] block and lets
    any other exception pass. *)
Definition search (http : Http) (repr : pyval -> string)
    (self : PluginMarketplace) (query : string) (tags : option (list string))
  : outcome (list MarketplacePlugin) :=
  match search_body http repr self query tags with
  | Return plugins => Return plugins
  | Raise e => if exc_is_exception e then Return [] else Raise e
  end.

(** [l[:n]] for an integer [n]: a negative [n] counts from the end. *)
Definition slice_to {A} (n : Z) (l : list A) : list A :=
  if (0 <=? n)%Z then take (Z.to_nat n) l
  else take (Z.to_nat (Z.of_nat (length l) + n)) l.

(** [PluginMarketplace.get_popular] *)
Definition get_popular (http : Http) (repr : pyval -> string)
    (self : PluginMarketplace) (limit : Z) : outcome (list MarketplacePlugin) :=
  plugins ← search http repr self EmptyString None;
  Return (slice_to limit plugins).

(** [PluginMarketplace.get_by_tag] *)
Definition get_by_tag (http : Http) (repr : pyval -> string)
    (self : PluginMarketplace) (tag : string) : outcome (list MarketplacePlugin) :=
  search http repr self EmptyString (Some [tag]).

(** The plugins [search] keeps of a list of repositories: those that parse
    and pass the tag filter, in order. *)
Definition matching (repr : pyval -> string) (tags : option (list string))
    (repos : list pyval) : list MarketplacePlugin :=
  List.filter (fun plugin => negb (filtered_out tags plugin))
    (omap (_parse_github_repo repr) repos).

(** A [repr] for inputs whose rendered values are all [str]. *)
Definition no_repr (v : pyval) : string := EmptyString.

Definition yara_repo : pyval :=
  VDict [("name", VStr "ghidrainsight-yara-plugin");
         ("html_url", VStr "https://github.com/acme/yara");
         ("topics", VList [VStr "yara"; VStr "ghidrainsight-plugin"]);
         ("owner", VDict [("login", VStr "acme");
                          ("type", VStr "Organization")])].

Definition yara_plugin : MarketplacePlugin :=
  mkPlugin "yara" "1.0.0" (VStr "acme") (VStr EmptyString)
    (VStr "https://github.com/acme/yara")
    "https://github.com/acme/yara/raw/main/yara.py" (VInt 0) 0 [VStr "yara"]
    true.

Definition untagged_repo : pyval :=
  VDict [("name", VStr "entropy"); ("html_url", VStr "https://github.com/b/e")].

(** A request that is interrupted from the keyboard. *)
Definition interrupted : Http :=
  fun _ _ => Raise (mkExc "KeyboardInterrupt" EmptyString EmptyString false).

(** A server that answers every request with three items, the first of
    which is no repository. *)
Definition github : Http :=
  fun _ _ =>
    Return (mkResponse 200
              (Return (VDict [("items",
                 VList [VStr "broken"; yara_repo; untagged_repo])]))).

End Marketplace.

(** * Properties *)

(** ** Substring search *)

Module PyStrFacts.
Import PyStr.

Lemma prefix_app (sub s : string) :
  String.prefix sub s = true <-> exists b, s = sub +:+ b.
Proof.
  revert s. induction sub as [|c sub IH]; intros s; simpl.
  - destruct s; split; eauto.
  - destruct s as [|c' s]; simpl.
    + split; [discriminate | intros [b Hb]; discriminate].
    + destruct (ascii_dec c c') as [->|Hne].
      * rewrite IH. split; intros [b Hb]; exists b.
        -- rewrite Hb. reflexivity.
        -- change (String c' s = String c' (sub +:+ b)) in Hb. congruence.
      * split; [discriminate | intros [b Hb]].
        change (String c' s = String c (sub +:+ b)) in Hb. congruence.
Qed.

Lemma contains_empty (sub : string) :
  contains sub EmptyString = String.prefix sub EmptyString || false.
Proof. reflexivity. Qed.

Lemma contains_String (sub : string) (c : ascii) (s : string) :
  contains sub (String c s) = String.prefix sub (String c s) || contains sub s.
Proof. reflexivity. Qed.

Lemma contains_occurs (sub s : string) :
  contains sub s = true <-> occurs sub s.
Proof.
  unfold occurs. induction s as [|c s IH].
  - rewrite contains_empty, orb_false_r, prefix_app. split.
    + intros [b Hb]. exists EmptyString, b. exact Hb.
    + intros ([|c a] & b & Hab); [eauto | discriminate].
  - rewrite contains_String, orb_true_iff, IH, prefix_app. split.
    + intros [[b Hb] | (a & b & Hab)].
      * exists EmptyString, b. exact Hb.
      * exists (String c a), b. rewrite Hab. reflexivity.
    + intros ([|c' a] & b & Hab).
      * left. eauto.
      * right. exists a, b.
        change (String c s = String c' (a +:+ sub +:+ b)) in Hab. congruence.
Qed.

Lemma contains_not_occurs (sub s : string) :
  contains sub s = false <-> ~ occurs sub s.
Proof.
  rewrite <- contains_occurs. destruct (contains sub s); split; congruence.
Qed.

End PyStrFacts.

(** ** Error classification *)

Module ClassificationFacts.
Import PyStr PyStrFacts ErrorRecovery.

(** The object [_create_error_from_exception] allocates, field by field. *)
Lemma create_error_spec (exception : PyExc) (operation_name : string)
    (args_count : nat) (kwargs : PyDict.t pyval) (w : World) :
  exists err,
    _create_error_from_exception exception operation_name args_count kwargs w
      = (Return (length (heap w)), with_heap (fun h => h ++ [err]) w)
    /\ error_type err = lower (exc_type exception)
    /\ message err = exc_str exception
    /\ disposition err = classify (lower (exc_type exception))
    /\ retry_count err = 0%nat /\ max_retries err = 3%nat.
Proof.
  unfold _create_error_from_exception, disposition.
  destruct (classify (lower (exc_type exception))) as [[sev rec] strat] eqn:Hc.
  eexists. repeat split; reflexivity.
Qed.

Lemma create_error_deref (exception : PyExc) (operation_name : string)
    (args_count : nat) (kwargs : PyDict.t pyval) (w : World) :
  exists r err w',
    _create_error_from_exception exception operation_name args_count kwargs w
      = (Return r, w')
    /\ heap w' !! r = Some err
    /\ error_type err = lower (exc_type exception)
    /\ disposition err = classify (lower (exc_type exception)).
Proof.
  destruct (create_error_spec exception operation_name args_count kwargs w)
    as (err & Hrun & Hty & _ & Hd & _).
  exists (length (heap w)), err, (with_heap (fun h => h ++ [err]) w).
  repeat split; try assumption.
  simpl. rewrite lookup_app_r by lia. rewrite Nat.sub_diag. reflexivity.
Qed.

(** The five rules of the chain, read through [occurs]. *)
Lemma classify_rules (kind : string) :
  (occurs "timeout" kind -> classify kind = (HIGH, true, RETRY))
  /\ (~ occurs "timeout" kind -> occurs "memory" kind ->
      classify kind = (CRITICAL, true, FALLBACK))
  /\ (~ occurs "timeout" kind -> ~ occurs "memory" kind ->
      occurs "network" kind \/ occurs "connection" kind ->
      classify kind = (MEDIUM, true, RETRY))
  /\ (~ occurs "timeout" kind -> ~ occurs "memory" kind ->
      ~ occurs "network" kind -> ~ occurs "connection" kind ->
      occurs "database" kind -> classify kind = (HIGH, true, RETRY))
  /\ (~ occurs "timeout" kind -> ~ occurs "memory" kind ->
      ~ occurs "network" kind -> ~ occurs "connection" kind ->
      ~ occurs "database" kind -> classify kind = (MEDIUM, false, ESCALATE)).
Proof.
  unfold classify.
  repeat split; intros;
    repeat match goal with
    | H : occurs _ _ |- _ => apply contains_occurs in H; rewrite ?H
    | H : ~ occurs _ _ |- _ => apply contains_not_occurs in H; rewrite ?H
    | H : _ \/ _ |- _ => destruct H
    end; simpl; rewrite ?orb_true_r; reflexivity.
Qed.

(** C3. The error created for a raised exception carries the lower-cased
    class name as its kind, and its severity, recoverability and strategy
    follow the priority list on that name: "timeout" gives high, recoverable,
    retry; failing that "memory" gives critical, recoverable, fallback;
    failing that "network" or "connection" gives medium, recoverable, retry;
    failing that "database" gives high, recoverable, retry; otherwise medium,
    not recoverable, escalate. Nothing but the lower-cased name matters: any
    other exception, operation, arguments and world with the same lower-cased
    name give the same three values. *)
Theorem classification_priority (exception : PyExc) (operation_name : string)
    (args_count : nat) (kwargs : PyDict.t pyval) (w : World) :
  let kind := lower (exc_type exception) in
  exists r err w',
    _create_error_from_exception exception operation_name args_count kwargs w
      = (Return r, w')
    /\ heap w' !! r = Some err
    /\ error_type err = kind
    /\ (occurs "timeout" kind -> disposition err = (HIGH, true, RETRY))
    /\ (~ occurs "timeout" kind -> occurs "memory" kind ->
        disposition err = (CRITICAL, true, FALLBACK))
    /\ (~ occurs "timeout" kind -> ~ occurs "memory" kind ->
        occurs "network" kind \/ occurs "connection" kind ->
        disposition err = (MEDIUM, true, RETRY))
    /\ (~ occurs "timeout" kind -> ~ occurs "memory" kind ->
        ~ occurs "network" kind -> ~ occurs "connection" kind ->
        occurs "database" kind -> disposition err = (HIGH, true, RETRY))
    /\ (~ occurs "timeout" kind -> ~ occurs "memory" kind ->
        ~ occurs "network" kind -> ~ occurs "connection" kind ->
        ~ occurs "database" kind -> disposition err = (MEDIUM, false, ESCALATE))
    /\ (forall exception2 operation_name2 args_count2 kwargs2 w2 r2 err2 w2',
          lower (exc_type exception2) = kind ->
          _create_error_from_exception exception2 operation_name2 args_count2
            kwargs2 w2 = (Return r2, w2') ->
          heap w2' !! r2 = Some err2 ->
          disposition err2 = disposition err).
Proof.
  intros kind.
  destruct (create_error_deref exception operation_name args_count kwargs w)
    as (r & err & w' & Hrun & Hr & Hty & Hd).
  fold kind in Hty, Hd.
  destruct (classify_rules kind) as (R1 & R2 & R3 & R4 & R5).
  exists r, err, w'. rewrite Hd.
  repeat split; try assumption.
  intros e2 n2 a2 k2 w2 r2 err2 w2' Hk Hrun2 Hr2.
  destruct (create_error_deref e2 n2 a2 k2 w2)
    as (r3 & err3 & w3 & Hrun3 & Hr3 & _ & Hd3).
  rewrite Hrun2 in Hrun3. injection Hrun3 as -> ->.
  rewrite Hr2 in Hr3. injection Hr3 as ->.
  rewrite Hd3, Hk. reflexivity.
Qed.

(** A class name that matches two rules takes the earlier one. *)
Example classify_memory_timeout :
  classify (lower "MemoryTimeoutError") = (HIGH, true, RETRY)
  /\ classify (lower "ConnectionMemoryError") = (CRITICAL, true, FALLBACK)
  /\ classify (lower "DatabaseConnectionError") = (MEDIUM, true, RETRY)
  /\ classify (lower "DatabaseError") = (HIGH, true, RETRY)
  /\ classify (lower "ValueError") = (MEDIUM, false, ESCALATE).
Proof. repeat split; reflexivity. Qed.

Lemma classification_priority_witness :
  exists err,
    ErrorRecovery.error_type err = "connectiontimeouterror"
    /\ disposition err = (HIGH, true, RETRY).
Proof.
  destruct (classification_priority
              (mkExc "ConnectionTimeoutError" "timed out" EmptyString true)
              "analyze" 1 [] (fresh_world (fun _ => 0%Q) 0%Q))
    as (r & err & w' & _ & _ & Hty & Htimeout & _).
  exists err. split.
  - exact Hty.
  - apply Htimeout. apply contains_occurs. reflexivity.
Defined.

End ClassificationFacts.

(** ** The recovery manager *)

Module RecoveryFacts.
Import Eff PyStr PyStrFacts ErrorRecovery ClassificationFacts.
#[local] Open Scope eff_scope.

(** The strategy table is keyed by error kind: no key is the value of a
    [RecoveryStrategy]. *)
Lemma default_table_lookup (s : RecoveryStrategy) :
  recovery_strategies __init__ !! strategy_value s = None.
Proof. destruct s; reflexivity. Qed.

Lemma default_table_keys :
  recovery_strategies __init__ !! "timeout" = Some retry_with_backoff
  /\ recovery_strategies __init__ !! "memory" = Some reduce_complexity_fallback
  /\ recovery_strategies __init__ !! "network" = Some retry_with_exponential_backoff
  /\ recovery_strategies __init__ !! "analysis" = Some fallback_to_simpler_analysis
  /\ recovery_strategies __init__ !! "database" = Some retry_with_jitter.
Proof. repeat split; reflexivity. Qed.

(** With the table of [__init__], recovery is abandoned before any strategy
    runs: the world is left as it was. *)
Lemma attempt_recovery_default (error : nat) (operation : Operation)
    (kwargs : PyDict.t pyval) (w : World) :
  recovery_strategies (self_ w) = recovery_strategies __init__ ->
  _attempt_recovery error operation kwargs w = (Return VNone, w).
Proof.
  intros Htable. unfold _attempt_recovery, bind, deref, gets. simpl.
  destruct (recoverable (heap w !!! error)); simpl; [|reflexivity].
  rewrite Htable, default_table_lookup. reflexivity.
Qed.

(** [_log_error] touches the history alone. *)
Lemma log_error_run (error : nat) (w : World) :
  _log_error error w =
    (Return tt,
     mkWorld
       (mkManager (error_handlers (self_ w)) (recovery_strategies (self_ w))
          (let history := error_history (self_ w) ++ [error] in
           if (max_history_size (self_ w) <? length history)%nat
           then drop 1 history else history)
          (max_history_size (self_ w)))
       (heap w) (calls w) (slept w) (random_ w) (draws w) (now w)).
Proof. reflexivity. Qed.

(** A first invocation that fails with an [Exception], on a manager that
    has the table of [__init__]: the original exception comes back, the
    operation was invoked that one time only, nothing slept, and the error
    that was recorded still has its retry count at 0 out of 3. *)
Lemma execute_default_reraises (operation : Operation) (operation_name : string)
    (args_count : nat) (kwargs : PyDict.t pyval) (w : World) (e : PyExc) :
  recovery_strategies (self_ w) = recovery_strategies __init__ ->
  operation (calls w) kwargs = Raise e ->
  exc_is_exception e = true ->
  exists w' err,
    execute_with_recovery operation operation_name args_count kwargs w
      = (Raise e, w')
    /\ calls w' = S (calls w)
    /\ slept w' = slept w
    /\ heap w' = heap w ++ [err]
    /\ error_type err = lower (exc_type e)
    /\ retry_count err = 0%nat /\ max_retries err = 3%nat.
Proof.
  intros Htable Hfail Hclass.
  destruct (create_error_spec e operation_name args_count kwargs
              (mkWorld (self_ w) (heap w) (S (calls w)) (slept w) (random_ w)
                 (draws w) (now w)))
    as (err & Hcreate & Hty & _ & _ & Hrc & Hmr).
  unfold execute_with_recovery, try_except, call. rewrite Hfail, Hclass.
  unfold bind at 1. rewrite Hcreate. cbn [with_heap heap self_ calls slept random_ draws now].
  unfold bind at 1. rewrite log_error_run. cbn [with_heap heap self_ calls slept random_ draws now].
  unfold bind at 1. rewrite attempt_recovery_default by exact Htable.
  cbn [is_none raise].
  eexists _, err. split; [reflexivity|]. repeat split; assumption.
Qed.

(** *** The retry loop *)

Section RetryLoop.
Variable delay_for : nat -> M World Q.
Variable d : nat -> Q.
Variable error : nat.
Variable operation : Operation.
Variable kwargs : PyDict.t pyval.

(** When every invocation fails with an [Exception], the loop sleeps before
    each attempt, invokes the operation once per attempt, counts each failure
    on the error object, and falls through to [None]. *)
Lemma retry_loop_exhausts (attempts : list nat) (w : World) :
  (forall n w0, n ∈ attempts -> delay_for n w0 = (Return (d n), w0)) ->
  (forall k, (calls w <= k)%nat ->
     exists e, operation k kwargs = Raise e /\ exc_is_exception e = true) ->
  retry_loop delay_for error operation kwargs attempts w
    = (Return VNone, after_failures error (length attempts) (d <$> attempts) w).
Proof.
  revert w. induction attempts as [|attempt rest IH]; intros w Hdelay Hfail.
  - unfold after_failures. simpl. rewrite Nat.add_0_r, app_nil_r.
    destruct w; reflexivity.
  - destruct (Hfail (calls w)) as (e & He & Hclass); [lia|].
    cbn [retry_loop]. unfold bind at 1.
    rewrite Hdelay by apply list_elem_of_here.
    unfold bind at 1, sleep, modify.
    unfold bind at 1, try_except, bind at 1, call.
    cbn [calls]. rewrite He, Hclass.
    unfold bind at 1, modify. cbn [ret].
    rewrite IH.
    + unfold after_failures, with_heap. cbn [self_ heap calls slept random_ draws now length].
      rewrite <- Nat.iter_succ_r, fmap_cons, <- app_assoc.
      do 2 f_equal. lia.
    + intros n w0 Hn. apply Hdelay. apply list_elem_of_further, Hn.
    + intros k Hk. apply Hfail. cbn [with_heap calls] in Hk. lia.
Qed.

(** When the first re-invocation returns, the loop returns its value after
    one sleep. *)
Lemma retry_loop_succeeds (attempt : nat) (rest : list nat) (w : World)
    (v : pyval) :
  delay_for attempt w = (Return (d attempt), w) ->
  operation (calls w) kwargs = Return v ->
  retry_loop delay_for error operation kwargs (attempt :: rest) w
    = (Return v,
       mkWorld (self_ w) (heap w) (S (calls w)) (slept w ++ [d attempt])
         (random_ w) (draws w) (now w)).
Proof.
  intros Hdelay Hok.
  cbn [retry_loop]. unfold bind at 1. rewrite Hdelay.
  unfold bind at 1, sleep, modify.
  unfold bind at 1, try_except, bind at 1, call.
  cbn [calls]. rewrite Hok. reflexivity.
Qed.

End RetryLoop.

Lemma iter_alter_lookup {A} (f : A -> A) (i n : nat) (l : list A) (x : A) :
  l !! i = Some x ->
  Nat.iter n (alter f i) l !! i = Some (Nat.iter n f x).
Proof.
  intros Hx. induction n as [|n IH]; simpl; [exact Hx|].
  rewrite list_lookup_alter, IH. case_decide; [reflexivity | congruence].
Qed.

Lemma iter_increment_retry (n : nat) (e : AnalysisError) :
  retry_count (Nat.iter n increment_retry e) = (retry_count e + n)%nat
  /\ max_retries (Nat.iter n increment_retry e) = max_retries e.
Proof.
  induction n as [|n [IHc IHm]]; simpl; [lia|]. rewrite IHc, IHm. lia.
Qed.

(** *** Retry with backoff *)

Lemma Qmult_1_inject (z : Z) : (1 * inject_Z z)%Q = inject_Z z.
Proof. unfold Qmult, inject_Z. simpl. destruct z; reflexivity. Qed.

Lemma backoff_delay_run (attempt : nat) (w : World) :
  (attempt < 1024)%nat ->
  backoff_delay attempt w = (Return (backoff_seconds attempt), w).
Proof.
  intros Hlt. unfold backoff_delay, capped_backoff, backoff_seconds.
  apply Nat.ltb_lt in Hlt. rewrite Hlt, Qmult_1_inject. reflexivity.
Qed.

Lemma backoff_delay_overflow (attempt : nat) (w : World) :
  (1024 <= attempt)%nat ->
  backoff_delay attempt w = (Raise overflow_error, w).
Proof.
  intros Hge. unfold backoff_delay, capped_backoff.
  apply Nat.ltb_ge in Hge. rewrite Hge. reflexivity.
Qed.

Lemma backoff_seconds_small (attempt : nat) :
  (attempt <= 4)%nat -> backoff_seconds attempt = inject_Z (2 ^ Z.of_nat attempt).
Proof.
  intros Hle.
  assert (Hcases : (attempt = 0 \/ attempt = 1 \/ attempt = 2 \/ attempt = 3
                    \/ attempt = 4)%nat) by lia.
  destruct Hcases as [->|[->|[->|[->| ->]]]]; reflexivity.
Qed.

Lemma backoff_seconds_capped (attempt : nat) :
  (5 <= attempt)%nat -> backoff_seconds attempt = 30%Q.
Proof.
  intros Hge. unfold backoff_seconds, Qmin, GenericMinMax.gmin.
  assert (Hpow : (2 ^ 5 <= 2 ^ Z.of_nat attempt)%Z)
    by (apply Z.pow_le_mono_r; lia).
  change (2 ^ 5)%Z with 32%Z in Hpow.
  assert (Hgt : (inject_Z (2 ^ Z.of_nat attempt) ?= 30)%Q = Gt).
  { rewrite <- Qgt_alt. unfold Qlt, inject_Z. simpl. lia. }
  rewrite Hgt. reflexivity.
Qed.

(** [_retry_with_backoff] on an operation that keeps failing with an
    [Exception]: it re-invokes the operation once for each attempt in
    [range(retry_count, max_retries)], sleeping the backoff delay before
    each, leaves the retry count at [max_retries] and returns [None]. *)
Lemma retry_with_backoff_exhausts (error : nat) (err : AnalysisError)
    (operation : Operation) (kwargs : PyDict.t pyval) (w : World) :
  heap w !! error = Some err ->
  should_retry err = true ->
  (max_retries err <= 1024)%nat ->
  (forall k, (calls w <= k)%nat ->
     exists e, operation k kwargs = Raise e /\ exc_is_exception e = true) ->
  exists w' err',
    _retry_with_backoff error operation kwargs w = (Return VNone, w')
    /\ calls w' = (calls w + (max_retries err - retry_count err))%nat
    /\ slept w' = slept w
         ++ (backoff_seconds <$> range (retry_count err) (max_retries err))
    /\ heap w' !! error = Some err'
    /\ retry_count err' = max_retries err
    /\ self_ w' = self_ w.
Proof.
  intros Hheap Hretry Hmax Hfail.
  unfold _retry_with_backoff, retry_strategy, bind at 1, deref, gets.
  rewrite (list_lookup_total_correct _ _ _ Hheap), Hretry. cbn [negb].
  assert (Hlt : (retry_count err < max_retries err)%nat).
  { unfold should_retry in Hretry.
    apply andb_true_iff in Hretry as [_ Hlt]. apply Nat.ltb_lt, Hlt. }
  rewrite (retry_loop_exhausts backoff_delay backoff_seconds).
  - eexists _, _. split; [reflexivity|].
    unfold after_failures, range.
    cbn [self_ heap calls slept random_ draws now]. rewrite length_seq.
    split; [reflexivity|]. split; [reflexivity|].
    split; [apply iter_alter_lookup, Hheap|].
    split; [|reflexivity].
    destruct (iter_increment_retry (max_retries err - retry_count err) err)
      as [-> _]. lia.
  - intros n w0 Hn. apply backoff_delay_run.
    unfold range in Hn. apply elem_of_seq in Hn. lia.
  - exact Hfail.
Qed.

(** C8. In [_retry_with_backoff] the delay before attempt [n] is
    [min(1.0 * 2^n, 30.0)]: it is [2^n] up to attempt 4, so the delays of
    attempts 0 to 4 are 1, 2, 4, 8, 16, and it is capped at 30 from attempt 5
    on. These are the delays the loop sleeps: an operation that keeps failing
    (with exceptions the loop's [except Exception] catches) under an error
    with five retries left makes it sleep exactly those five. *)
Theorem backoff_delay_schedule (w : World) :
  (forall attempt, (attempt < 1024)%nat ->
     backoff_delay attempt w
       = (Return (Qmin (1 * inject_Z (2 ^ Z.of_nat attempt)) 30), w))
  /\ (forall attempt, (attempt <= 4)%nat ->
        backoff_delay attempt w = (Return (inject_Z (2 ^ Z.of_nat attempt)), w))
  /\ (fun attempt => fst (backoff_delay attempt w)) <$> [0; 1; 2; 3; 4]%nat
       = Return <$> [1; 2; 4; 8; 16]%Q
  /\ fst (backoff_delay 5 w) = Return 30%Q
  /\ (forall error err operation kwargs,
        heap w !! error = Some err ->
        should_retry err = true ->
        retry_count err = 0%nat -> max_retries err = 5%nat ->
        (forall k, (calls w <= k)%nat ->
           exists e, operation k kwargs = Raise e /\ exc_is_exception e = true) ->
        slept (snd (_retry_with_backoff error operation kwargs w))
          = slept w ++ [1; 2; 4; 8; 16]%Q).
Proof.
  split; [|split; [|split; [|split]]].
  - intros attempt Hlt. rewrite backoff_delay_run by exact Hlt.
    unfold backoff_seconds. rewrite Qmult_1_inject. reflexivity.
  - intros attempt Hle. rewrite backoff_delay_run by lia.
    rewrite backoff_seconds_small by exact Hle. reflexivity.
  - reflexivity.
  - reflexivity.
  - intros error err operation kwargs Hheap Hretry Hrc Hmr Hfail.
    destruct (retry_with_backoff_exhausts error err operation kwargs w)
      as (w' & err' & Hrun & _ & Hslept & _); try assumption; [lia|].
    rewrite Hrun. cbn [snd]. rewrite Hslept, Hrc, Hmr. reflexivity.
Qed.

Lemma backoff_delay_schedule_witness :
  backoff_delay 3 (fresh_world (fun _ => 0%Q) 0%Q)
    = (Return 8%Q, fresh_world (fun _ => 0%Q) 0%Q).
Proof.
  destruct (backoff_delay_schedule (fresh_world (fun _ => 0%Q) 0%Q))
    as (_ & Hsmall & _).
  apply (Hsmall 3%nat). lia.
Defined.

(** *** Recovery on a newly built manager *)

(** C1. [fails_once] raises a retry-classified failure on its first
    invocation and would return 42 on the next one, yet
    [execute_with_recovery] on a newly built manager raises the
    [TimeoutError] to the caller: the strategy table has no entry under
    "retry", the operation is not invoked a second time, and nothing sleeps. *)
Theorem fails_once_is_not_recovered (random : nat -> Q) (time : Q) :
  classify (lower (exc_type timeout_exc)) = (HIGH, true, RETRY)
  /\ fails_once 1 [] = Return (VInt 42)
  /\ recovery_strategies __init__ !! strategy_value RETRY = None
  /\ exists w',
       execute_with_recovery fails_once "analyze" 0 [] (fresh_world random time)
         = (Raise timeout_exc, w')
       /\ calls w' = 1%nat /\ slept w' = [].
Proof.
  split; [reflexivity|]. split; [reflexivity|]. split; [reflexivity|].
  destruct (execute_default_reraises fails_once "analyze" 0 []
              (fresh_world random time) timeout_exc)
    as (w' & err & Hrun & Hcalls & Hslept & _); [reflexivity..|].
  exists w'. repeat split; assumption.
Qed.

(** Once the table has a "retry" entry the same call returns 42 after one
    sleep of one second: the retry code is there, and is never reached. *)
Example fails_once_recovers_when_keyed (random : nat -> Q) (time : Q) :
  let w := mkWorld keyed_by_strategy [] 0 [] random 0 time in
  let '(result, w') := execute_with_recovery fails_once "analyze" 0 [] w in
  result = Return (VInt 42) /\ calls w' = 2%nat /\ slept w' = [1%Q].
Proof. vm_compute. repeat split; reflexivity. Qed.

(** C2. [always_times_out] fails on every invocation with a retry-classified
    failure. [execute_with_recovery] on a newly built manager raises the
    original [TimeoutError], but after a single invocation: the operation is
    re-invoked 0 times, not [max_retries] = 3 times, and the retry count of
    the recorded error stays at 0 although the error still asks for a retry. *)
Theorem always_failing_is_not_retried (random : nat -> Q) (time : Q) :
  exists w' err,
    execute_with_recovery always_times_out "analyze" 0 []
      (fresh_world random time) = (Raise timeout_exc, w')
    /\ calls w' = 1%nat
    /\ slept w' = []
    /\ heap w' = [err]
    /\ recovery_strategy err = RETRY
    /\ retry_count err = 0%nat /\ max_retries err = 3%nat
    /\ should_retry err = true.
Proof.
  eexists _, _. split; [reflexivity|]. repeat split; reflexivity.
Qed.

(** Once the table has a "retry" entry the same call makes three more
    invocations, sleeps 1, 2 and 4 seconds, counts three failed retries and
    raises the original failure. *)
Example always_failing_retried_when_keyed (random : nat -> Q) (time : Q) :
  let w := mkWorld keyed_by_strategy [] 0 [] random 0 time in
  let '(result, w') := execute_with_recovery always_times_out "analyze" 0 [] w in
  result = Raise timeout_exc /\ calls w' = 4%nat /\ slept w' = [1; 2; 4]%Q
  /\ retry_count <$> heap w' = [3%nat].
Proof. vm_compute. repeat split; reflexivity. Qed.

(** *** A recovery result of [None] *)






(** What [execute_with_recovery] does once the first invocation has raised
    an [Exception]. *)
Lemma execute_on_failure (operation : Operation) (operation_name : string)
    (args_count : nat) (kwargs : PyDict.t pyval) (w : World) (e : PyExc) :
  operation (calls w) kwargs = Raise e ->
  exc_is_exception e = true ->
  exists err,
    disposition err = classify (lower (exc_type e))
    /\ execute_with_recovery operation operation_name args_count kwargs w
       = (let* recovery_result :=
            _attempt_recovery (length (heap w)) operation kwargs in
          if is_none recovery_result then raise e else ret recovery_result)
           (after_logging w err).
Proof.
  intros Hfail Hclass.
  destruct (create_error_spec e operation_name args_count kwargs
              (mkWorld (self_ w) (heap w) (S (calls w)) (slept w) (random_ w)
                 (draws w) (now w))) as (err & Hcreate & _ & _ & Hd & _).
  exists err. split; [exact Hd|].
  unfold execute_with_recovery, try_except, call. rewrite Hfail, Hclass.
  unfold bind at 1. rewrite Hcreate.
  cbn [with_heap heap self_ calls slept random_ draws now].
  unfold bind at 1. rewrite log_error_run. reflexivity.
Qed.

(** An exception of the first invocation that is not an [Exception] is not
    handled at all: it reaches the caller, and no error is made or logged. *)
Lemma execute_passes_base_exception (operation : Operation)
    (operation_name : string) (args_count : nat) (kwargs : PyDict.t pyval)
    (w : World) (e : PyExc) :
  operation (calls w) kwargs = Raise e ->
  exc_is_exception e = false ->
  execute_with_recovery operation operation_name args_count kwargs w
    = (Raise e,
       mkWorld (self_ w) (heap w) (S (calls w)) (slept w) (random_ w)
         (draws w) (now w)).
Proof.
  intros Hfail Hclass.
  unfold execute_with_recovery, try_except, call. rewrite Hfail, Hclass.
  reflexivity.
Qed.





(** *** The error history *)

Lemma log_error_history (error : nat) (w : World) :
  history (snd (_log_error error w))
    = (if (bound w <? length (history w ++ [error]))%nat
       then drop 1 (history w ++ [error]) else history w ++ [error])
  /\ bound (snd (_log_error error w)) = bound w.
Proof. rewrite log_error_run. split; reflexivity. Qed.

(** One append keeps the history within its bound. *)
Lemma log_error_bounded (error : nat) (w : World) :
  (length (history w) <= bound w)%nat ->
  (length (history (snd (_log_error error w))) <= bound w)%nat.
Proof.
  intros Hle. destruct (log_error_history error w) as [-> _].
  destruct (bound w <? length (history w ++ [error]))%nat eqn:Hcmp.
  - rewrite length_drop, length_app. simpl. lia.
  - apply Nat.ltb_ge in Hcmp. exact Hcmp.
Qed.

(** After any sequence of appends the history is the newest [bound] entries
    of everything that was ever in it, in order. *)
Lemma log_all_history (errors : list nat) (w : World) :
  (length (history w) <= bound w)%nat ->
  history (snd (log_all errors w))
    = drop (length (history w ++ errors) - bound w) (history w ++ errors)
  /\ bound (snd (log_all errors w)) = bound w.
Proof.
  revert w. induction errors as [|error rest IH]; intros w Hle.
  - simpl. rewrite app_nil_r.
    replace (length (history w) - bound w)%nat with 0%nat by lia.
    split; reflexivity.
  - cbn [log_all]. unfold bind.
    pose proof (log_error_bounded error w Hle) as Hle1.
    destruct (log_error_history error w) as [Hh1 Hb1].
    rewrite log_error_run in *. cbn [snd] in *.
    set (w1 := mkWorld _ _ _ _ _ _ _) in *.
    rewrite <- Hb1 in Hle1.
    destruct (IH w1 Hle1) as [-> ->]. split; [|exact Hb1].
    rewrite Hb1, Hh1.
    destruct (bound w <? length (history w ++ [error]))%nat eqn:Hcmp.
    + apply Nat.ltb_lt in Hcmp. rewrite length_app in Hcmp. simpl in Hcmp.
      rewrite <- (drop_app_le _ rest 1) by (rewrite length_app; simpl; lia).
      rewrite <- app_assoc. simpl.
      rewrite drop_drop. f_equal.
      rewrite length_drop, !length_app. simpl. lia.
    + rewrite <- app_assoc. reflexivity.
Qed.

(** C9. On a manager with the bound of 1000 entries that [__init__] sets, the
    history never grows past 1000 entries whatever errors are appended; it
    holds the newest entries in the order of their arrival, the oldest ones
    having been dropped first; and after 1001 distinct errors were appended
    to an empty history the first one is gone and the last one is there. *)
Theorem history_bounded_fifo (errors : list nat) (w : World) :
  bound w = 1000%nat ->
  (length (history w) <= 1000)%nat ->
  let w' := snd (log_all errors w) in
  (length (history w') <= 1000)%nat
  /\ history w' = drop (length (history w ++ errors) - 1000) (history w ++ errors)
  /\ (history w = [] -> length errors = 1001%nat -> NoDup errors ->
      forall oldest newest,
        head errors = Some oldest -> last errors = Some newest ->
        (oldest ∉ history w') /\ (newest ∈ history w')).
Proof.
  intros Hbound Hle w'. subst w'.
  destruct (log_all_history errors w) as [Hh _]; [lia|].
  rewrite Hbound in Hh. rewrite Hh.
  split; [|split; [reflexivity|]].
  - rewrite length_drop. lia.
  - intros Hempty Hlen Hnodup oldest newest Hhead Hlast.
    rewrite Hempty. cbn [app]. rewrite Hlen.
    change (1001 - 1000)%nat with 1%nat.
    destruct errors as [|first rest]; [discriminate|].
    injection Hhead as ->. cbn [drop].
    apply NoDup_cons in Hnodup as [Hnotin _].
    split; [exact Hnotin|].
    destruct rest as [|second rest]; [discriminate|].
    rewrite last_cons_cons in Hlast.
    apply last_Some_elem_of, Hlast.
Qed.

Lemma history_bounded_fifo_witness :
  let w' := snd (log_all (seq 0 1001) (fresh_world (fun _ => 0%Q) 0%Q)) in
  (length (history w') <= 1000)%nat
  /\ (0%nat ∉ history w') /\ (1000%nat ∈ history w').
Proof.
  destruct (history_bounded_fifo (seq 0 1001) (fresh_world (fun _ => 0%Q) 0%Q))
    as (Hlen & _ & Hfifo).
  - reflexivity.
  - apply Nat.le_0_l.
  - split; [exact Hlen|].
    apply Hfifo.
    + reflexivity.
    + apply length_seq.
    + apply NoDup_seq.
    + reflexivity.
    + change (last (seq 0 1000 ++ [1000%nat]) = Some 1000%nat).
      apply last_snoc.
Defined.

End RecoveryFacts.

(** ** Dictionaries *)

Module PyDictFacts.
Import PyDict.

Lemma get_set_eq {V} (k : string) (v : V) (d : PyDict.t V) :
  get k (set k v d) = Some v.
Proof.
  induction d as [|[k' v'] d IH]; simpl.
  - rewrite String.eqb_refl. reflexivity.
  - destruct (String.eqb k k') eqn:Hk; simpl; rewrite Hk; [reflexivity | exact IH].
Qed.

Lemma get_set_ne {V} (k k2 : string) (v : V) (d : PyDict.t V) :
  k <> k2 -> get k2 (set k v d) = get k2 d.
Proof.
  intros Hne.
  assert (Hk2 : String.eqb k2 k = false) by (apply String.eqb_neq; congruence).
  induction d as [|[k' v'] d IH]; simpl.
  - rewrite Hk2. reflexivity.
  - destruct (String.eqb k k') eqn:Hk; simpl.
    + apply String.eqb_eq in Hk. subst k'. rewrite Hk2. reflexivity.
    + rewrite IH. reflexivity.
Qed.

End PyDictFacts.

(** ** Regions *)

Module MultiRegionFacts.
Import Eff PyDictFacts MultiRegion.
#[local] Open Scope eff_scope.

(** *** Primary region *)

Lemma replication_flag_is_not_read :
  ~ primary_when_replication_disabled secondary_without_replication.
Proof.
  unfold primary_when_replication_disabled. intros [_ Hback].
  discriminate Hback. left. reflexivity.
Qed.

(** C5, amended. [is_current_region_primary] is true exactly when
    multi-region support (the [enabled] flag of the region configuration) is
    off, or no primary region is configured, or the current region is the
    configured primary region. The replication flag plays no part. *)
Theorem current_region_primary_iff (self : Manager) :
  is_current_region_primary self = true <->
  (enabled (region_config self) = false
   \/ primary_region (region_config self) = None
   \/ primary_region (region_config self)
        = Some (current_region (region_config self))).
Proof.
  unfold is_current_region_primary.
  destruct (enabled (region_config self)); simpl; [|tauto].
  destruct (primary_region (region_config self)) as [primary|]; [|tauto].
  rewrite String.eqb_eq. split.
  - intros ->. right. right. reflexivity.
  - intros [H|[H|[= ->]]]; [discriminate.. | reflexivity].
Qed.

(** *** Choosing the best region *)

Section MinBy.
Context {A : Type} (key : A -> Q).

Lemma min_by_snoc (best : A) (l : list A) (y : A) :
  min_by key best (l ++ [y])
    = match (key y ?= key (min_by key best l))%Q with
      | Lt => y
      | _ => min_by key best l
      end.
Proof.
  revert best. induction l as [|x l IH]; intros best; simpl; [reflexivity|].
  apply IH.
Qed.

(** [min] returns an item of the sequence whose key is strictly below the
    keys of the items before it and at most the keys of the items after it:
    the first of the items with the least key. *)
Lemma min_by_first_least (x : A) (l : list A) :
  exists before after,
    x :: l = before ++ min_by key x l :: after
    /\ Forall (fun y => (key (min_by key x l) < key y)%Q) before
    /\ Forall (fun y => (key (min_by key x l) <= key y)%Q) after.
Proof.
  induction l as [|y l IH] using rev_ind.
  - exists [], []. repeat split; constructor.
  - destruct IH as (before & after & Hsplit & Hbefore & Hafter).
    rewrite min_by_snoc.
    destruct (key y ?= key (min_by key x l))%Q eqn:Hcmp.
    + exists before, (after ++ [y]). split; [|split].
      * rewrite app_comm_cons, Hsplit, <- app_assoc. reflexivity.
      * exact Hbefore.
      * apply Forall_app. split; [exact Hafter|].
        constructor; [|constructor].
        apply Qeq_alt in Hcmp. rewrite Hcmp. apply Qle_refl.
    + apply Qlt_alt in Hcmp.
      exists (x :: l), []. split; [|split].
      * rewrite app_comm_cons. reflexivity.
      * rewrite Hsplit. apply Forall_app. split; [|constructor].
        -- eapply Forall_impl; [exact Hbefore|].
           intros z Hz. simpl in Hz. eapply Qlt_trans; eassumption.
        -- exact Hcmp.
        -- eapply Forall_impl; [exact Hafter|].
           intros z Hz. simpl in Hz. eapply Qlt_le_trans; eassumption.
      * constructor.
    + apply Qgt_alt in Hcmp.
      exists before, (after ++ [y]). split; [|split].
      * rewrite app_comm_cons, Hsplit, <- app_assoc. reflexivity.
      * exact Hbefore.
      * apply Forall_app. split; [exact Hafter|].
        constructor; [|constructor]. apply Qlt_le_weak, Hcmp.
Qed.

End MinBy.

(** Splitting the collected pairs splits the dictionary they come from. *)
Lemma omap_cons_eq {X Y} (f : X -> option Y) (x : X) (l : list X) :
  omap f (x :: l)
    = match f x with Some y => y :: omap f l | None => omap f l end.
Proof. reflexivity. Qed.

Lemma omap_split {X Y} (f : X -> option Y) (l : list X) (before : list Y)
    (y : Y) (after : list Y) :
  omap f l = before ++ y :: after ->
  exists l1 x l2,
    l = l1 ++ x :: l2 /\ omap f l1 = before /\ f x = Some y /\ omap f l2 = after.
Proof.
  revert before. induction l as [|x l IH]; intros before Hsplit.
  - destruct before; discriminate.
  - rewrite omap_cons_eq in Hsplit. destruct (f x) as [y'|] eqn:Hfx.
    + destruct before as [|b before]; simpl in Hsplit.
      * injection Hsplit as -> Hrest.
        exists [], x, l. repeat split; assumption.
      * injection Hsplit as -> Hrest.
        destruct (IH before Hrest) as (l1 & x' & l2 & -> & H1 & Hx & H2).
        exists (x :: l1), x', l2. rewrite omap_cons_eq, Hfx, H1.
        repeat split; assumption.
    + destruct (IH before Hsplit) as (l1 & x' & l2 & -> & H1 & Hx & H2).
      exists (x :: l1), x', l2. rewrite omap_cons_eq, Hfx.
      repeat split; assumption.
Qed.

Lemma omap_healthy_Forall (P : Q -> Prop) (l : PyDict.t RegionStatus) :
  Forall (fun p => P (snd p)) (omap healthy_pair l) ->
  Forall (fun item => healthy (snd item) = true -> P (latency_ms (snd item))) l.
Proof.
  induction l as [|[region status] l IH]; simpl; intros Hall; [constructor|].
  destruct (healthy status) eqn:Hh; simpl in Hall.
  - apply Forall_cons in Hall as [Hhd Htl]. constructor; [|apply IH, Htl].
    intros _. exact Hhd.
  - constructor; [|apply IH, Hall]. simpl. rewrite Hh. discriminate.
Qed.

Lemma omap_healthy_nil (l : PyDict.t RegionStatus) :
  omap healthy_pair l = [] <-> Forall (fun item => healthy (snd item) = false) l.
Proof.
  induction l as [|[region status] l IH]; simpl.
  - split; [constructor | reflexivity].
  - destruct (healthy status) eqn:Hh; simpl.
    + split; [discriminate | intros Hall].
      apply Forall_cons in Hall as [Hhd _]. simpl in Hhd. congruence.
    + rewrite IH. split; [intros; constructor; assumption|].
      intros Hall. apply Forall_cons in Hall as [_ Htl]. exact Htl.
Qed.

Lemma init_regions_when_enabled (config : RegionConfig) :
  regions_when_enabled (__init__ config).
Proof.
  unfold regions_when_enabled, __init__, _initialize_regions. simpl.
  destruct (enabled config) eqn:He; simpl; intros Hoff;
    [congruence | reflexivity].
Qed.

Lemma initialize_regions_when_enabled (self : Manager) :
  regions_when_enabled self -> regions_when_enabled (initialize self).
Proof.
  unfold regions_when_enabled, initialize.
  destruct (enabled (region_config self)) eqn:He; simpl; [|tauto].
  rewrite He. intros _ Hoff. discriminate Hoff.
Qed.

(** C6. Among the regions whose status is healthy, [get_best_region] returns
    one of least latency, and the first such in the iteration order of the
    region map: every healthy region before it has a strictly larger latency
    and every healthy region after it has a latency at least as large. When
    no region is healthy it returns the configured current region. Either way
    it returns a region id. *)
Theorem best_region_first_least (self : Manager) :
  regions_when_enabled self ->
  (Forall (fun item => healthy (snd item) = false) (regions self) ->
   get_best_region self = current_region (region_config self))
  /\ (Exists (fun item => healthy (snd item) = true) (regions self) ->
      exists before status after,
        regions self = before ++ (get_best_region self, status) :: after
        /\ healthy status = true
        /\ Forall (fun item => healthy (snd item) = true ->
                     (latency_ms status < latency_ms (snd item))%Q) before
        /\ Forall (fun item => healthy (snd item) = true ->
                     (latency_ms status <= latency_ms (snd item))%Q) after).
Proof.
  intros Hwf. unfold get_best_region.
  fold healthy_pair.
  destruct (enabled (region_config self)) eqn:He; simpl.
  - split.
    + intros Hnone. apply omap_healthy_nil in Hnone. rewrite Hnone. reflexivity.
    + intros Hsome.
      destruct (omap healthy_pair (regions self)) as [|x l] eqn:Hpairs.
      { apply omap_healthy_nil in Hpairs. apply Exists_exists in Hsome
          as (item & Hin & Hh). rewrite Forall_forall in Hpairs.
        apply Hpairs in Hin. congruence. }
      destruct (min_by_first_least snd x l)
        as (before & after & Hsplit & Hbefore & Hafter).
      rewrite Hsplit in Hpairs.
      apply omap_split in Hpairs
        as (l1 & [region status] & l2 & Hregions & H1 & Hbest & H2).
      simpl in Hbest. destruct (healthy status) eqn:Hh; [|discriminate].
      injection Hbest as Hbest. rewrite <- Hbest in *. simpl in *.
      exists l1, status, l2. split; [exact Hregions|]. split; [exact Hh|].
      rewrite <- H1 in Hbefore. rewrite <- H2 in Hafter.
      split; apply omap_healthy_Forall; assumption.
  - rewrite (Hwf He). split; [reflexivity|].
    intros Hsome. apply Exists_nil in Hsome. contradiction.
Qed.

Lemma best_region_first_least_witness :
  exists before status after,
    regions three_regions
      = before ++ (get_best_region three_regions, status) :: after
    /\ healthy status = true
    /\ Forall (fun item => healthy (snd item) = true ->
                 (latency_ms status < latency_ms (snd item))%Q) before
    /\ Forall (fun item => healthy (snd item) = true ->
                 (latency_ms status <= latency_ms (snd item))%Q) after.
Proof.
  refine (proj2 (best_region_first_least three_regions _) _).
  - intros Hoff. discriminate Hoff.
  - apply Exists_cons_hd. reflexivity.
Defined.

Example best_region_of_three : get_best_region three_regions = "B".
Proof. reflexivity. Qed.

(** Equal latencies: the region met first wins. No healthy region: the
    current region. *)
Example best_region_tie_and_fallback :
  get_best_region
    (mkManager (mkRegionConfig true ["A"; "B"] "B" None false [] 30)
       [("A", mkRegionStatus "A" (_get_region_url "A") true 10 None None);
        ("B", mkRegionStatus "B" (_get_region_url "B") true 10 None None)]
       (Some 30%Q)) = "A"
  /\ get_best_region
       (__init__ (mkRegionConfig true ["A"; "B"] "B" None false [] 30)) = "B".
Proof. split; reflexivity. Qed.

(** *** Health checks *)

(** A check on a known region with an open session, when the request does
    not raise past the handler: one request, two clock readings, and the new
    status stored under the same key. *)
Lemma check_region_health_run (region : string) (w : World) (timeout : Q)
    (st : RegionStatus) :
  _session (self_ w) = Some timeout ->
  PyDict.get region (regions (self_ w)) = Some st ->
  handled (http w (length (requests w)) (url st +:+ "/health")) = true ->
  check_region_health region w
    = (Return (healthy (status_after w st)),
       mkWorld
         (mkManager (region_config (self_ w))
            (PyDict.set region (status_after w st) (regions (self_ w)))
            (_session (self_ w)))
         (requests w ++ [url st +:+ "/health"]) (http w) (loop_time w)
         (S (S (time_reads w))) (utcnow w)).
Proof.
  intros Hsession Hget.
  unfold check_region_health, bind at 1, gets. rewrite Hsession, Hget.
  unfold bind at 1, get_time.
  unfold try_except, bind at 1, session_get, status_after, measured_latency.
  cbn [requests http loop_time time_reads utcnow self_].
  destruct (http w (length (requests w)) (url st +:+ "/health")) as [status|e];
    cbn [handled]; intros Hhandled.
  - unfold bind at 1, get_time.
    cbn [requests http loop_time time_reads utcnow self_].
    destruct (status =? 200)%Z;
      unfold bind, gets, update_status, modify, ret;
      cbn [requests http loop_time time_reads utcnow self_ regions];
      rewrite Hget, ?Hsession; reflexivity.
  - rewrite Hhandled. unfold bind, get_time, update_status, modify, ret.
    cbn [requests http loop_time time_reads utcnow self_ regions].
    rewrite Hget, ?Hsession. reflexivity.
Qed.

(** A request that raises an exception that is not an [Exception]: the
    check raises it, after the request and one clock reading, and the
    manager is as it was. *)
Lemma check_region_health_passes (region : string) (w : World) (timeout : Q)
    (st : RegionStatus) (e : PyExc) :
  _session (self_ w) = Some timeout ->
  PyDict.get region (regions (self_ w)) = Some st ->
  http w (length (requests w)) (url st +:+ "/health") = HttpFailure e ->
  exc_is_exception e = false ->
  check_region_health region w
    = (Raise e,
       mkWorld (self_ w) (requests w ++ [url st +:+ "/health"]) (http w)
         (loop_time w) (S (time_reads w)) (utcnow w)).
Proof.
  intros Hsession Hget Hhttp Hclass.
  unfold check_region_health, bind at 1, gets. rewrite Hsession, Hget.
  unfold bind at 1, get_time.
  unfold try_except, bind at 1, session_get.
  cbn [requests http loop_time time_reads utcnow self_].
  rewrite Hhttp, Hclass. reflexivity.
Qed.

(** The two ways a check on a known region with an open session ends. *)
Lemma check_region_health_cases (region : string) (w : World) (timeout : Q)
    (st : RegionStatus) :
  _session (self_ w) = Some timeout ->
  PyDict.get region (regions (self_ w)) = Some st ->
  (handled (http w (length (requests w)) (url st +:+ "/health")) = true
   /\ check_region_health region w
      = (Return (healthy (status_after w st)),
         mkWorld
           (mkManager (region_config (self_ w))
              (PyDict.set region (status_after w st) (regions (self_ w)))
              (_session (self_ w)))
           (requests w ++ [url st +:+ "/health"]) (http w) (loop_time w)
           (S (S (time_reads w))) (utcnow w)))
  \/ (exists e,
        http w (length (requests w)) (url st +:+ "/health") = HttpFailure e
        /\ exc_is_exception e = false
        /\ check_region_health region w
           = (Raise e,
              mkWorld (self_ w) (requests w ++ [url st +:+ "/health"]) (http w)
                (loop_time w) (S (time_reads w)) (utcnow w))).
Proof.
  intros Hsession Hget.
  destruct (handled (http w (length (requests w)) (url st +:+ "/health")))
    eqn:Hhandled.
  - left. split; [reflexivity|].
    apply (check_region_health_run region w timeout st Hsession Hget Hhandled).
  - right.
    destruct (http w (length (requests w)) (url st +:+ "/health")) as [status|e]
      eqn:Hhttp; [discriminate Hhandled|].
    exists e. cbn [handled] in Hhandled.
    split; [reflexivity|]. split; [exact Hhandled|].
    apply (check_region_health_passes region w timeout st e Hsession Hget Hhttp
             Hhandled).
Qed.

(** Without a session, or for a region that is not in the map, the check
    answers [False] and does nothing else. *)
Lemma check_region_health_guard (region : string) (w : World) :
  _session (self_ w) = None \/ PyDict.get region (regions (self_ w)) = None ->
  check_region_health region w = (Return false, w).
Proof.
  intros Hguard. unfold check_region_health, bind, gets.
  destruct (_session (self_ w)), (PyDict.get region (regions (self_ w)));
    try reflexivity; destruct Hguard; discriminate.
Qed.

Lemma check_region_health_regions_when_enabled (region : string) (w : World) :
  regions_when_enabled (self_ w) ->
  regions_when_enabled (self_ (snd (check_region_health region w))).
Proof.
  intros Hwf.
  destruct (_session (self_ w)) as [timeout|] eqn:Hs;
    [destruct (PyDict.get region (regions (self_ w))) as [st|] eqn:Hg|].
  - destruct (check_region_health_cases region w timeout st Hs Hg)
      as [[_ ->]|(e & _ & _ & ->)]; [|exact Hwf].
    unfold regions_when_enabled in *. simpl. intros Hoff.
    rewrite (Hwf Hoff) in Hg. discriminate Hg.
  - rewrite check_region_health_guard by (right; exact Hg). exact Hwf.
  - rewrite check_region_health_guard by (left; exact Hs). exact Hwf.
Qed.

Lemma no_probe_without_session :
  ~ probes_and_records "eu-west" without_session.
Proof.
  intros Hclaim.
  destruct (Hclaim _ eq_refl) as [Hrequests _].
  rewrite check_region_health_guard in Hrequests by (left; reflexivity).
  discriminate Hrequests.
Qed.

(** C4, amended. For a region of the map, with the HTTP session open,
    [check_region_health] sends one request to the health URL of the region.
    After a 200 response the region is healthy, the measured latency and the
    time of the check are recorded and the error is cleared. After any other
    response the region is unhealthy and the error text is "HTTP" and the
    status code. After an exception that is an [Exception] the region is
    unhealthy, the measured latency is recorded and the error text is that
    of the exception. In these cases the answer is the new health flag. An
    exception that is not an [Exception] is raised to the caller and the
    statuses stay as they were. Without a session the check answers [False]
    without sending anything and leaves every status as it was. *)
Theorem check_region_health_spec (region : string) (w : World)
    (st : RegionStatus) :
  PyDict.get region (regions (self_ w)) = Some st ->
  let outcome := http w (length (requests w)) (url st +:+ "/health") in
  let result := fst (check_region_health region w) in
  let w' := snd (check_region_health region w) in
  (_session (self_ w) <> None ->
   requests w' = requests w ++ [url st +:+ "/health"]
   /\ (forall e, outcome = HttpFailure e -> exc_is_exception e = false ->
       result = Raise e /\ self_ w' = self_ w)
   /\ (handled outcome = true ->
       exists st',
         PyDict.get region (regions (self_ w')) = Some st'
         /\ result = Return (healthy st')
         /\ (healthy st' = true <-> outcome = HttpResponse 200)
         /\ (outcome = HttpResponse 200 ->
             latency_ms st' = measured_latency w
             /\ last_check st' = Some (utcnow w) /\ error st' = None)
         /\ (forall status, outcome = HttpResponse status -> status <> 200%Z ->
             error st' = Some ("HTTP " +:+ pretty status))
         /\ (forall e, outcome = HttpFailure e ->
             latency_ms st' = measured_latency w
             /\ error st' = Some (exc_str e))))
  /\ (_session (self_ w) = None -> result = Return false /\ w' = w).
Proof.
  intros Hget outcome result w'. subst outcome result w'. split.
  - intros Hsession.
    destruct (_session (self_ w)) as [timeout|] eqn:Hs; [clear Hsession|congruence].
    split; [|split].
    + destruct (check_region_health_cases region w timeout st Hs Hget)
        as [[_ ->]|(e & _ & _ & ->)]; reflexivity.
    + intros e Hhttp Hclass.
      rewrite (check_region_health_passes region w timeout st e Hs Hget Hhttp
                 Hclass).
      split; reflexivity.
    + intros Hhandled.
      rewrite (check_region_health_run region w timeout st Hs Hget Hhandled).
      cbn [fst snd requests self_ regions].
      exists (status_after w st). split; [apply get_set_eq|].
      split; [reflexivity|].
      unfold status_after.
      destruct (http w (length (requests w)) (url st +:+ "/health")) as [status|e].
      * destruct (status =? 200)%Z eqn:Hstatus;
          cbn [healthy latency_ms last_check error].
        -- apply Z.eqb_eq in Hstatus. subst status.
           split; [split; reflexivity|].
           split; [intros _; repeat split; reflexivity|].
           split; [intros status [= <-] Hne; contradiction|].
           intros e He. discriminate He.
        -- apply Z.eqb_neq in Hstatus.
           split; [split; [intros H; discriminate H | intros [= ->]; contradiction]|].
           split; [intros [= ->]; contradiction|].
           split; [intros status' [= <-] _; reflexivity|].
           intros e He. discriminate He.
      * cbn [healthy latency_ms last_check error].
        split; [split; intros H; discriminate H|].
        split; [intros H; discriminate H|].
        split; [intros status H; discriminate H|].
        intros e' [= <-]. split; reflexivity.
  - intros Hnone.
    rewrite check_region_health_guard by (left; exact Hnone).
    split; reflexivity.
Qed.

Lemma check_region_health_spec_witness :
  requests (snd (check_region_health "eu-west" with_session))
    = ["https://ghidrainsight-eu-west.example.com/health"]
  /\ fst (check_region_health "eu-west" with_session) = Return false.
Proof.
  destruct (check_region_health_spec "eu-west" with_session
              (mkRegionStatus "eu-west" (_get_region_url "eu-west") false 0
                 None None) eq_refl) as [Hprobe _].
  destruct Hprobe as (Hrequests & _ & Hreturns); [discriminate|].
  destruct Hreturns as (st' & _ & Hresult & Hhealthy & _); [reflexivity|].
  split; [exact Hrequests|].
  rewrite Hresult. destruct (healthy st'); [|reflexivity].
  destruct Hhealthy as [Hok _]. discriminate (Hok eq_refl).
Defined.

(** What the non-200 branch leaves alone: the latency and the time of the
    last check keep the values they had, while the two other branches store
    the latency they measured. *)
Remark check_region_health_non_200 (region : string) (w : World) (timeout : Q)
    (st : RegionStatus) (status : Z) :
  _session (self_ w) = Some timeout ->
  PyDict.get region (regions (self_ w)) = Some st ->
  http w (length (requests w)) (url st +:+ "/health") = HttpResponse status ->
  status <> 200%Z ->
  exists st',
    PyDict.get region (regions (self_ (snd (check_region_health region w))))
      = Some st'
    /\ healthy st' = false
    /\ latency_ms st' = latency_ms st
    /\ last_check st' = last_check st.
Proof.
  intros Hs Hget Hhttp Hne.
  rewrite (check_region_health_run region w timeout st Hs Hget)
    by (rewrite Hhttp; reflexivity).
  cbn [snd self_ regions]. exists (status_after w st).
  split; [apply get_set_eq|].
  unfold status_after. rewrite Hhttp.
  apply Z.eqb_neq in Hne. rewrite Hne. repeat split; reflexivity.
Qed.

End MultiRegionFacts.

(** ** Feature-mode dispatch *)

Module DistributedTasksFacts.
Import Eff PyDict PyDictFacts DistributedTasks.
#[local] Open Scope eff_scope.

Lemma iteration_error_of_list (l : list string) :
  iteration_error (of_list l) = None /\ items (of_list l) = l.
Proof.
  induction l as [|f l [IHe IHi]]; simpl; [split; reflexivity|].
  rewrite IHe, IHi. split; reflexivity.
Qed.

Section Loop.
Variable engine : Engine.
Variable binary_data : list Byte.byte.

(** The loop runs the engine once on each item, in order, whatever
    [Exception] the engine raises; it then raises only what the iteration
    itself raises. *)
Lemma feature_loop_run (features : Features) (results : PyDict.t pyval)
    (w : World) :
  raises_exceptions_only engine binary_data (length w) (items features) ->
  feature_loop engine binary_data features results w
    = (match iteration_error features with
       | None =>
           Return (record_all engine binary_data (length w) (items features)
                     results)
       | Some e => Raise e
       end,
       w ++ items features).
Proof.
  revert results w.
  induction features as [|feature rest IH|e]; intros results w Hengine.
  - simpl. rewrite app_nil_r. reflexivity.
  - cbn [feature_loop]. unfold bind at 1, try_except, bind at 1.
    unfold _run_feature_analysis.
    assert (Hrest : raises_exceptions_only engine binary_data
                      (length (w ++ [feature])) (items rest)).
    { intros i f e Hi He. apply (Hengine (S i) f e); [exact Hi|].
      rewrite length_app in He. cbn [length] in He.
      replace (length w + S i)%nat with (length w + 1 + i)%nat by lia.
      exact He. }
    specialize (Hengine 0%nat feature). rewrite Nat.add_0_r in Hengine.
    destruct (engine (length w) feature binary_data) as [result|e] eqn:Hrun;
      [|rewrite (Hengine e eq_refl eq_refl)];
      cbn [ret]; rewrite (IH _ _ Hrest), length_app; cbn [length items iteration_error];
      rewrite Nat.add_1_r, <- app_assoc; cbn [record_all app];
      rewrite Hrun; reflexivity.
  - simpl. rewrite app_nil_r. reflexivity.
Qed.

(** An exception of the engine that is not an [Exception] leaves the loop:
    the features after the one it was raised on are not run. *)
Lemma feature_loop_interrupted (features : Features) (results : PyDict.t pyval)
    (w : World) (i : nat) (feature : string) (e : PyExc) :
  items features !! i = Some feature ->
  engine (length w + i)%nat feature binary_data = Raise e ->
  exc_is_exception e = false ->
  raises_exceptions_only engine binary_data (length w) (take i (items features)) ->
  feature_loop engine binary_data features results w
    = (Raise e, w ++ take (S i) (items features)).
Proof.
  revert results w i.
  induction features as [|f rest IH|e0]; intros results w i Hi He Hclass Hbefore;
    [discriminate Hi| |discriminate Hi].
  cbn [feature_loop]. unfold bind at 1, try_except, bind at 1.
  unfold _run_feature_analysis.
  destruct i as [|i].
  - injection Hi as ->. rewrite Nat.add_0_r in He. rewrite He, Hclass.
    reflexivity.
  - cbn [items] in Hi, Hbefore.
    assert (Hnext : raises_exceptions_only engine binary_data
                      (length (w ++ [f])) (take i (items rest))).
    { intros j g e' Hj He'. apply (Hbefore (S j) g e'); [exact Hj|].
      rewrite length_app in He'. cbn [length] in He'.
      replace (length w + S j)%nat with (length w + 1 + j)%nat by lia.
      exact He'. }
    specialize (Hbefore 0%nat f). rewrite Nat.add_0_r in Hbefore.
    assert (Hstep : engine (length (w ++ [f]) + i)%nat feature binary_data
                    = Raise e).
    { rewrite length_app. cbn [length].
      replace (length w + 1 + i)%nat with (length w + S i)%nat by lia.
      exact He. }
    destruct (engine (length w) f binary_data) as [result|e1] eqn:Hrun;
      [|rewrite (Hbefore e1 eq_refl eq_refl)];
      cbn [ret]; rewrite (IH _ _ i Hi Hstep Hclass Hnext);
      cbn [items take]; rewrite <- app_assoc; reflexivity.
Qed.

(** A feature that is not listed gets no entry. *)
Lemma record_all_absent (l : list string) (k : nat) (results : PyDict.t pyval)
    (f : string) :
  f ∉ l ->
  get f (record_all engine binary_data k l results) = get f results.
Proof.
  revert k results. induction l as [|g l IH]; intros k results Hnotin;
    [reflexivity|].
  apply not_elem_of_cons in Hnotin as [Hne Hnotin].
  cbn [record_all]. rewrite IH by exact Hnotin.
  apply get_set_ne. congruence.
Qed.

(** A listed feature gets the entry of the last run of the engine on it. *)
Lemma record_all_last (l : list string) (k : nat) (results : PyDict.t pyval)
    (i : nat) (f : string) :
  l !! i = Some f ->
  f ∉ drop (S i) l ->
  get f (record_all engine binary_data k l results)
    = Some (record (engine (k + i) f binary_data)).
Proof.
  revert k results i. induction l as [|g l IH]; intros k results i Hi Hlast;
    [discriminate|].
  destruct i as [|i]; cbn [record_all].
  - injection Hi as ->. cbn [drop] in Hlast.
    rewrite record_all_absent by exact Hlast.
    rewrite Nat.add_0_r. apply get_set_eq.
  - rewrite (IH (S k) _ i) by assumption.
    do 3 f_equal. lia.
Qed.

End Loop.

Lemma success_of_results (fs rs size : pyval) :
  success (VDict [("features_analyzed", fs); ("results", rs);
                  ("success", VBool true); ("binary_size", size)])
    = Some (VBool true).
Proof. reflexivity. Qed.

Lemma success_of_failure (text : pyval) :
  success (VDict [("error", text); ("success", VBool false)])
    = Some (VBool false).
Proof. reflexivity. Qed.

Lemma raises_exceptions_only_of_list (engine : Engine)
    (binary_data : list Byte.byte) (k : nat) (l : list string) :
  raises_exceptions_only engine binary_data k l ->
  raises_exceptions_only engine binary_data k (items (of_list l)).
Proof.
  destruct (iteration_error_of_list l) as [_ ->]. exact (fun H => H).
Qed.

(** A [KeyboardInterrupt] of the engine on the first feature is raised by
    the task, and the second feature is never run. *)
Example interrupt_ends_dispatch :
  analyze_binary_parallel interrupted_on_a [] (of_list ["a"; "b"]) []
    = (Raise (mkExc "KeyboardInterrupt" EmptyString EmptyString false), ["a"]).
Proof. reflexivity. Qed.

(** So the claim of the specification fails for an exception that is not an
    [Exception]. *)
Lemma interrupt_is_not_isolated :
  ~ isolates_failures interrupted_on_a [] ["a"; "b"] [].
Proof.
  intros (envelope & r & Hrun & _). rewrite interrupt_ends_dispatch in Hrun.
  discriminate Hrun.
Qed.

(** C7, amended. On a list of features on which the engine raises nothing
    but an [Exception], [analyze_binary_parallel] runs the engine once on
    each listed feature, in order, and returns an envelope whose [success] is
    true whatever the engine did on the single features; each listed feature
    has an entry in [results], the output of the (last) run on it or the
    error record of that run, and no other feature has one. An exception of
    the engine that is not an [Exception] is raised by the task itself, and
    the features after the one it was raised on are not run. The envelope
    with [success] false is returned exactly when the iteration over the
    features itself raises an [Exception], which is outside the per-feature
    handler, and never because of what the engine does. *)
Theorem feature_dispatch_isolates_failures (engine : Engine)
    (binary_data : list Byte.byte) (l : list string) (features : Features)
    (w : World) :
  (raises_exceptions_only engine binary_data (length w) l ->
   exists envelope r,
     analyze_binary_parallel engine binary_data (of_list l) w
       = (Return envelope, w ++ l)
     /\ success envelope = Some (VBool true)
     /\ results envelope = Some r
     /\ (forall i f, l !! i = Some f -> f ∉ drop (S i) l ->
           get f r = Some (record (engine (length w + i) f binary_data)))
     /\ (forall f, f ∉ l -> get f r = None))
  /\ (forall i f e,
        l !! i = Some f ->
        engine (length w + i)%nat f binary_data = Raise e ->
        exc_is_exception e = false ->
        raises_exceptions_only engine binary_data (length w) (take i l) ->
        analyze_binary_parallel engine binary_data (of_list l) w
          = (Raise e, w ++ take (S i) l))
  /\ (raises_exceptions_only engine binary_data (length w) (items features) ->
      (forall e, iteration_error features = Some e -> exc_is_exception e = true) ->
      exists envelope,
        analyze_binary_parallel engine binary_data features w
          = (Return envelope, w ++ items features)
        /\ (success envelope = Some (VBool false)
            <-> exists e, iteration_error features = Some e)
        /\ (success envelope = Some (VBool true)
            <-> iteration_error features = None)).
Proof.
  split; [|split].
  - intros Hengine. unfold analyze_binary_parallel, try_except, bind.
    rewrite feature_loop_run
      by (apply raises_exceptions_only_of_list, Hengine).
    destruct (iteration_error_of_list l) as [-> ->].
    eexists _, _. split; [reflexivity|].
    split; [reflexivity|]. split; [reflexivity|]. split.
    + intros i f Hi Hlast. apply record_all_last; assumption.
    + intros f Hnotin. rewrite record_all_absent by exact Hnotin. reflexivity.
  - intros i f e Hi He Hclass Hbefore.
    unfold analyze_binary_parallel, try_except, bind.
    destruct (iteration_error_of_list l) as [_ Hitems].
    rewrite (feature_loop_interrupted engine binary_data (of_list l) [] w i f e)
      by (rewrite ?Hitems; assumption).
    rewrite Hclass, Hitems. reflexivity.
  - intros Hengine Hiteration.
    unfold analyze_binary_parallel, try_except, bind.
    rewrite feature_loop_run by exact Hengine.
    destruct (iteration_error features) as [e|].
    + rewrite (Hiteration e eq_refl).
      eexists. split; [reflexivity|]. rewrite success_of_failure. split.
      * split; [intros _; exists e; reflexivity | reflexivity].
      * split; intros H; discriminate H.
    + eexists. split; [reflexivity|]. rewrite success_of_results. split.
      * split; [intros H; discriminate H | intros [e H]; discriminate H].
      * split; reflexivity.
Qed.

Lemma feature_dispatch_isolates_failures_witness :
  exists envelope r,
    analyze_binary_parallel fails_on_b [] (of_list ["a"; "b"]) []
      = (Return envelope, ["a"; "b"])
    /\ success envelope = Some (VBool true)
    /\ results envelope = Some r
    /\ get "a" r = Some (VStr "ok")
    /\ get "b" r = Some (VDict [("error", VStr "unsupported feature")]).
Proof.
  destruct (feature_dispatch_isolates_failures fails_on_b [] ["a"; "b"] FNil [])
    as [Hlisted _].
  destruct Hlisted as (envelope & r & Hrun & Hsuccess & Hresults & Hlast & _).
  - intros i f e _. unfold fails_on_b.
    destruct (String.eqb f "b"); [intros [= <-]; reflexivity|discriminate].
  - exists envelope, r.
    split; [exact Hrun|]. split; [exact Hsuccess|]. split; [exact Hresults|].
    split.
    + apply (Hlast 0%nat "a" eq_refl).
      apply not_elem_of_cons. split; [discriminate | apply not_elem_of_nil].
    + apply (Hlast 1%nat "b" eq_refl). apply not_elem_of_nil.
Defined.

End DistributedTasksFacts.

(** ** More on the recovery manager *)

Module RecoveryMoreFacts.
Import Eff PyStr PyStrFacts ErrorRecovery ClassificationFacts RecoveryFacts
  RecoveryVocabulary.
#[local] Open Scope eff_scope.

Lemma same_manager_refl (w : World) : same_manager w w.
Proof. split; reflexivity. Qed.

Lemma same_manager_trans (w1 w2 w3 : World) :
  same_manager w1 w2 -> same_manager w2 w3 -> same_manager w1 w3.
Proof. intros [H1 H2] [H3 H4]. split; congruence. Qed.

Lemma capped_backoff_frame (base_delay max_delay : Q) (attempt : nat) (w : World) :
  snd (capped_backoff base_delay max_delay attempt w) = w.
Proof. unfold capped_backoff. destruct (attempt <? 1024)%nat; reflexivity. Qed.

Lemma backoff_delay_frame : delay_frame backoff_delay.
Proof.
  intros n w. unfold backoff_delay. rewrite capped_backoff_frame.
  repeat split; reflexivity.
Qed.

Lemma exponential_backoff_delay_frame : delay_frame exponential_backoff_delay.
Proof.
  intros n w. unfold exponential_backoff_delay, capped_backoff, bind.
  destruct (n <? 1024)%nat; repeat split; reflexivity.
Qed.

Lemma jitter_delay_frame : delay_frame jitter_delay.
Proof. intros n w. repeat split; reflexivity. Qed.

Lemma retry_loop_same_manager (delay_for : nat -> M World Q) (error : nat)
    (operation : Operation) (kwargs : PyDict.t pyval) (attempts : list nat)
    (w : World) :
  delay_frame delay_for ->
  same_manager w (snd (retry_loop delay_for error operation kwargs attempts w)).
Proof.
  intros Hdelay. revert w.
  induction attempts as [|attempt rest IH]; intros w; [apply same_manager_refl|].
  cbn [retry_loop]. unfold bind at 1.
  pose proof (Hdelay attempt w) as Hf. cbv zeta in Hf.
  destruct (delay_for attempt w) as [[delay|e] w1] eqn:Hd;
    cbn [snd] in Hf; destruct Hf as (Hs & Hh & _);
    [|split; cbn [snd]; rewrite ?Hs, ?Hh; reflexivity].
  unfold bind at 1, sleep, modify.
  unfold bind at 1, try_except, bind at 1, call.
  cbn [self_ heap calls slept random_ draws now].
  destruct (operation (calls w1) kwargs) as [v|e];
    [|destruct (exc_is_exception e)].
  - cbn. split; rewrite ?Hs, ?Hh; reflexivity.
  - unfold bind at 1, modify. cbn [ret].
    eapply same_manager_trans; [|apply IH].
    split; cbn [with_heap self_ heap]; [exact Hs|].
    rewrite length_alter, Hh. reflexivity.
  - cbn. split; rewrite ?Hs, ?Hh; reflexivity.
Qed.

Lemma retry_strategy_same_manager (delay_for : nat -> M World Q) (error : nat)
    (operation : Operation) (kwargs : PyDict.t pyval) (w : World) :
  delay_frame delay_for ->
  same_manager w (snd (retry_strategy delay_for error operation kwargs w)).
Proof.
  intros Hdelay. unfold retry_strategy, bind, deref, gets.
  destruct (negb (should_retry (heap w !!! error))); [apply same_manager_refl|].
  apply retry_loop_same_manager, Hdelay.
Qed.

Lemma reduce_complexity_same_manager (error : nat) (operation : Operation)
    (kwargs : PyDict.t pyval) (w : World) :
  same_manager w (snd (_reduce_complexity_fallback error operation kwargs w)).
Proof.
  unfold _reduce_complexity_fallback.
  destruct (PyDict.get "features" kwargs) as [features|]; [|apply same_manager_refl].
  destruct features as [| | |s|l|d]; try apply same_manager_refl;
    unfold bind at 1, py_len, ret;
    match goal with |- context [(1 <? ?n)%nat] => destruct (1 <? n)%nat end;
    try apply same_manager_refl;
    unfold bind at 1, py_slice_to, ret, raise; try apply same_manager_refl;
    unfold try_except, bind, call;
    match goal with
    | |- context [operation ?k ?kw] =>
        destruct (operation k kw) as [?|e0]; [|destruct (exc_is_exception e0)]
    end;
    split; reflexivity.
Qed.

Lemma simpler_analysis_same_manager (error : nat) (operation : Operation)
    (kwargs : PyDict.t pyval) (w : World) :
  same_manager w (snd (_fallback_to_simpler_analysis error operation kwargs w)).
Proof.
  unfold _fallback_to_simpler_analysis.
  destruct (PyDict.get "features" kwargs) as [features|]; [|apply same_manager_refl].
  unfold try_except, bind, call.
  match goal with
  | |- context [operation ?k ?kw] =>
      destruct (operation k kw) as [?|e0]; [|destruct (exc_is_exception e0)]
  end;
    split; reflexivity.
Qed.

Lemma run_strategy_same_manager (f : Strategy) (error : nat)
    (operation : Operation) (kwargs : PyDict.t pyval) (w : World) :
  same_manager w (snd (run_strategy f error operation kwargs w)).
Proof.
  destruct f; cbn [run_strategy].
  - apply retry_strategy_same_manager, backoff_delay_frame.
  - apply retry_strategy_same_manager, exponential_backoff_delay_frame.
  - apply reduce_complexity_same_manager.
  - apply simpler_analysis_same_manager.
  - apply retry_strategy_same_manager, jitter_delay_frame.
Qed.

Lemma attempt_recovery_same_manager (error : nat) (operation : Operation)
    (kwargs : PyDict.t pyval) (w : World) :
  same_manager w (snd (_attempt_recovery error operation kwargs w)).
Proof.
  unfold _attempt_recovery, bind at 1, deref, gets.
  destruct (negb (recoverable (heap w !!! error))); [apply same_manager_refl|].
  unfold bind at 1, gets.
  destruct (recovery_strategies (self_ w) !! _) as [f|]; [|apply same_manager_refl].
  unfold try_except.
  pose proof (run_strategy_same_manager f error operation kwargs w) as Hframe.
  destruct (run_strategy f error operation kwargs w) as [[v|e] w'];
    [|destruct (exc_is_exception e)]; exact Hframe.
Qed.

(** X1. [execute_with_recovery] never changes the two dispatch tables nor the
    bound of the history. When the first invocation returns, its value is
    returned as it is (be it [None]) after that single invocation, and no
    error object and no history entry is made. When it raises an
    [Exception], exactly one error object is allocated and its reference is
    appended to the history, the oldest entry leaving when the bound is
    passed, whatever the recovery then does. When it raises an exception
    that is not an [Exception], that exception reaches the caller and
    nothing is allocated or logged. A history within its bound stays within
    it. *)
Theorem execute_logs_failures_only (operation : Operation)
    (operation_name : string) (args_count : nat) (kwargs : PyDict.t pyval)
    (w : World) :
  let result :=
    fst (execute_with_recovery operation operation_name args_count kwargs w) in
  let w' :=
    snd (execute_with_recovery operation operation_name args_count kwargs w) in
  let called :=
    mkWorld (self_ w) (heap w) (S (calls w)) (slept w) (random_ w) (draws w)
      (now w) in
  error_handlers (self_ w') = error_handlers (self_ w)
  /\ recovery_strategies (self_ w') = recovery_strategies (self_ w)
  /\ max_history_size (self_ w') = max_history_size (self_ w)
  /\ (forall v, operation (calls w) kwargs = Return v ->
        result = Return v /\ w' = called)
  /\ (forall e, operation (calls w) kwargs = Raise e ->
        exc_is_exception e = true ->
        length (heap w') = S (length (heap w))
        /\ error_history (self_ w') = logged (self_ w) (length (heap w)))
  /\ (forall e, operation (calls w) kwargs = Raise e ->
        exc_is_exception e = false ->
        result = Raise e /\ w' = called)
  /\ ((length (error_history (self_ w)) <= max_history_size (self_ w))%nat ->
      (length (error_history (self_ w')) <= max_history_size (self_ w'))%nat).
Proof.
  intros result w' called. subst result w' called.
  destruct (operation (calls w) kwargs) as [v|e] eqn:Hop;
    [|destruct (exc_is_exception e) eqn:Hclass].
  - assert (Hrun : execute_with_recovery operation operation_name args_count
                     kwargs w
                   = (Return v, mkWorld (self_ w) (heap w) (S (calls w))
                                  (slept w) (random_ w) (draws w) (now w))).
    { unfold execute_with_recovery, try_except, call. rewrite Hop. reflexivity. }
    rewrite Hrun. cbn [fst snd self_].
    split; [reflexivity|]. split; [reflexivity|]. split; [reflexivity|].
    split; [intros v' [= <-]; split; reflexivity|].
    split; [intros e He; discriminate He|].
    split; [intros e He; discriminate He|].
    tauto.
  - destruct (execute_on_failure operation operation_name args_count kwargs w e
                Hop Hclass) as (err & _ & ->).
    unfold bind.
    pose proof (attempt_recovery_same_manager (length (heap w)) operation kwargs
                  (after_logging w err)) as [Hself Hheap].
    destruct (_attempt_recovery (length (heap w)) operation kwargs
                (after_logging w err)) as [[v|e'] w2]; cbn [snd] in Hself, Hheap.
    all: match goal with
         | |- context [if is_none ?v then _ else _] =>
             assert (Hsnd : snd ((if is_none v then raise e else ret v) w2) = w2)
               by (destruct (is_none v); reflexivity);
             rewrite Hsnd
         | _ => cbn [snd]
         end.
    all: rewrite Hself, Hheap;
      cbn [after_logging self_ heap error_handlers recovery_strategies
             max_history_size error_history];
      fold (logged (self_ w) (length (heap w)));
      (split; [reflexivity|]); (split; [reflexivity|]); (split; [reflexivity|]);
      (split; [intros v' Hv'; discriminate Hv'|]);
      (split; [intros e0 _ _; split; [rewrite length_app; simpl; lia | reflexivity]|]);
      (split; [intros e0 [= <-] He0; congruence|]);
      intros Hle; unfold logged;
      destruct (max_history_size (self_ w) <? _)%nat eqn:Hcmp;
      [rewrite length_drop, length_app; simpl; lia
      | apply Nat.ltb_ge in Hcmp; exact Hcmp].
  - rewrite (execute_passes_base_exception _ operation_name args_count _ _ _
               Hop Hclass).
    cbn [fst snd self_].
    split; [reflexivity|]. split; [reflexivity|]. split; [reflexivity|].
    split; [intros v Hv; discriminate Hv|].
    split; [intros e0 [= <-] He0; congruence|].
    split; [intros e0 [= <-] _; split; reflexivity|].
    tauto.
Qed.

Lemma execute_logs_failures_only_witness :
  (length (error_history (self_ (snd (execute_with_recovery always_times_out
      "analyze" 0 [] (fresh_world (fun _ => 0%Q) 0%Q))))) <= 1000)%nat.
Proof.
  refine (proj2 (proj2 (proj2 (proj2 (proj2 (proj2
            (execute_logs_failures_only always_times_out "analyze" 0 []
               (fresh_world (fun _ => 0%Q) 0%Q))))))) _).
  apply Nat.le_0_l.
Defined.

(** X2. A failure with an [Exception] that no rule classifies (neither
    timeout, memory, network, connection nor database in the class name) is
    not recoverable: whatever strategies the table holds,
    [execute_with_recovery] raises it again after the single invocation,
    without sleeping, and records it in the history. *)
Theorem unclassified_failure_is_reraised (operation : Operation)
    (operation_name : string) (args_count : nat) (kwargs : PyDict.t pyval)
    (w : World) (e : PyExc) :
  operation (calls w) kwargs = Raise e ->
  exc_is_exception e = true ->
  classify (lower (exc_type e)) = (MEDIUM, false, ESCALATE) ->
  exists err,
    execute_with_recovery operation operation_name args_count kwargs w
      = (Raise e, after_logging w err)
    /\ error_type err = lower (exc_type e)
    /\ recoverable err = false.
Proof.
  intros Hfail Hexc Hclass.
  destruct (create_error_spec e operation_name args_count kwargs
              (mkWorld (self_ w) (heap w) (S (calls w)) (slept w) (random_ w)
                 (draws w) (now w))) as (err & Hcreate & Hty & _ & Hd & _).
  rewrite Hclass in Hd. unfold disposition in Hd. injection Hd as _ Hrec _.
  exists err. split; [|split; assumption].
  unfold execute_with_recovery, try_except, call. rewrite Hfail, Hexc.
  unfold bind at 1. rewrite Hcreate.
  cbn [with_heap heap self_ calls slept random_ draws now].
  unfold bind at 1. rewrite log_error_run.
  cbn [with_heap heap self_ calls slept random_ draws now].
  fold (after_logging w err).
  unfold bind at 1, _attempt_recovery, bind at 1, deref, gets.
  assert (Hlook : heap (after_logging w err) !!! length (heap w) = err).
  { apply list_lookup_total_correct. cbn [after_logging heap].
    rewrite lookup_app_r by lia. rewrite Nat.sub_diag. reflexivity. }
  rewrite Hlook, Hrec. reflexivity.
Qed.

Lemma unclassified_failure_is_reraised_witness :
  exists err,
    execute_with_recovery
      (fun _ _ => Raise (mkExc "ValueError" "bad input" EmptyString true))
      "analyze" 0 [] (mkWorld keyed_by_strategy [] 0 [] (fun _ => 0%Q) 0 0%Q)
    = (Raise (mkExc "ValueError" "bad input" EmptyString true),
       after_logging (mkWorld keyed_by_strategy [] 0 [] (fun _ => 0%Q) 0 0%Q) err)
    /\ error_type err = "valueerror"
    /\ recoverable err = false.
Proof.
  apply (unclassified_failure_is_reraised
           (fun _ _ => Raise (mkExc "ValueError" "bad input" EmptyString true))
           "analyze" 0 []
           (mkWorld keyed_by_strategy [] 0 [] (fun _ => 0%Q) 0 0%Q)
           (mkExc "ValueError" "bad input" EmptyString true));
    reflexivity.
Defined.

(** *** Retry strategies *)

Section RetrySkips.
Variable delay_for : nat -> M World Q.
Variable d : nat -> Q.
Variable error : nat.
Variable operation : Operation.
Variable kwargs : PyDict.t pyval.

(** Attempts at the head of the loop that fail with an [Exception] are
    passed over one by one. *)
Lemma retry_loop_skip_failures (failed rest : list nat) (w : World) :
  (forall n w0, n ∈ failed -> delay_for n w0 = (Return (d n), w0)) ->
  (forall j, (j < length failed)%nat ->
     exists e, operation (calls w + j)%nat kwargs = Raise e
               /\ exc_is_exception e = true) ->
  retry_loop delay_for error operation kwargs (failed ++ rest) w
    = retry_loop delay_for error operation kwargs rest
        (after_failures error (length failed) (d <$> failed) w).
Proof.
  revert w. induction failed as [|attempt failed IH]; intros w Hdelay Hfail.
  - unfold after_failures. simpl. rewrite Nat.add_0_r, app_nil_r.
    destruct w; reflexivity.
  - destruct (Hfail 0%nat) as (e & He & Hclass); [simpl; lia|].
    rewrite Nat.add_0_r in He.
    cbn [app retry_loop]. unfold bind at 1.
    rewrite Hdelay by apply list_elem_of_here.
    unfold bind at 1, sleep, modify.
    unfold bind at 1, try_except, bind at 1, call.
    cbn [calls]. rewrite He, Hclass.
    unfold bind at 1, modify. cbn [ret].
    rewrite IH.
    + unfold after_failures, with_heap.
      cbn [self_ heap calls slept random_ draws now length].
      rewrite <- Nat.iter_succ_r, fmap_cons, <- app_assoc.
      f_equal. f_equal. lia.
    + intros n w0 Hn. apply Hdelay. apply list_elem_of_further, Hn.
    + intros j Hj. cbn [with_heap calls].
      destruct (Hfail (S j)) as (e' & He' & Hclass'); [simpl; lia|].
      exists e'. split; [|exact Hclass']. rewrite <- He'. f_equal. lia.
Qed.

End RetrySkips.

(** X3. [_retry_with_backoff] on an operation whose next [k] invocations
    raise an [Exception] and whose invocation after those returns [v], with
    more than [k] retries left: it returns [v] (whatever [v] is), having
    invoked the operation [k + 1] times, slept the backoff delays of the
    attempts [retry_count .. retry_count + k] and counted [k] failed retries
    on the error object; it touches nothing else. *)
Theorem retry_with_backoff_succeeds_after (k : nat) (error : nat)
    (err : AnalysisError) (operation : Operation) (kwargs : PyDict.t pyval)
    (w : World) (v : pyval) :
  heap w !! error = Some err ->
  should_retry err = true ->
  (max_retries err <= 1024)%nat ->
  (retry_count err + k < max_retries err)%nat ->
  (forall j, (j < k)%nat ->
     exists e, operation (calls w + j)%nat kwargs = Raise e
               /\ exc_is_exception e = true) ->
  operation (calls w + k)%nat kwargs = Return v ->
  exists w' err',
    _retry_with_backoff error operation kwargs w = (Return v, w')
    /\ calls w' = (calls w + k + 1)%nat
    /\ slept w' = slept w ++ (backoff_seconds <$> seq (retry_count err) (k + 1))
    /\ heap w' !! error = Some err'
    /\ retry_count err' = (retry_count err + k)%nat
    /\ max_retries err' = max_retries err
    /\ self_ w' = self_ w.
Proof.
  intros Hheap Hretry Hmax Hleft Hfail Hok.
  unfold _retry_with_backoff, retry_strategy, bind at 1, deref, gets.
  rewrite (list_lookup_total_correct _ _ _ Hheap), Hretry. cbn [negb].
  unfold range.
  replace (max_retries err - retry_count err)%nat
    with (k + S (max_retries err - retry_count err - k - 1))%nat by lia.
  rewrite seq_app. cbn [seq].
  rewrite (retry_loop_skip_failures backoff_delay backoff_seconds).
  - rewrite (retry_loop_succeeds backoff_delay backoff_seconds _ _ _ _ _ _ v).
    + eexists _, _. split; [reflexivity|].
      unfold after_failures. cbn [self_ heap calls slept random_ draws now].
      rewrite length_seq.
      split; [lia|]. split.
      * rewrite <- app_assoc. f_equal.
        rewrite seq_app, fmap_app. reflexivity.
      * split; [apply iter_alter_lookup, Hheap|].
        destruct (iter_increment_retry k err) as [-> ->].
        repeat split; reflexivity.
    + apply backoff_delay_run. lia.
    + unfold after_failures. cbn [calls]. rewrite length_seq. exact Hok.
  - intros n w0 Hn. apply backoff_delay_run. apply elem_of_seq in Hn. lia.
  - intros j Hj. rewrite length_seq in Hj. apply Hfail, Hj.
Qed.

Lemma retry_with_backoff_succeeds_after_witness :
  exists w' err',
    _retry_with_backoff 0 fails_once [] retry_world = (Return (VInt 42), w')
    /\ calls w' = 2%nat
    /\ slept w' = [1; 2]%Q
    /\ heap w' !! 0%nat = Some err'
    /\ retry_count err' = 1%nat
    /\ max_retries err' = 3%nat
    /\ self_ w' = __init__.
Proof.
  apply (retry_with_backoff_succeeds_after 1 0 timeout_error fails_once []
           retry_world (VInt 42)).
  - reflexivity.
  - reflexivity.
  - simpl. lia.
  - simpl. lia.
  - intros j Hj. exists timeout_exc.
    destruct j as [|j]; [split; reflexivity | lia].
  - reflexivity.
Defined.

Lemma retry_strategy_skipped (delay_for : nat -> M World Q) (error : nat)
    (operation : Operation) (kwargs : PyDict.t pyval) (w : World) :
  should_retry (heap w !!! error) = false ->
  retry_strategy delay_for error operation kwargs w = (Return VNone, w).
Proof.
  intros Hno. unfold retry_strategy, bind, deref, gets. rewrite Hno. reflexivity.
Qed.

(** X4. A retry strategy does nothing for an error that should not be
    retried: when the error is not recoverable, or its strategy is not retry,
    or its retry count has reached [max_retries], each of the three returns
    [None] without invoking the operation, sleeping or drawing a random
    number. *)
Theorem retry_guard (f : Strategy) (error : nat) (err : AnalysisError)
    (operation : Operation) (kwargs : PyDict.t pyval) (w : World) :
  is_retry f = true ->
  heap w !! error = Some err ->
  recoverable err = false \/ recovery_strategy err <> RETRY
    \/ (max_retries err <= retry_count err)%nat ->
  run_strategy f error operation kwargs w = (Return VNone, w).
Proof.
  intros Hf Hheap Hno.
  assert (Hfalse : should_retry (heap w !!! error) = false).
  { rewrite (list_lookup_total_correct _ _ _ Hheap). unfold should_retry.
    destruct Hno as [-> | [Hne | Hle]]; [reflexivity| |].
    - rewrite bool_decide_eq_false_2 by exact Hne.
      rewrite andb_false_r. reflexivity.
    - apply Nat.ltb_ge in Hle. rewrite Hle. apply andb_false_r. }
  destruct f; try discriminate Hf; cbn [run_strategy];
    apply retry_strategy_skipped, Hfalse.
Qed.

Lemma retry_guard_witness :
  run_strategy retry_with_jitter 0 always_times_out []
    (mkWorld __init__ [Nat.iter 3 increment_retry timeout_error] 1 []
       (fun _ => 0%Q) 0 0)
  = (Return VNone,
     mkWorld __init__ [Nat.iter 3 increment_retry timeout_error] 1 []
       (fun _ => 0%Q) 0 0).
Proof.
  apply (retry_guard retry_with_jitter 0 (Nat.iter 3 increment_retry timeout_error));
    [reflexivity | reflexivity |].
  right. right. simpl. lia.
Defined.

Section RetryExhaustion.
Variable delay_for : nat -> M World Q.
Variable error : nat.
Variable operation : Operation.
Variable kwargs : PyDict.t pyval.
Hypothesis delay_frame_holds : delay_frame delay_for.

(** With any of the delay computations, an operation that keeps failing
    with an [Exception] is invoked once per attempt and each failure is
    counted. *)
Lemma retry_loop_exhausts_any_delay (attempts : list nat) (w : World) :
  (forall n w0, n ∈ attempts -> exists delay, fst (delay_for n w0) = Return delay) ->
  (forall k, (calls w <= k)%nat ->
     exists e, operation k kwargs = Raise e /\ exc_is_exception e = true) ->
  exists w',
    retry_loop delay_for error operation kwargs attempts w = (Return VNone, w')
    /\ self_ w' = self_ w
    /\ heap w' = Nat.iter (length attempts) (alter increment_retry error) (heap w)
    /\ calls w' = (calls w + length attempts)%nat
    /\ length (slept w') = (length (slept w) + length attempts)%nat.
Proof.
  revert w. induction attempts as [|attempt rest IH]; intros w Hdelay Hfail.
  - exists w. cbn. repeat split; lia.
  - destruct (Hfail (calls w)) as (e & He & Hclass); [lia|].
    destruct (Hdelay attempt w) as [delay Hd]; [apply list_elem_of_here|].
    pose proof (delay_frame_holds attempt w) as Hf. cbv zeta in Hf.
    destruct (delay_for attempt w) as [o w1] eqn:Hrun.
    cbn [fst snd] in Hd, Hf. subst o.
    destruct Hf as (Hs & Hh & Hc & Hsl & _).
    cbn [retry_loop]. unfold bind at 1. rewrite Hrun.
    unfold bind at 1, sleep, modify.
    unfold bind at 1, try_except, bind at 1, call.
    cbn [calls]. rewrite Hc, He, Hclass.
    unfold bind at 1, modify. cbn [ret].
    edestruct IH as (w' & -> & Hs' & Hh' & Hc' & Hsl').
    + intros n w0 Hn. apply Hdelay. apply list_elem_of_further, Hn.
    + intros k Hk. apply Hfail. cbn [with_heap calls] in Hk. lia.
    + exists w'. split; [reflexivity|].
      cbn [with_heap self_ heap calls slept] in Hs', Hh', Hc', Hsl'.
      rewrite Hs', Hh', Hc', Hsl', ?Hs, ?Hh, ?Hc, ?Hsl, length_app, ?Hsl.
      cbn [length]. rewrite <- Nat.iter_succ_r.
      repeat split; lia.
Qed.

End RetryExhaustion.

Lemma delay_returns (f : Strategy) (n : nat) (w : World) :
  (n < 1024)%nat ->
  exists delay,
    fst (match f with
         | retry_with_exponential_backoff => exponential_backoff_delay
         | retry_with_jitter => jitter_delay
         | _ => backoff_delay
         end n w) = Return delay.
Proof.
  intros Hn. apply Nat.ltb_lt in Hn.
  destruct f; unfold backoff_delay, exponential_backoff_delay, jitter_delay,
    capped_backoff, bind; rewrite ?Hn; eexists; reflexivity.
Qed.

(** X5. Each of the three retry strategies, on an operation that keeps
    failing with an [Exception] and an error that should be retried: it
    invokes the operation once for each attempt in
    [range(retry_count, max_retries)], sleeping before each, returns [None]
    and leaves the retry count at [max_retries]. The error then no longer
    asks for a retry, so running the strategy again does nothing at all. *)
Theorem retry_strategies_exhaust (f : Strategy) (error : nat)
    (err : AnalysisError) (operation : Operation) (kwargs : PyDict.t pyval)
    (w : World) :
  is_retry f = true ->
  heap w !! error = Some err ->
  should_retry err = true ->
  (max_retries err <= 1024)%nat ->
  (forall k, (calls w <= k)%nat ->
     exists e, operation k kwargs = Raise e /\ exc_is_exception e = true) ->
  exists w' err',
    run_strategy f error operation kwargs w = (Return VNone, w')
    /\ calls w' = (calls w + (max_retries err - retry_count err))%nat
    /\ length (slept w')
         = (length (slept w) + (max_retries err - retry_count err))%nat
    /\ heap w' !! error = Some err'
    /\ retry_count err' = max_retries err
    /\ should_retry err' = false
    /\ self_ w' = self_ w
    /\ run_strategy f error operation kwargs w' = (Return VNone, w').
Proof.
  intros Hf Hheap Hretry Hmax Hfail.
  assert (Hlt : (retry_count err < max_retries err)%nat).
  { unfold should_retry in Hretry.
    apply andb_true_iff in Hretry as [_ Hlt]. apply Nat.ltb_lt, Hlt. }
  assert (Hloop : forall delay_for,
            delay_frame delay_for ->
            (forall n w0, (n < 1024)%nat ->
               exists delay, fst (delay_for n w0) = Return delay) ->
            exists w' err',
              retry_strategy delay_for error operation kwargs w
                = (Return VNone, w')
              /\ calls w' = (calls w + (max_retries err - retry_count err))%nat
              /\ length (slept w')
                   = (length (slept w) + (max_retries err - retry_count err))%nat
              /\ heap w' !! error = Some err'
              /\ retry_count err' = max_retries err
              /\ should_retry err' = false
              /\ self_ w' = self_ w).
  { intros delay_for Hframe Hreturns.
    unfold retry_strategy, bind at 1, deref, gets.
    rewrite (list_lookup_total_correct _ _ _ Hheap), Hretry. cbn [negb].
    destruct (retry_loop_exhausts_any_delay delay_for error operation kwargs
                Hframe (range (retry_count err) (max_retries err)) w)
      as (w' & Hrun & Hs & Hh & Hc & Hsl).
    - intros n w0 Hn. apply Hreturns.
      unfold range in Hn. apply elem_of_seq in Hn. lia.
    - exact Hfail.
    - unfold range in *. rewrite length_seq in *.
      exists w', (Nat.iter (max_retries err - retry_count err) increment_retry err).
      destruct (iter_increment_retry (max_retries err - retry_count err) err)
        as [Hrc Hmr].
      split; [exact Hrun|]. split; [exact Hc|]. split; [exact Hsl|].
      split; [rewrite Hh; apply iter_alter_lookup, Hheap|].
      split; [lia|]. split; [|exact Hs].
      unfold should_retry. rewrite Hrc, Hmr.
      replace (retry_count err + (max_retries err - retry_count err)
               <? max_retries err)%nat with false
        by (symmetry; apply Nat.ltb_ge; lia).
      apply andb_false_r. }
  assert (Hdone : forall w' err',
            heap w' !! error = Some err' -> should_retry err' = false ->
            run_strategy f error operation kwargs w' = (Return VNone, w')).
  { intros w' err' Hl Hno.
    destruct f; try discriminate Hf; cbn [run_strategy];
      apply retry_strategy_skipped;
      rewrite (list_lookup_total_correct _ _ _ Hl); exact Hno. }
  destruct f; try discriminate Hf; cbn [run_strategy] in *.
  - destruct (Hloop backoff_delay backoff_delay_frame)
      as (w' & err' & Hrun & Hc & Hsl & Hl & Hrc & Hno & Hs).
    { intros n w0 Hn. apply (delay_returns retry_with_backoff n w0 Hn). }
    exists w', err'. repeat (split; [assumption|]). apply (Hdone w' err' Hl Hno).
  - destruct (Hloop exponential_backoff_delay exponential_backoff_delay_frame)
      as (w' & err' & Hrun & Hc & Hsl & Hl & Hrc & Hno & Hs).
    { intros n w0 Hn. apply (delay_returns retry_with_exponential_backoff n w0 Hn). }
    exists w', err'. repeat (split; [assumption|]). apply (Hdone w' err' Hl Hno).
  - destruct (Hloop jitter_delay jitter_delay_frame)
      as (w' & err' & Hrun & Hc & Hsl & Hl & Hrc & Hno & Hs).
    { intros n w0 Hn. apply (delay_returns retry_with_jitter n w0 Hn). }
    exists w', err'. repeat (split; [assumption|]). apply (Hdone w' err' Hl Hno).
Qed.

Lemma retry_strategies_exhaust_witness :
  exists w' err',
    run_strategy retry_with_exponential_backoff 0 always_times_out []
      retry_world = (Return VNone, w')
    /\ calls w' = 3%nat
    /\ length (slept w') = 3%nat
    /\ heap w' !! 0%nat = Some err'
    /\ retry_count err' = 3%nat
    /\ should_retry err' = false
    /\ self_ w' = __init__
    /\ run_strategy retry_with_exponential_backoff 0 always_times_out [] w'
         = (Return VNone, w').
Proof.
  apply (retry_strategies_exhaust retry_with_exponential_backoff 0
           timeout_error always_times_out [] retry_world).
  - reflexivity.
  - reflexivity.
  - reflexivity.
  - simpl. lia.
  - intros k _. exists timeout_exc. split; reflexivity.
Defined.

(** One turn of the loop on an invocation that raises an exception that is
    not an [Exception]: after the sleep the exception leaves the loop, and
    the failure is not counted. *)
Lemma retry_loop_passes (delay_for : nat -> M World Q) (error : nat)
    (operation : Operation) (kwargs : PyDict.t pyval) (attempt : nat)
    (rest : list nat) (w : World) (e : PyExc) :
  delay_frame delay_for ->
  (exists delay, fst (delay_for attempt w) = Return delay) ->
  operation (calls w) kwargs = Raise e ->
  exc_is_exception e = false ->
  exists w',
    retry_loop delay_for error operation kwargs (attempt :: rest) w
      = (Raise e, w')
    /\ calls w' = S (calls w)
    /\ length (slept w') = S (length (slept w))
    /\ heap w' = heap w
    /\ self_ w' = self_ w.
Proof.
  intros Hframe [delay Hd] Hfail Hclass.
  pose proof (Hframe attempt w) as Hf. cbv zeta in Hf.
  destruct (delay_for attempt w) as [o w1] eqn:Hrun.
  cbn [fst snd] in Hd, Hf. subst o.
  destruct Hf as (Hs & Hh & Hc & Hsl & _).
  cbn [retry_loop]. unfold bind at 1. rewrite Hrun.
  unfold bind at 1, sleep, modify.
  unfold bind at 1, try_except, bind at 1, call.
  cbn [calls]. rewrite Hc, Hfail, Hclass.
  eexists. split; [reflexivity|].
  cbn [self_ heap calls slept]. rewrite length_app, Hsl. cbn [length].
  split; [reflexivity|]. split; [lia|]. split; [exact Hh|exact Hs].
Qed.

(** X30. An exception that is not an [Exception] (a cancellation, an
    interrupt) passes through the recovery: when the next invocation raises
    one, each of the three retry strategies, on an error that should be
    retried, raises it after one sleep and that one invocation, without
    counting a failed retry, and [_attempt_recovery] around the strategy
    raises it too. *)
Theorem interruption_passes_recovery (f : Strategy) (error : nat)
    (err : AnalysisError) (operation : Operation) (kwargs : PyDict.t pyval)
    (w : World) (e : PyExc) :
  is_retry f = true ->
  heap w !! error = Some err ->
  should_retry err = true ->
  (retry_count err < 1024)%nat ->
  operation (calls w) kwargs = Raise e ->
  exc_is_exception e = false ->
  exists w',
    run_strategy f error operation kwargs w = (Raise e, w')
    /\ calls w' = S (calls w)
    /\ length (slept w') = S (length (slept w))
    /\ heap w' = heap w
    /\ self_ w' = self_ w
    /\ (recovery_strategies (self_ w) !! "retry" = Some f ->
        _attempt_recovery error operation kwargs w = (Raise e, w')).
Proof.
  intros Hf Hheap Hretry Hcount Hfail Hclass.
  assert (Hlook : heap w !!! error = err)
    by (apply list_lookup_total_correct, Hheap).
  assert (Hfields : recoverable err = true /\ recovery_strategy err = RETRY
                    /\ (retry_count err < max_retries err)%nat).
  { unfold should_retry in Hretry.
    apply andb_true_iff in Hretry as [Hretry Hlt].
    apply andb_true_iff in Hretry as [Hrec Hstrat].
    apply bool_decide_eq_true in Hstrat. apply Nat.ltb_lt in Hlt. tauto. }
  destruct Hfields as (Hrec & Hstrat & Hlt).
  assert (Hrange : exists rest,
            range (retry_count err) (max_retries err) = retry_count err :: rest).
  { unfold range.
    destruct (max_retries err - retry_count err)%nat as [|n] eqn:Hn; [lia|].
    eexists. reflexivity. }
  destruct Hrange as [rest Hrange].
  assert (Hloop : forall delay_for,
            delay_frame delay_for ->
            (exists delay, fst (delay_for (retry_count err) w) = Return delay) ->
            exists w',
              retry_strategy delay_for error operation kwargs w = (Raise e, w')
              /\ calls w' = S (calls w)
              /\ length (slept w') = S (length (slept w))
              /\ heap w' = heap w
              /\ self_ w' = self_ w).
  { intros delay_for Hframe Hdelay.
    unfold retry_strategy, bind at 1, deref, gets.
    rewrite Hlook, Hretry, Hrange. cbn [negb].
    apply retry_loop_passes; assumption. }
  assert (Hrun : exists w',
            run_strategy f error operation kwargs w = (Raise e, w')
            /\ calls w' = S (calls w)
            /\ length (slept w') = S (length (slept w))
            /\ heap w' = heap w
            /\ self_ w' = self_ w).
  { destruct f; try discriminate Hf; cbn [run_strategy].
    - apply (Hloop backoff_delay backoff_delay_frame).
      apply (delay_returns retry_with_backoff _ w Hcount).
    - apply (Hloop exponential_backoff_delay exponential_backoff_delay_frame).
      apply (delay_returns retry_with_exponential_backoff _ w Hcount).
    - apply (Hloop jitter_delay jitter_delay_frame).
      apply (delay_returns retry_with_jitter _ w Hcount). }
  destruct Hrun as (w' & Hrun & Hc & Hsl & Hh & Hs).
  exists w'. repeat (split; [assumption|]).
  intros Htable.
  unfold _attempt_recovery, bind at 1, deref, gets.
  rewrite Hlook, Hrec, Hstrat. cbn [negb strategy_value].
  unfold bind at 1, gets. rewrite Htable.
  unfold try_except. rewrite Hrun, Hclass. reflexivity.
Qed.

Lemma interruption_passes_recovery_witness :
  exists w',
    _attempt_recovery 0 cancelled_in_retry [] retrying_world
      = (Raise cancelled_exc, w')
    /\ calls w' = 2%nat
    /\ length (slept w') = 1%nat
    /\ heap w' = [timeout_error].
Proof.
  destruct (interruption_passes_recovery retry_with_backoff 0 timeout_error
              cancelled_in_retry [] retrying_world cancelled_exc)
    as (w' & _ & Hc & Hsl & Hh & _ & Hattempt);
    [reflexivity | reflexivity | reflexivity | simpl; lia | reflexivity
    | reflexivity |].
  exists w'. split; [apply Hattempt; reflexivity|].
  split; [exact Hc|]. split; [exact Hsl|exact Hh].
Defined.

(** The sleeps of the jitter loop, whatever the operation does. *)
Lemma jitter_loop_sleeps (error : nat) (operation : Operation)
    (kwargs : PyDict.t pyval) (attempts : list nat) (w : World) :
  (forall k, (0 <= random_ w k)%Q /\ (random_ w k <= 1)%Q) ->
  exists delays,
    slept (snd (retry_loop jitter_delay error operation kwargs attempts w))
      = slept w ++ delays
    /\ Forall (fun delay => (1 <= delay)%Q /\ (delay <= 5)%Q) delays
    /\ (length delays <= length attempts)%nat.
Proof.
  revert w. induction attempts as [|attempt rest IH]; intros w Hrandom.
  - exists []. cbn. rewrite app_nil_r. repeat split; [constructor | lia].
  - assert (Hdelay : (1 <= 1 + (0 + (4 - 0) * random_ w (draws w)))%Q
                     /\ (1 + (0 + (4 - 0) * random_ w (draws w)) <= 5)%Q).
    { destruct (Hrandom (draws w)) as [Hlo Hhi]. split; lra. }
    cbn [retry_loop]. unfold bind at 1, jitter_delay, bind at 1, uniform.
    cbn [ret]. unfold bind at 1, sleep, modify.
    unfold bind at 1, try_except, bind at 1, call.
    cbn [self_ heap calls slept random_ draws now].
    destruct (operation (calls w) kwargs) as [v|e];
      [|destruct (exc_is_exception e)].
    + cbn. eexists [_]. split; [reflexivity|].
      split; [constructor; [exact Hdelay | constructor] | simpl; lia].
    + unfold bind at 1, modify. cbn [ret].
      edestruct IH as (delays & -> & Hall & Hlen).
      * cbn [with_heap random_]. exact Hrandom.
      * cbn [with_heap slept]. eexists (_ :: delays).
        rewrite <- app_assoc. split; [reflexivity|].
        split; [constructor; [exact Hdelay | exact Hall] | simpl; lia].
    + cbn. eexists [_]. split; [reflexivity|].
      split; [constructor; [exact Hdelay | constructor] | simpl; lia].
Qed.

(** X6. Every delay [_retry_with_jitter] sleeps lies between 1 and 5 seconds,
    whatever the operation does, given that [random.random()] draws from the
    unit interval; and it sleeps at most once per remaining retry. *)
Theorem jitter_delays_between_1_and_5 (error : nat) (operation : Operation)
    (kwargs : PyDict.t pyval) (w : World) :
  (forall k, (0 <= random_ w k)%Q /\ (random_ w k <= 1)%Q) ->
  exists delays,
    slept (snd (_retry_with_jitter error operation kwargs w)) = slept w ++ delays
    /\ Forall (fun delay => (1 <= delay)%Q /\ (delay <= 5)%Q) delays
    /\ (length delays
        <= max_retries (heap w !!! error) - retry_count (heap w !!! error))%nat.
Proof.
  intros Hrandom. unfold _retry_with_jitter, retry_strategy, bind, deref, gets.
  destruct (negb (should_retry (heap w !!! error))).
  - exists []. cbn. rewrite app_nil_r. repeat split; [constructor | lia].
  - destruct (jitter_loop_sleeps error operation kwargs
                (range (retry_count (heap w !!! error))
                   (max_retries (heap w !!! error))) w Hrandom)
      as (delays & Hslept & Hall & Hlen).
    exists delays. unfold range in Hlen. rewrite length_seq in Hlen.
    repeat split; assumption.
Qed.

Lemma jitter_delays_between_1_and_5_witness :
  exists delays,
    slept (snd (_retry_with_jitter 0 always_times_out [] retry_world))
      = slept retry_world ++ delays
    /\ Forall (fun delay => (1 <= delay)%Q /\ (delay <= 5)%Q) delays
    /\ (length delays <= 3)%nat.
Proof.
  apply (jitter_delays_between_1_and_5 0 always_times_out [] retry_world).
  intros k. split; discriminate.
Defined.

(** *** Fallback strategies *)

(** X7. [_reduce_complexity_fallback] returns [None] without invoking the
    operation when there is no features argument or the feature list has at
    most one entry. On a list of two or more features it invokes the
    operation once, with the first half of the list (rounded down, never
    empty, always shorter) in place of the features and every other keyword
    argument as it was; it wraps what the operation returns, be it [None],
    with the reason "memory_error" and the reduced list, returns [None]
    when the operation raises an [Exception], and raises what the operation
    raises otherwise. *)
Theorem reduce_complexity_halves (error : nat) (operation : Operation)
    (kwargs : PyDict.t pyval) (w : World) :
  (PyDict.get "features" kwargs = None ->
   _reduce_complexity_fallback error operation kwargs w = (Return VNone, w))
  /\ (forall l, PyDict.get "features" kwargs = Some (VList l) ->
        (length l <= 1)%nat ->
        _reduce_complexity_fallback error operation kwargs w = (Return VNone, w))
  /\ (forall l, PyDict.get "features" kwargs = Some (VList l) ->
        (2 <= length l)%nat ->
        let reduced := take (length l / 2) l in
        let kwargs' := PyDict.set "features" (VList reduced) kwargs in
        (1 <= length reduced)%nat /\ (length reduced < length l)%nat
        /\ (forall k, k <> "features" -> PyDict.get k kwargs' = PyDict.get k kwargs)
        /\ _reduce_complexity_fallback error operation kwargs w
           = (match operation (calls w) kwargs' with
              | Return result =>
                  Return (fallback_result "memory_error" "reduced_features"
                            (VList reduced) result)
              | Raise e => if exc_is_exception e then Return VNone else Raise e
              end,
              mkWorld (self_ w) (heap w) (S (calls w)) (slept w) (random_ w)
                (draws w) (now w))).
Proof.
  unfold _reduce_complexity_fallback. split; [|split].
  - intros ->. reflexivity.
  - intros l -> Hle. unfold bind at 1, py_len, ret.
    apply Nat.ltb_ge in Hle. rewrite Hle. reflexivity.
  - intros l Hget Hge. cbv zeta. rewrite Hget.
    set (reduced := take (length l / 2) l).
    set (kwargs' := PyDict.set "features" (VList reduced) kwargs).
    assert (Hhalf : (1 <= length l / 2)%nat /\ (length l / 2 < length l)%nat).
    { split.
      - apply Nat.div_str_pos. lia.
      - apply Nat.div_lt; lia. }
    assert (Hlen : length reduced = (length l / 2)%nat)
      by (subst reduced; rewrite length_take; lia).
    rewrite Hlen.
    split; [lia|]. split; [lia|]. split.
    + intros k Hk. subst kwargs'. apply PyDictFacts.get_set_ne. congruence.
    + unfold bind at 1, py_len, ret.
      assert (Hlt : (1 <? length l)%nat = true) by (apply Nat.ltb_lt; lia).
      rewrite Hlt. unfold bind at 1, py_slice_to, ret.
      unfold try_except, bind, call. fold reduced. fold kwargs'.
      destruct (operation (calls w) kwargs') as [result|e];
        [|destruct (exc_is_exception e)]; reflexivity.
Qed.

Lemma reduce_complexity_halves_witness :
  _reduce_complexity_fallback 0
    (fun _ kwargs => Return (default VNone (PyDict.get "features" kwargs)))
    [("features", VList [VStr "a"; VStr "b"; VStr "c"]); ("depth", VInt 3)]
    retry_world
  = (Return (fallback_result "memory_error" "reduced_features"
               (VList [VStr "a"]) (VList [VStr "a"])),
     mkWorld __init__ [timeout_error] 1 [] (fun _ => (1 # 2)%Q) 0 0).
Proof.
  destruct (reduce_complexity_halves 0
              (fun _ kwargs => Return (default VNone (PyDict.get "features" kwargs)))
              [("features", VList [VStr "a"; VStr "b"; VStr "c"]);
               ("depth", VInt 3)] retry_world) as (_ & _ & Hhalf).
  destruct (Hhalf [VStr "a"; VStr "b"; VStr "c"] eq_refl) as (_ & _ & _ & Hrun).
  - simpl. lia.
  - exact Hrun.
Defined.

(** X8. [_fallback_to_simpler_analysis] returns [None] without invoking the
    operation when there is no features argument. Otherwise, whatever the
    features were, it invokes the operation once with the features
    ["basic_info", "strings"] and every other keyword argument as it was; it
    wraps what the operation returns with the reason "analysis_error",
    returns [None] when the operation raises an [Exception], and raises what
    the operation raises otherwise. *)
Theorem simpler_analysis_replaces_features (error : nat) (operation : Operation)
    (kwargs : PyDict.t pyval) (w : World) :
  let simple := VList [VStr "basic_info"; VStr "strings"] in
  let kwargs' := PyDict.set "features" simple kwargs in
  (PyDict.get "features" kwargs = None ->
   _fallback_to_simpler_analysis error operation kwargs w = (Return VNone, w))
  /\ (PyDict.get "features" kwargs <> None ->
      PyDict.get "features" kwargs' = Some simple
      /\ (forall k, k <> "features" -> PyDict.get k kwargs' = PyDict.get k kwargs)
      /\ _fallback_to_simpler_analysis error operation kwargs w
         = (match operation (calls w) kwargs' with
            | Return result =>
                Return (fallback_result "analysis_error" "simple_features"
                          simple result)
            | Raise e => if exc_is_exception e then Return VNone else Raise e
            end,
            mkWorld (self_ w) (heap w) (S (calls w)) (slept w) (random_ w)
              (draws w) (now w))).
Proof.
  intros simple kwargs'. unfold _fallback_to_simpler_analysis. split.
  - intros ->. reflexivity.
  - intros Hsome.
    destruct (PyDict.get "features" kwargs) as [features|]; [|congruence].
    split; [apply PyDictFacts.get_set_eq|]. split.
    + intros k Hk. apply PyDictFacts.get_set_ne. congruence.
    + unfold try_except, bind, call. fold simple. fold kwargs'.
      destruct (operation (calls w) kwargs') as [result|e];
        [|destruct (exc_is_exception e)]; reflexivity.
Qed.

Lemma simpler_analysis_replaces_features_witness :
  _fallback_to_simpler_analysis 0
    (fun _ kwargs => Return (default VNone (PyDict.get "features" kwargs)))
    [("features", VList [VStr "cfg"])] retry_world
  = (Return (fallback_result "analysis_error" "simple_features"
               (VList [VStr "basic_info"; VStr "strings"])
               (VList [VStr "basic_info"; VStr "strings"])),
     mkWorld __init__ [timeout_error] 1 [] (fun _ => (1 # 2)%Q) 0 0).
Proof.
  destruct (simpler_analysis_replaces_features 0
              (fun _ kwargs => Return (default VNone (PyDict.get "features" kwargs)))
              [("features", VList [VStr "cfg"])] retry_world) as [_ Hrun].
  destruct Hrun as (_ & _ & Hrun); [discriminate | exact Hrun].
Defined.

End RecoveryMoreFacts.

Module ErrorStatisticsFacts.
Import PyDict PyDictFacts ErrorRecovery RecoveryFacts ErrorStatistics.

Section Counting.
Context {A : Type} (key : A -> string).

Lemma tallied_cons (k : string) (x : A) (l : list A) :
  tallied key k (x :: l) = ((if decide (key x = k) then 1 else 0) + tallied key k l)%Z.
Proof.
  unfold tallied. rewrite filter_cons.
  destruct (decide (key x = k)); simpl length; lia.
Qed.

Lemma tallied_nonneg (k : string) (l : list A) : (0 <= tallied key k l)%Z.
Proof. unfold tallied. lia. Qed.

(** Counting up key by key gives each key the number of its items. *)
Lemma count_up_all (l : list A) (d : PyDict.t Z) (k : string) :
  get k (foldl (fun d x => count_up (key x) d) d l)
    = if (tallied key k l =? 0)%Z then get k d
      else Some (default 0 (get k d) + tallied key k l)%Z.
Proof.
  revert d. induction l as [|x l IH]; intros d; [reflexivity|].
  cbn [foldl]. rewrite IH, tallied_cons. unfold count_up.
  pose proof (tallied_nonneg k l) as Hnn.
  destruct (decide (key x = k)) as [->|Hne].
  - rewrite get_set_eq. cbn [default].
    replace (1 + tallied key k l =? 0)%Z with false by (symmetry; apply Z.eqb_neq; lia).
    destruct (tallied key k l =? 0)%Z eqn:Hz.
    + apply Z.eqb_eq in Hz. rewrite Hz. f_equal; lia.
    + unfold id. f_equal; lia.
  - rewrite get_set_ne by exact Hne. rewrite Z.add_0_l. reflexivity.
Qed.

End Counting.

Lemma foldl_tally (errors : list AnalysisError) (types sevs : PyDict.t Z)
    (failed : Z) :
  foldl tally (types, sevs, failed) errors
    = (foldl (fun d e => count_up (error_type e) d) types errors,
       foldl (fun d e => count_up (severity_value (severity e)) d) sevs errors,
       (failed + Z.of_nat (length errors))%Z).
Proof.
  revert types sevs failed.
  induction errors as [|e errors IH]; intros types sevs failed.
  - simpl. rewrite Z.add_0_r. reflexivity.
  - cbn [foldl tally]. rewrite IH. f_equal. cbn [length]. lia.
Qed.

Lemma get_absent {V} (k : string) (d : PyDict.t V) :
  k ∉ keys d -> get k d = None.
Proof.
  unfold keys. induction d as [|[k' v] d IH]; intros Hnotin; [reflexivity|].
  cbn [fmap list_fmap fst] in Hnotin.
  apply not_elem_of_cons in Hnotin as [Hne Hnotin]. simpl.
  apply String.eqb_neq in Hne. rewrite Hne. apply IH, Hnotin.
Qed.

Lemma max_by_greatest {A} (key : A -> Z) (x : A) (l : list A) :
  max_by key x l ∈ x :: l
  /\ forall y, y ∈ x :: l -> (key y <= key (max_by key x l))%Z.
Proof.
  revert x. induction l as [|z l IH]; intros x.
  - cbn [max_by]. split; [apply list_elem_of_here|].
    intros y Hy. apply list_elem_of_singleton in Hy. subst y. lia.
  - cbn [max_by].
    destruct (IH (if (key x <? key z)%Z then z else x)) as [Hin Hmax].
    split.
    + apply elem_of_cons in Hin as [Heq|Hin].
      * rewrite Heq. destruct (key x <? key z)%Z.
        -- apply list_elem_of_further, list_elem_of_here.
        -- apply list_elem_of_here.
      * do 2 apply list_elem_of_further. exact Hin.
    + intros y Hy.
      assert (Hrun : (key x <= key (if (key x <? key z)%Z then z else x))%Z
                     /\ (key z <= key (if (key x <? key z)%Z then z else x))%Z).
      { destruct (key x <? key z)%Z eqn:Hcmp;
          [apply Z.ltb_lt in Hcmp | apply Z.ltb_ge in Hcmp]; lia. }
      pose proof (Hmax _ (list_elem_of_here _ _)) as Hbest.
      apply elem_of_cons in Hy as [->|Hy]; [lia|].
      apply elem_of_cons in Hy as [->|Hy]; [lia|].
      apply Hmax, list_elem_of_further, Hy.
Qed.

Lemma statistics_entries (total types sevs recovery common : pyval) :
  let stats :=
    VDict [("total_errors", total); ("error_types", types);
           ("severities", sevs); ("recovery_stats", recovery);
           ("most_common_error", common)] in
  entry "total_errors" stats = Some total
  /\ entry "error_types" stats = Some types
  /\ entry "severities" stats = Some sevs
  /\ entry "recovery_stats" stats = Some recovery
  /\ entry "most_common_error" stats = Some common.
Proof. repeat split; reflexivity. Qed.

Lemma statistics_run (w : World) :
  error_history (self_ w) <> [] ->
  get_error_statistics w
    = let errors := logged_errors w in
      let types := foldl (fun d e => count_up (error_type e) d) [] errors in
      let sevs :=
        foldl (fun d e => count_up (severity_value (severity e)) d) [] errors in
      VDict [("total_errors", VInt (Z.of_nat (length errors)));
             ("error_types", counts_value types);
             ("severities", counts_value sevs);
             ("recovery_stats",
              VDict [("successful", VInt 0);
                     ("failed", VInt (Z.of_nat (length errors)))]);
             ("most_common_error",
              match keys types with
              | [] => VNone
              | k :: ks =>
                  VStr (max_by (fun k => default 0%Z (get k types)) k ks)
              end)].
Proof.
  intros Hne. unfold get_error_statistics.
  destruct (logged_errors w) as [|e errors] eqn:Herrors.
  - unfold logged_errors in Herrors. apply fmap_nil_inv in Herrors. contradiction.
  - rewrite foldl_tally. cbv zeta. rewrite Z.add_0_l. reflexivity.
Qed.

(** X9. With a history that is not empty, [get_error_statistics] reports the
    number of entries as the total, counts every entry as a failed recovery
    and none as successful, and gives each error kind and each severity the
    number of logged errors that have it, leaving out those with none. *)
Theorem statistics_count_errors (w : World) :
  error_history (self_ w) <> [] ->
  let stats := get_error_statistics w in
  let total := Z.of_nat (length (error_history (self_ w))) in
  exists types sevs,
    entry "total_errors" stats = Some (VInt total)
    /\ entry "recovery_stats" stats
       = Some (VDict [("successful", VInt 0); ("failed", VInt total)])
    /\ entry "error_types" stats = Some (counts_value types)
    /\ entry "severities" stats = Some (counts_value sevs)
    /\ (forall kind,
          get kind types = count_entry (occurrences kind (logged_errors w)))
    /\ (forall value,
          get value sevs = count_entry (with_severity value (logged_errors w))).
Proof.
  intros Hne stats total. subst stats total.
  rewrite (statistics_run w Hne). cbv zeta.
  assert (Hlen : length (logged_errors w) = length (error_history (self_ w)))
    by apply length_fmap.
  rewrite Hlen.
  eexists _, _.
  split; [reflexivity|]. split; [reflexivity|].
  split; [reflexivity|]. split; [reflexivity|]. split.
  - intros kind. rewrite (count_up_all error_type). reflexivity.
  - intros value.
    rewrite (count_up_all (fun e => severity_value (severity e))). reflexivity.
Qed.

Lemma statistics_count_errors_witness :
  exists types sevs,
    entry "total_errors" (get_error_statistics logged_world) = Some (VInt 3)
    /\ entry "recovery_stats" (get_error_statistics logged_world)
       = Some (VDict [("successful", VInt 0); ("failed", VInt 3)])
    /\ entry "error_types" (get_error_statistics logged_world)
       = Some (counts_value types)
    /\ entry "severities" (get_error_statistics logged_world)
       = Some (counts_value sevs)
    /\ (forall kind,
          get kind types
          = count_entry (occurrences kind (logged_errors logged_world)))
    /\ (forall value,
          get value sevs
          = count_entry (with_severity value (logged_errors logged_world))).
Proof. apply (statistics_count_errors logged_world). discriminate. Defined.

(** X10. With a history that is not empty, the most common error that
    [get_error_statistics] reports is a kind that occurs in the history, and
    no kind occurs more often. *)
Theorem statistics_most_common (w : World) :
  error_history (self_ w) <> [] ->
  exists kind,
    entry "most_common_error" (get_error_statistics w) = Some (VStr kind)
    /\ (0 < occurrences kind (logged_errors w))%Z
    /\ forall kind',
         (occurrences kind' (logged_errors w)
          <= occurrences kind (logged_errors w))%Z.
Proof.
  intros Hne. rewrite (statistics_run w Hne). cbv zeta.
  set (errors := logged_errors w).
  set (types := foldl (fun d e => count_up (error_type e) d) [] errors).
  assert (Hcount : forall k, default 0%Z (get k types) = occurrences k errors).
  { intros k. subst types. rewrite (count_up_all error_type).
    change (tallied error_type k errors) with (occurrences k errors).
    destruct (occurrences k errors =? 0)%Z eqn:Hz; [|reflexivity].
    apply Z.eqb_eq in Hz. rewrite Hz. reflexivity. }
  assert (Hfirst : exists e, (0 < occurrences (error_type e) errors)%Z).
  { subst errors. unfold logged_errors.
    destruct (error_history (self_ w)) as [|r history]; [contradiction|].
    exists (heap w !!! r). unfold occurrences. cbn [fmap list_fmap].
    rewrite filter_cons_True by reflexivity. simpl length. lia. }
  destruct Hfirst as [e He].
  destruct (keys types) as [|k ks] eqn:Hkeys.
  - exfalso. pose proof (Hcount (error_type e)) as Hc.
    rewrite get_absent in Hc by (rewrite Hkeys; apply not_elem_of_nil).
    cbn [default] in Hc. lia.
  - destruct (max_by_greatest (fun k => default 0%Z (get k types)) k ks)
      as [Hin Hmax].
    set (best := max_by (fun k => default 0%Z (get k types)) k ks) in *.
    exists best. split; [reflexivity|].
    assert (Hall : forall kind',
              (occurrences kind' errors <= occurrences best errors)%Z).
    { intros kind'. rewrite <- !Hcount.
      destruct (decide (kind' ∈ k :: ks)) as [Hk|Hk].
      - apply (Hmax kind' Hk).
      - rewrite (get_absent kind') by (rewrite Hkeys; exact Hk).
        cbn [default]. rewrite Hcount. unfold occurrences. lia. }
    split; [|exact Hall].
    specialize (Hall (error_type e)). lia.
Qed.

Lemma statistics_most_common_witness :
  exists kind,
    entry "most_common_error" (get_error_statistics logged_world)
      = Some (VStr kind)
    /\ (0 < occurrences kind (logged_errors logged_world))%Z
    /\ forall kind',
         (occurrences kind' (logged_errors logged_world)
          <= occurrences kind (logged_errors logged_world))%Z.
Proof. apply (statistics_most_common logged_world). discriminate. Defined.

Example statistics_of_logged_world :
  get_error_statistics logged_world
  = VDict [("total_errors", VInt 3);
           ("error_types",
            VDict [("timeouterror", VInt 2); ("memoryerror", VInt 1)]);
           ("severities", VDict [("high", VInt 2); ("critical", VInt 1)]);
           ("recovery_stats",
            VDict [("successful", VInt 0); ("failed", VInt 3)]);
           ("most_common_error", VStr "timeouterror")].
Proof. vm_compute. reflexivity. Qed.

(** X11. After [clear_error_history] the statistics report no error, the
    dispatch tables, the bound and the error objects are as they were, and
    the history starts over: after any further errors are logged it holds
    the newest of them, up to the bound. *)
Theorem clear_restarts_history (w : World) (errors : list nat) :
  let w0 := clear_error_history w in
  get_error_statistics w0 = VDict [("total_errors", VInt 0)]
  /\ error_handlers (self_ w0) = error_handlers (self_ w)
  /\ recovery_strategies (self_ w0) = recovery_strategies (self_ w)
  /\ max_history_size (self_ w0) = max_history_size (self_ w)
  /\ heap w0 = heap w
  /\ error_history (self_ (snd (log_all errors w0)))
     = drop (length errors - max_history_size (self_ w)) errors.
Proof.
  intros w0. subst w0.
  split; [reflexivity|]. split; [reflexivity|]. split; [reflexivity|].
  split; [reflexivity|]. split; [reflexivity|].
  destruct (log_all_history errors (clear_error_history w)) as [Hh _].
  - unfold history, bound. cbn. lia.
  - unfold history, bound in Hh. rewrite Hh. reflexivity.
Qed.

End ErrorStatisticsFacts.

Module ReplicationFacts.
Import Eff PyDict PyDictFacts MultiRegion MultiRegionFacts Replication.
#[local] Open Scope eff_scope.

(** A replication that gets as far as the request, when the request does not
    raise past the handler: one POST, and the answer is whether it was
    accepted. *)
Lemma replicate_to_region_run (self : Manager) (region : string) (data : pyval)
    (st : RegionStatus) (timeout : Q) (net : Net) :
  replication_enabled (region_config self) = true ->
  get region (regions self) = Some st ->
  _session self = Some timeout ->
  handled (post_http net (length (posts net)) (replication_post self st data))
    = true ->
  replicate_to_region self region data net
    = (Return (accepted (post_http net (length (posts net))
                           (replication_post self st data))),
       mkNet (posts net ++ [replication_post self st data]) (post_http net)).
Proof.
  intros Hon Hget Hs. unfold replicate_to_region.
  rewrite Hon, Hget, Hs. cbn [negb].
  unfold try_except, bind, session_post. fold (replication_post self st data).
  destruct (post_http net (length (posts net)) (replication_post self st data))
    as [status|e]; cbn [accepted handled]; intros Hhandled;
    [|rewrite Hhandled; reflexivity].
  destruct (status =? 200)%Z; reflexivity.
Qed.

(** A request that raises an exception that is not an [Exception]: the
    replication raises it, after that one POST. *)
Lemma replicate_to_region_passes (self : Manager) (region : string)
    (data : pyval) (st : RegionStatus) (timeout : Q) (net : Net) (e : PyExc) :
  replication_enabled (region_config self) = true ->
  get region (regions self) = Some st ->
  _session self = Some timeout ->
  post_http net (length (posts net)) (replication_post self st data)
    = HttpFailure e ->
  exc_is_exception e = false ->
  replicate_to_region self region data net
    = (Raise e,
       mkNet (posts net ++ [replication_post self st data]) (post_http net)).
Proof.
  intros Hon Hget Hs Hpost Hclass. unfold replicate_to_region.
  rewrite Hon, Hget, Hs. cbn [negb].
  unfold try_except, bind, session_post. fold (replication_post self st data).
  rewrite Hpost, Hclass. reflexivity.
Qed.

Lemma replicate_to_region_refused (self : Manager) (region : string)
    (data : pyval) (net : Net) :
  replication_enabled (region_config self) = false
  \/ get region (regions self) = None \/ _session self = None ->
  replicate_to_region self region data net = (Return false, net).
Proof.
  intros Hguard. unfold replicate_to_region.
  destruct (replication_enabled (region_config self)); [|reflexivity].
  cbn [negb].
  destruct (get region (regions self)); [|reflexivity].
  destruct (_session self); [|reflexivity].
  destruct Hguard as [H|[H|H]]; discriminate H.
Qed.

(** X12. [replicate_to_region] posts nothing and answers [False] when
    replication is disabled, the region is not in the map or no session is
    open. Otherwise it posts exactly one request, to the replication URL of
    the region, with the data as body and the current region as origin, and
    answers [True] exactly when the response has status 200; a request that
    fails with an [Exception] answers [False]. It raises nothing but an
    exception of that request that is not an [Exception]. The manager is
    only read. *)
Theorem replicate_to_region_spec (self : Manager) (region : string)
    (data : pyval) (net : Net) :
  let result := fst (replicate_to_region self region data net) in
  let net' := snd (replicate_to_region self region data net) in
  post_http net' = post_http net
  /\ (replication_enabled (region_config self) = false
      \/ get region (regions self) = None \/ _session self = None ->
      result = Return false /\ posts net' = posts net)
  /\ (forall st,
        replication_enabled (region_config self) = true ->
        get region (regions self) = Some st ->
        _session self <> None ->
        let reply :=
          post_http net (length (posts net)) (replication_post self st data) in
        posts net' = posts net ++ [replication_post self st data]
        /\ (result = Return true <-> reply = HttpResponse 200)
        /\ (handled reply = true -> result = Return (accepted reply))
        /\ (forall e, reply = HttpFailure e -> exc_is_exception e = false ->
            result = Raise e))
  /\ (forall e, result = Raise e ->
        exc_is_exception e = false
        /\ exists st,
             get region (regions self) = Some st
             /\ post_http net (length (posts net)) (replication_post self st data)
                = HttpFailure e).
Proof.
  intros result net'. subst result net'.
  destruct (replication_enabled (region_config self)) eqn:Hon;
    [destruct (get region (regions self)) as [st|] eqn:Hget;
     [destruct (_session self) as [timeout|] eqn:Hs|]|].
  - destruct (handled (post_http net (length (posts net))
                         (replication_post self st data))) eqn:Hhandled.
    + rewrite (replicate_to_region_run self region data st timeout net Hon Hget
                 Hs Hhandled).
      cbn [fst snd posts post_http].
      split; [reflexivity|]. split; [|split].
      * intros [H|[H|H]]; discriminate H.
      * intros st' _ [= <-] _. cbv zeta. split; [reflexivity|].
        split; [|split; [intros _; reflexivity|]].
        -- destruct (post_http net (length (posts net))
                       (replication_post self st data)) as [status|e];
             cbn [accepted].
           ++ destruct (status =? 200)%Z eqn:Hstatus.
              ** apply Z.eqb_eq in Hstatus. subst status. split; reflexivity.
              ** apply Z.eqb_neq in Hstatus.
                 split; [intros H; discriminate H | intros [= ->]; contradiction].
           ++ split; intros H; discriminate H.
        -- intros e He Hclass. rewrite He in Hhandled. cbn [handled] in Hhandled.
           congruence.
      * intros e He. discriminate He.
    + destruct (post_http net (length (posts net))
                  (replication_post self st data)) as [status|e] eqn:Hpost;
        [discriminate Hhandled|]. cbn [handled] in Hhandled.
      rewrite (replicate_to_region_passes self region data st timeout net e Hon
                 Hget Hs Hpost Hhandled).
      cbn [fst snd posts post_http].
      split; [reflexivity|]. split; [|split].
      * intros [H|[H|H]]; discriminate H.
      * intros st' _ [= <-] _. cbv zeta. rewrite Hpost. split; [reflexivity|].
        split; [split; intros H; discriminate H|].
        split; [cbn [handled]; congruence|].
        intros e' [= <-] _. reflexivity.
      * intros e' [= <-]. split; [exact Hhandled|]. exists st.
        split; [reflexivity|exact Hpost].
  - rewrite replicate_to_region_refused by (right; right; exact Hs).
    cbn [fst snd]. split; [reflexivity|]. split; [|split].
    + intros _. split; reflexivity.
    + intros st' _ _ Hsome. contradiction.
    + intros e He. discriminate He.
  - rewrite replicate_to_region_refused by (right; left; exact Hget).
    cbn [fst snd]. split; [reflexivity|]. split; [|split].
    + intros _. split; reflexivity.
    + intros st' _ H. discriminate H.
    + intros e He. discriminate He.
  - rewrite replicate_to_region_refused by (left; exact Hon).
    cbn [fst snd]. split; [reflexivity|]. split; [|split].
    + intros _. split; reflexivity.
    + intros st' H. discriminate H.
    + intros e He. discriminate He.
Qed.

Section ReplicateAll.
Variable self : Manager.
Variable data : pyval.
Hypothesis replication_on : replication_enabled (region_config self) = true.

Lemma replicate_loop_run (targets : list string) (results : PyDict.t bool)
    (net : Net) :
  _session self <> None ->
  Forall (fun region => get region (regions self) <> None) targets ->
  (forall i region, targets !! i = Some region ->
     handled (post_http net (length (posts net) + i)%nat
                (post_for self data region)) = true) ->
  replicate_loop self data targets results net
    = (Return (record_replies self data (post_http net) (length (posts net))
                 targets results),
       mkNet (posts net ++ (post_for self data <$> targets)) (post_http net)).
Proof.
  intros session_open. revert results net.
  induction targets as [|region rest IH]; intros results net Hknown Hhandled.
  - simpl. rewrite app_nil_r. destruct net; reflexivity.
  - apply Forall_cons in Hknown as [Hregion Hrest].
    destruct (get region (regions self)) as [st|] eqn:Hget; [|contradiction].
    destruct (_session self) as [timeout|] eqn:Hs; [|contradiction].
    cbn [replicate_loop]. unfold bind.
    pose proof (Hhandled 0%nat region eq_refl) as Hfirst.
    rewrite Nat.add_0_r in Hfirst. unfold post_for in Hfirst.
    rewrite Hget in Hfirst. cbn [default from_option] in Hfirst.
    unfold id in Hfirst.
    rewrite (replicate_to_region_run self region data st timeout net
               replication_on Hget Hs Hfirst).
    rewrite IH.
    + cbn [posts post_http record_replies fmap list_fmap].
      unfold post_for at 2 3. rewrite Hget. cbn [default]. unfold id.
      rewrite length_app, Nat.add_1_r, <- app_assoc. reflexivity.
    + exact Hrest.
    + intros i r Hi. cbn [posts post_http]. rewrite length_app. cbn [length].
      replace (length (posts net) + 1 + i)%nat
        with (length (posts net) + S i)%nat by lia.
      apply (Hhandled (S i) r Hi).
Qed.

(** A request that raises an exception that is not an [Exception] ends the
    loop: the targets after it are not posted. *)
Lemma replicate_loop_interrupted (targets : list string)
    (results : PyDict.t bool) (net : Net) (i : nat) (region : string)
    (e : PyExc) :
  _session self <> None ->
  Forall (fun region => get region (regions self) <> None) targets ->
  targets !! i = Some region ->
  post_http net (length (posts net) + i)%nat (post_for self data region)
    = HttpFailure e ->
  exc_is_exception e = false ->
  (forall j r, (j < i)%nat -> targets !! j = Some r ->
     handled (post_http net (length (posts net) + j)%nat
                (post_for self data r)) = true) ->
  replicate_loop self data targets results net
    = (Raise e,
       mkNet (posts net ++ (post_for self data <$> take (S i) targets))
         (post_http net)).
Proof.
  intros session_open. revert results net i.
  induction targets as [|r rest IH];
    intros results net i Hknown Hi Hpost Hclass Hbefore; [discriminate Hi|].
  apply Forall_cons in Hknown as [Hregion Hrest].
  destruct (get r (regions self)) as [st|] eqn:Hget; [|contradiction].
  destruct (_session self) as [timeout|] eqn:Hs; [|contradiction].
  assert (Hpost_r : post_for self data r = replication_post self st data).
  { unfold post_for. rewrite Hget. reflexivity. }
  cbn [replicate_loop]. unfold bind.
  destruct i as [|i].
  - injection Hi as ->. rewrite Nat.add_0_r, Hpost_r in Hpost.
    rewrite (replicate_to_region_passes self region data st timeout net e
               replication_on Hget Hs Hpost Hclass).
    cbn [take fmap list_fmap]. rewrite Hpost_r. reflexivity.
  - pose proof (Hbefore 0%nat r (Nat.lt_0_succ i) eq_refl) as Hfirst.
    rewrite Nat.add_0_r, Hpost_r in Hfirst.
    rewrite (replicate_to_region_run self r data st timeout net
               replication_on Hget Hs Hfirst).
    rewrite (IH _ _ i Hrest Hi).
    + cbn [posts post_http take fmap list_fmap].
      rewrite Hpost_r, <- app_assoc. reflexivity.
    + cbn [posts post_http]. rewrite length_app. cbn [length].
      replace (length (posts net) + 1 + i)%nat
        with (length (posts net) + S i)%nat by lia.
      exact Hpost.
    + exact Hclass.
    + intros j r' Hj Hr'. cbn [posts post_http]. rewrite length_app.
      cbn [length].
      replace (length (posts net) + 1 + j)%nat
        with (length (posts net) + S j)%nat by lia.
      apply (Hbefore (S j) r'); [lia|exact Hr'].
Qed.

(** One replication, when no request raises past the handler. *)
Lemma replicate_to_region_returns (region : string) (net : Net) :
  (forall k post, handled (post_http net k post) = true) ->
  exists ok net',
    replicate_to_region self region data net = (Return ok, net')
    /\ post_http net' = post_http net
    /\ (_session self = None \/ get region (regions self) = None ->
        ok = false /\ net' = net).
Proof.
  intros Hhandled.
  destruct (get region (regions self)) as [st|] eqn:Hget;
    [destruct (_session self) as [timeout|] eqn:Hs|].
  - rewrite (replicate_to_region_run self region data st timeout net
               replication_on Hget Hs (Hhandled _ _)).
    eexists _, _. split; [reflexivity|]. split; [reflexivity|].
    intros [H|H]; discriminate H.
  - rewrite replicate_to_region_refused by (right; right; exact Hs).
    exists false, net. repeat split; reflexivity.
  - rewrite replicate_to_region_refused by (right; left; exact Hget).
    exists false, net. repeat split; reflexivity.
Qed.

(** The loop returns when no request raises past the handler, whatever the
    session and the targets are. *)
Lemma replicate_loop_returns (targets : list string) (results : PyDict.t bool)
    (net : Net) :
  (forall k post, handled (post_http net k post) = true) ->
  exists results' net',
    replicate_loop self data targets results net = (Return results', net')
    /\ post_http net' = post_http net
    /\ (_session self = None -> net' = net)
    /\ (forall region, region ∉ targets ->
          get region results' = get region results)
    /\ (forall region, region ∈ targets ->
          get region results' <> None
          /\ (_session self = None \/ get region (regions self) = None ->
              get region results' = Some false)).
Proof.
  revert results net.
  induction targets as [|r rest IH]; intros results net Hhandled.
  - exists results, net. split; [reflexivity|]. split; [reflexivity|].
    split; [reflexivity|]. split; [reflexivity|].
    intros region Hin. apply elem_of_nil in Hin. contradiction.
  - destruct (replicate_to_region_returns r net Hhandled)
      as (ok & net1 & Hrun & Hhttp & Hrefused).
    destruct (IH (set r ok results) net1) as
      (results' & net' & Hloop & Hhttp' & Hclosed & Habsent & Hpresent).
    { intros k post. rewrite Hhttp. apply Hhandled. }
    exists results', net'. cbn [replicate_loop]. unfold bind.
    rewrite Hrun, Hloop. split; [reflexivity|].
    split; [rewrite Hhttp'; exact Hhttp|].
    split; [intros Hs; rewrite (Hclosed Hs);
            apply (proj2 (Hrefused (or_introl Hs)))|].
    split.
    + intros region Hnotin. apply not_elem_of_cons in Hnotin as [Hne Hnotin].
      rewrite (Habsent region Hnotin). apply get_set_ne. congruence.
    + intros region Hin.
      destruct (decide (region ∈ rest)) as [Hrest|Hrest];
        [apply (Hpresent region Hrest)|].
      apply elem_of_cons in Hin as [->|Hin]; [|contradiction].
      rewrite (Habsent r Hrest), get_set_eq. split; [discriminate|].
      intros Hno. rewrite (proj1 (Hrefused Hno)). reflexivity.
Qed.

Lemma record_replies_absent (net : nat -> Post -> HttpOutcome)
    (l : list string) (k : nat)
    (results : PyDict.t bool) (region : string) :
  region ∉ l ->
  get region (record_replies self data net k l results) = get region results.
Proof.
  revert k results. induction l as [|r l IH]; intros k results Hnotin;
    [reflexivity|].
  apply not_elem_of_cons in Hnotin as [Hne Hnotin].
  cbn [record_replies]. rewrite IH by exact Hnotin.
  apply get_set_ne. congruence.
Qed.

Lemma record_replies_last (net : nat -> Post -> HttpOutcome)
    (l : list string) (k : nat)
    (results : PyDict.t bool) (i : nat) (region : string) :
  l !! i = Some region ->
  region ∉ drop (S i) l ->
  get region (record_replies self data net k l results)
    = Some (accepted (net (k + i) (post_for self data region))).
Proof.
  revert k results i. induction l as [|r l IH]; intros k results i Hi Hlast;
    [discriminate|].
  destruct i as [|i]; cbn [record_replies].
  - injection Hi as ->. cbn [drop] in Hlast.
    rewrite record_replies_absent by exact Hlast.
    rewrite Nat.add_0_r. apply get_set_eq.
  - rewrite (IH (S k) _ i) by assumption.
    do 3 f_equal. lia.
Qed.

End ReplicateAll.

(** X13. With replication disabled [replicate_to_all] returns an empty
    mapping and posts nothing. With replication enabled and no request
    raising an exception that is not an [Exception], it returns a mapping
    whose keys are the targets, a target that is not in the region map, or
    any target when no session is open, being mapped to [False] without a
    request. With a session open and every target in the region map, it
    posts one request per target, in the order of the configuration,
    whatever the earlier requests met; the mapping has, for each target,
    whether its (last) request was answered with status 200. A request that
    raises an exception that is not an [Exception] ends the loop:
    [replicate_to_all] raises it, and the later targets are not posted. *)
Theorem replicate_to_all_isolates (self : Manager) (data : pyval) (net : Net) :
  let targets := replication_regions (region_config self) in
  (replication_enabled (region_config self) = false ->
   replicate_to_all self data net = (Return [], net))
  /\ (replication_enabled (region_config self) = true ->
      (forall k post, handled (post_http net k post) = true) ->
      exists results net',
        replicate_to_all self data net = (Return results, net')
        /\ (forall region, get region results <> None <-> region ∈ targets)
        /\ (forall region, region ∈ targets ->
              _session self = None \/ get region (regions self) = None ->
              get region results = Some false)
        /\ (_session self = None -> net' = net))
  /\ (replication_enabled (region_config self) = true ->
      _session self <> None ->
      Forall (fun region => get region (regions self) <> None) targets ->
      (forall i region, targets !! i = Some region ->
         handled (post_http net (length (posts net) + i)%nat
                    (post_for self data region)) = true) ->
      exists results,
        replicate_to_all self data net
          = (Return results,
             mkNet (posts net ++ (post_for self data <$> targets))
               (post_http net))
        /\ (forall i region,
              targets !! i = Some region -> region ∉ drop (S i) targets ->
              get region results
              = Some (accepted (post_http net (length (posts net) + i)
                                  (post_for self data region))))
        /\ (forall region, region ∉ targets -> get region results = None))
  /\ (replication_enabled (region_config self) = true ->
      _session self <> None ->
      Forall (fun region => get region (regions self) <> None) targets ->
      forall i region e,
        targets !! i = Some region ->
        post_http net (length (posts net) + i)%nat (post_for self data region)
          = HttpFailure e ->
        exc_is_exception e = false ->
        (forall j r, (j < i)%nat -> targets !! j = Some r ->
           handled (post_http net (length (posts net) + j)%nat
                      (post_for self data r)) = true) ->
        replicate_to_all self data net
          = (Raise e,
             mkNet (posts net ++ (post_for self data <$> take (S i) targets))
               (post_http net))).
Proof.
  intros targets. subst targets. unfold replicate_to_all.
  split; [|split; [|split]].
  - intros ->. reflexivity.
  - intros Hon Hhandled. rewrite Hon. cbn [negb].
    destruct (replicate_loop_returns self data Hon
                (replication_regions (region_config self)) [] net Hhandled)
      as (results & net' & -> & _ & Hclosed & Habsent & Hpresent).
    exists results, net'. split; [reflexivity|]. split; [|split].
    + intros region. split.
      * intros Hsome.
        destruct (decide (region ∈ replication_regions (region_config self)))
          as [Hin|Hnotin]; [exact Hin|].
        rewrite (Habsent region Hnotin) in Hsome. contradiction.
      * intros Hin. apply (Hpresent region Hin).
    + intros region Hin. apply (Hpresent region Hin).
    + exact Hclosed.
  - intros Hon Hs Hknown Hhandled. rewrite Hon. cbn [negb].
    rewrite (replicate_loop_run self data Hon) by assumption.
    eexists. split; [reflexivity|]. split.
    + intros i region Hi Hlast. apply record_replies_last; assumption.
    + intros region Hnotin.
      rewrite record_replies_absent by exact Hnotin. reflexivity.
  - intros Hon Hs Hknown i region e Hi Hpost Hclass Hbefore.
    rewrite Hon. cbn [negb].
    apply (replicate_loop_interrupted self data Hon _ _ _ i region e);
      assumption.
Qed.

Lemma replicate_to_region_spec_witness :
  posts (snd (replicate_to_region replicating "us" (VStr "payload")
                second_post_fails))
    = [mkPost "https://ghidrainsight-us.example.com/api/replicate"
         (VStr "payload") "eu"]
  /\ fst (replicate_to_region replicating "us" (VStr "payload")
            second_post_fails) = Return true.
Proof.
  destruct (replicate_to_region_spec replicating "us" (VStr "payload")
              second_post_fails) as (_ & _ & Hpost & _).
  destruct (Hpost (initial_status "us")) as (Hposts & Hresult & _);
    [reflexivity | reflexivity | discriminate |].
  split; [exact Hposts | apply Hresult; reflexivity].
Defined.

Lemma replicate_to_all_isolates_witness :
  exists results net',
    replicate_to_all replicating (VStr "payload") second_post_fails
      = (Return results, net')
    /\ length (posts net') = 3%nat
    /\ get "us" results = Some true
    /\ get "ap" results = Some false
    /\ get "sa" results = Some true.
Proof.
  destruct (replicate_to_all_isolates replicating (VStr "payload")
              second_post_fails) as (_ & _ & Hall & _).
  destruct Hall as (results & Hrun & Hlast & _).
  - reflexivity.
  - discriminate.
  - repeat constructor; discriminate.
  - intros i region _. cbn [post_http second_post_fails].
    destruct (length (posts second_post_fails) + i =? 1)%nat; reflexivity.
  - exists results. eexists. split; [exact Hrun|].
    split; [reflexivity|].
    split; [|split].
    + apply (Hlast 0%nat "us" eq_refl).
      repeat (apply not_elem_of_cons; split; [discriminate|]).
      apply not_elem_of_nil.
    + apply (Hlast 1%nat "ap" eq_refl).
      repeat (apply not_elem_of_cons; split; [discriminate|]).
      apply not_elem_of_nil.
    + apply (Hlast 2%nat "sa" eq_refl). apply not_elem_of_nil.
Defined.

(** *** Sessions *)

(** X14. [close] drops the session and nothing else, and closing twice is
    closing once. After [close] a health check answers [False] without any
    request and without touching a status, and a replication answers [False]
    without posting, until [initialize] opens a session again. *)
Theorem close_stops_requests (self : Manager) (region : string) (data : pyval)
    (w : World) (net : Net) :
  _session (close self) = None
  /\ region_config (close self) = region_config self
  /\ regions (close self) = regions self
  /\ close (close self) = close self
  /\ (self_ w = close self ->
      check_region_health region w = (Return false, w))
  /\ replicate_to_region (close self) region data net = (Return false, net)
  /\ (enabled (region_config self) = true ->
      _session (initialize (close self))
        = Some (cross_region_timeout (region_config self))).
Proof.
  assert (Hnone : _session (close self) = None)
    by (unfold close; destruct (_session self) eqn:Hs; [reflexivity | exact Hs]).
  split; [exact Hnone|].
  split; [unfold close; destruct (_session self); reflexivity|].
  split; [unfold close; destruct (_session self); reflexivity|].
  split; [unfold close at 1; rewrite Hnone; reflexivity|].
  split.
  - intros Hself. apply check_region_health_guard. left. rewrite Hself.
    exact Hnone.
  - split.
    + apply replicate_to_region_refused. right. right. exact Hnone.
    + intros Hon. unfold initialize.
      assert (Hcfg : region_config (close self) = region_config self)
        by (unfold close; destruct (_session self); reflexivity).
      rewrite Hcfg, Hon. reflexivity.
Qed.

Lemma close_stops_requests_witness :
  check_region_health "us"
    (mkWorld (close replicating) [] (fun _ _ => HttpResponse 200)
       (fun k => inject_Z (Z.of_nat k)) 0 0)
  = (Return false,
     mkWorld (close replicating) [] (fun _ _ => HttpResponse 200)
       (fun k => inject_Z (Z.of_nat k)) 0 0).
Proof.
  destruct (close_stops_requests replicating "us" VNone
              (mkWorld (close replicating) [] (fun _ _ => HttpResponse 200)
                 (fun k => inject_Z (Z.of_nat k)) 0 0) second_post_fails)
    as (_ & _ & _ & _ & Hcheck & _).
  apply Hcheck. reflexivity.
Defined.

(** *** The region map *)

Lemma get_keys {V} (k : string) (d : PyDict.t V) :
  get k d <> None <-> k ∈ keys d.
Proof.
  unfold keys. induction d as [|[k' v] d IH]; simpl.
  - split; [congruence | intros H; apply elem_of_nil in H; contradiction].
  - destruct (String.eqb k k') eqn:Hk.
    + apply String.eqb_eq in Hk. subst k'.
      split; [intros _; apply list_elem_of_here | discriminate].
    + apply String.eqb_neq in Hk. rewrite IH. split.
      * intros Hin. apply list_elem_of_further, Hin.
      * intros Hin. apply elem_of_cons in Hin as [Heq|Hin];
          [contradiction | exact Hin].
Qed.

Lemma keys_set {V} (k : string) (v : V) (d : PyDict.t V) :
  keys (set k v d) = if mem k d then keys d else keys d ++ [k].
Proof.
  induction d as [|[k' v'] d IH]; [reflexivity|].
  unfold mem in *. cbn [set get].
  destruct (String.eqb k k') eqn:Hk; [reflexivity|].
  change (keys ((k', v') :: set k v d)) with (k' :: keys (set k v d)).
  rewrite IH. destruct (get k d); reflexivity.
Qed.

Lemma get_elem_of {V} (k : string) (v : V) (d : PyDict.t V) :
  get k d = Some v -> (k, v) ∈ d.
Proof.
  induction d as [|[k' v'] d IH]; simpl; [discriminate|].
  destruct (String.eqb k k') eqn:Hk.
  - apply String.eqb_eq in Hk. subst k'. intros [= ->]. apply list_elem_of_here.
  - intros Hget. apply list_elem_of_further, IH, Hget.
Qed.

Lemma fill_get (l : list string) (d : PyDict.t RegionStatus) (r : string) :
  get r (fill d l)
    = if decide (r ∈ l) then Some (initial_status r) else get r d.
Proof.
  revert d. induction l as [|x l IH]; intros d.
  - simpl. destruct (decide (r ∈ [])) as [Hin|_]; [|reflexivity].
    apply elem_of_nil in Hin. contradiction.
  - unfold fill in *. cbn [foldl]. rewrite IH.
    destruct (decide (r ∈ l)) as [Hin|Hnotin].
    + rewrite decide_True by (apply list_elem_of_further, Hin). reflexivity.
    + destruct (decide (r = x)) as [->|Hne].
      * rewrite decide_True by apply list_elem_of_here.
        rewrite get_set_eq. reflexivity.
      * rewrite decide_False
          by (intros Hin; apply elem_of_cons in Hin as [?|?]; contradiction).
        apply get_set_ne. congruence.
Qed.

Lemma fill_keys (l : list string) (d : PyDict.t RegionStatus) :
  NoDup (keys d) ->
  NoDup (keys (fill d l))
  /\ (NoDup l -> (forall r, r ∈ l -> r ∉ keys d) -> keys (fill d l) = keys d ++ l).
Proof.
  revert d. induction l as [|x l IH]; intros d Hnodup.
  - simpl. rewrite app_nil_r. split; [exact Hnodup | reflexivity].
  - unfold fill in *. cbn [foldl].
    set (d' := set x (mkRegionStatus x (_get_region_url x) false 0 None None) d).
    assert (Hkeys : keys d' = if mem x d then keys d else keys d ++ [x])
      by apply keys_set.
    assert (Hnodup' : NoDup (keys d')).
    { rewrite Hkeys. unfold mem. destruct (get x d) eqn:Hget; [exact Hnodup|].
      apply NoDup_app. split; [exact Hnodup|]. split.
      - intros y Hy Hx. apply list_elem_of_singleton in Hx. subst y.
        apply get_keys in Hy. contradiction.
      - apply NoDup_singleton. }
    destruct (IH d' Hnodup') as [Hnd Heq]. split; [exact Hnd|].
    intros Hl Hfresh. apply NoDup_cons in Hl as [Hx Hl].
    rewrite Heq.
    + rewrite Hkeys. unfold mem.
      destruct (get x d) eqn:Hget.
      * exfalso. apply (Hfresh x (list_elem_of_here _ _)).
        apply get_keys. congruence.
      * rewrite <- app_assoc. reflexivity.
    + exact Hl.
    + intros r Hr Hin. rewrite Hkeys in Hin. unfold mem in Hin.
      destruct (get x d).
      * apply (Hfresh r); [apply list_elem_of_further, Hr | exact Hin].
      * apply elem_of_app in Hin as [Hin|Hin].
        -- apply (Hfresh r); [apply list_elem_of_further, Hr | exact Hin].
        -- apply list_elem_of_singleton in Hin. subst r. contradiction.
Qed.

Lemma fill_unhealthy (l : list string) (d : PyDict.t RegionStatus) :
  Forall (fun item => healthy (snd item) = false) d ->
  Forall (fun item => healthy (snd item) = false) (fill d l).
Proof.
  revert d. induction l as [|x l IH]; intros d Hall; [exact Hall|].
  unfold fill in *. cbn [foldl]. apply IH.
  clear IH. induction d as [|[k v] d IHd]; simpl.
  - constructor; [reflexivity | constructor].
  - apply Forall_cons in Hall as [Hhd Htl].
    destruct (String.eqb x k); constructor; try assumption;
      [reflexivity | apply IHd, Htl].
Qed.

(** X15. A newly constructed manager has no session. With multi-region
    support disabled its region map is empty. With it enabled the map has
    exactly one status for each configured region, unhealthy, with latency 0,
    no error, and the URL [https://ghidrainsight-<region>.example.com]; its
    keys are distinct and, when the configuration lists no region twice,
    in the order of the configuration. As no region is healthy yet,
    [get_best_region] answers the current region. *)
Theorem init_statuses (config : RegionConfig) :
  let self := __init__ config in
  _session self = None
  /\ region_config self = config
  /\ (enabled config = false -> regions self = [])
  /\ (enabled config = true ->
      (forall r, get r (regions self)
                 = if decide (r ∈ regions_ config) then Some (initial_status r)
                   else None)
      /\ NoDup (keys (regions self))
      /\ (NoDup (regions_ config) -> keys (regions self) = regions_ config))
  /\ get_best_region self = current_region config.
Proof.
  intros self. subst self. unfold __init__, _initialize_regions.
  cbn [region_config regions _session].
  destruct (enabled config) eqn:Hon; cbn [negb region_config regions _session].
  - fold (fill [] (regions_ config)).
    split; [reflexivity|]. split; [reflexivity|].
    split; [discriminate|]. split.
    + intros _. split; [|split].
      * intros r. rewrite fill_get. reflexivity.
      * apply (fill_keys (regions_ config) []). constructor.
      * intros Hl.
        destruct (fill_keys (regions_ config) []) as [_ Heq]; [constructor|].
        rewrite Heq; [reflexivity | exact Hl |].
        intros r _ Hin. apply elem_of_nil in Hin. exact Hin.
    + unfold get_best_region. cbn [region_config regions]. rewrite Hon.
      cbn [negb]. fold healthy_pair.
      assert (Hnone : omap healthy_pair (fill [] (regions_ config)) = []).
      { apply omap_healthy_nil, fill_unhealthy. constructor. }
      rewrite Hnone. reflexivity.
  - split; [reflexivity|]. split; [reflexivity|].
    split; [reflexivity|]. split; [discriminate|].
    unfold get_best_region. cbn [region_config]. rewrite Hon. reflexivity.
Qed.

Lemma init_statuses_witness :
  get "us" (regions (__init__
     (mkRegionConfig true ["eu"; "us"; "eu"] "eu" None false [] 30)))
    = Some (initial_status "us")
  /\ NoDup (keys (regions (__init__
       (mkRegionConfig true ["eu"; "us"; "eu"] "eu" None false [] 30)))).
Proof.
  destruct (init_statuses
              (mkRegionConfig true ["eu"; "us"; "eu"] "eu" None false [] 30))
    as (_ & _ & _ & Hon & _).
  destruct (Hon eq_refl) as (Hget & Hnodup & _).
  split; [|exact Hnodup].
  rewrite Hget. apply decide_True.
  apply list_elem_of_further, list_elem_of_here.
Defined.

(** X16. [check_region_health] changes nothing but the status of the region
    it checks: the configuration, the session, the keys of the region map and
    their order, and the status of every other region are as before. For a
    region that is not in the map it sends no request and changes nothing at
    all. It raises nothing but an exception of its request that is not an
    [Exception], and then it leaves every status as it was. *)
Theorem check_region_health_frame (region : string) (w : World) :
  let result := fst (check_region_health region w) in
  let w' := snd (check_region_health region w) in
  ((exists b, result = Return b)
   \/ (exists e st,
         result = Raise e
         /\ exc_is_exception e = false
         /\ get region (regions (self_ w)) = Some st
         /\ http w (length (requests w)) (url st +:+ "/health") = HttpFailure e
         /\ self_ w' = self_ w))
  /\ region_config (self_ w') = region_config (self_ w)
  /\ _session (self_ w') = _session (self_ w)
  /\ keys (regions (self_ w')) = keys (regions (self_ w))
  /\ (forall other, other <> region ->
        get other (regions (self_ w')) = get other (regions (self_ w)))
  /\ (get region (regions (self_ w)) = None -> result = Return false /\ w' = w).
Proof.
  intros result w'. subst result w'.
  destruct (_session (self_ w)) as [timeout|] eqn:Hs;
    [destruct (get region (regions (self_ w))) as [st|] eqn:Hg|].
  - destruct (check_region_health_cases region w timeout st Hs Hg)
      as [[_ ->]|(e & Hhttp & Hclass & ->)];
      cbn [fst snd self_ region_config regions _session].
    + split; [left; eauto|]. split; [reflexivity|]. split; [exact Hs|].
      split.
      * rewrite keys_set. unfold mem. rewrite Hg. reflexivity.
      * split; [|discriminate].
        intros other Hne. apply get_set_ne. congruence.
    + split; [right; exists e, st; repeat split; assumption|].
      split; [reflexivity|]. split; [exact Hs|]. split; [reflexivity|].
      split; [reflexivity|discriminate].
  - rewrite check_region_health_guard by (right; exact Hg).
    cbn [fst snd]. split; [left; eauto|]. repeat split; rewrite ?Hs; reflexivity.
  - rewrite check_region_health_guard by (left; exact Hs).
    cbn [fst snd]. split; [left; eauto|]. repeat split; rewrite ?Hs; reflexivity.
Qed.

Lemma check_region_health_frame_witness :
  fst (check_region_health "mars" with_session) = Return false
  /\ snd (check_region_health "mars" with_session) = with_session.
Proof.
  destruct (check_region_health_frame "mars" with_session)
    as (_ & _ & _ & _ & _ & Hunknown).
  apply Hunknown. reflexivity.
Defined.

(** Among the healthy regions of an enabled manager, [get_best_region] is the
    first of least latency. *)
Lemma best_region_among_healthy (self : Manager) :
  enabled (region_config self) = true ->
  Exists (fun item => healthy (snd item) = true) (regions self) ->
  exists before status after,
    regions self = before ++ (get_best_region self, status) :: after
    /\ healthy status = true
    /\ Forall (fun item => healthy (snd item) = true ->
                 (latency_ms status < latency_ms (snd item))%Q) before
    /\ Forall (fun item => healthy (snd item) = true ->
                 (latency_ms status <= latency_ms (snd item))%Q) after.
Proof.
  intros Hon Hsome. unfold get_best_region. fold healthy_pair.
  rewrite Hon. cbn [negb].
  destruct (omap healthy_pair (regions self)) as [|x l] eqn:Hpairs.
  { apply omap_healthy_nil in Hpairs.
    apply Exists_exists in Hsome as (item & Hin & Hh).
    rewrite Forall_forall in Hpairs. apply Hpairs in Hin. congruence. }
  destruct (min_by_first_least snd x l)
    as (before & after & Hsplit & Hbefore & Hafter).
  rewrite Hsplit in Hpairs.
  apply omap_split in Hpairs
    as (l1 & [r status] & l2 & Hregions & H1 & Hbest & H2).
  simpl in Hbest. destruct (healthy status) eqn:Hh; [|discriminate].
  injection Hbest as Hbest. rewrite <- Hbest in *. simpl in *.
  exists l1, status, l2. split; [exact Hregions|]. split; [exact Hh|].
  rewrite <- H1 in Hbefore. rewrite <- H2 in Hafter.
  split; apply omap_healthy_Forall; assumption.
Qed.

(** X17. Once a health check has answered [True], [get_best_region] answers
    a region of the map that is healthy and whose recorded latency is at most
    the latency that check measured: the manager does not fall back to the
    current region, and prefers the checked region unless another healthy one
    is at least as fast. *)
Theorem healthy_check_feeds_best_region (region : string) (w : World) :
  enabled (region_config (self_ w)) = true ->
  fst (check_region_health region w) = Return true ->
  let self' := self_ (snd (check_region_health region w)) in
  exists status,
    (get_best_region self', status) ∈ regions self'
    /\ healthy status = true
    /\ (latency_ms status <= measured_latency w)%Q.
Proof.
  intros Hon Htrue self'. subst self'.
  destruct (_session (self_ w)) as [timeout|] eqn:Hs;
    [destruct (get region (regions (self_ w))) as [st|] eqn:Hg|].
  2: { rewrite check_region_health_guard in Htrue by (right; exact Hg).
       discriminate Htrue. }
  2: { rewrite check_region_health_guard in Htrue by (left; exact Hs).
       discriminate Htrue. }
  destruct (check_region_health_cases region w timeout st Hs Hg)
    as [[_ Hrun]|(e & _ & _ & Hrun)]; rewrite Hrun in *;
    [|discriminate Htrue].
  cbn [fst snd self_] in *.
  injection Htrue as Hhealthy.
  set (self' := mkManager _ _ _).
  assert (Hlat : latency_ms (status_after w st) = measured_latency w).
  { unfold status_after in *.
    destruct (http w (length (requests w)) (url st +:+ "/health")) as [s|e];
      [|discriminate Hhealthy].
    destruct (s =? 200)%Z; [reflexivity | discriminate Hhealthy]. }
  assert (Hin : (region, status_after w st) ∈ regions self').
  { apply get_elem_of. subst self'. cbn [regions]. apply get_set_eq. }
  destruct (best_region_among_healthy self') as
    (before & status & after & Hsplit & Hh & Hbefore & Hafter).
  - exact Hon.
  - apply Exists_exists. exists (region, status_after w st).
    split; [exact Hin | exact Hhealthy].
  - exists status. split; [|split; [exact Hh|]].
    + rewrite Hsplit. apply elem_of_app. right. apply list_elem_of_here.
    + rewrite <- Hlat. rewrite Hsplit in Hin.
      apply elem_of_app in Hin as [Hin|Hin].
      * rewrite Forall_forall in Hbefore.
        apply Qlt_le_weak, (Hbefore _ Hin Hhealthy).
      * apply elem_of_cons in Hin as [Heq|Hin].
        -- injection Heq as _ <-. apply Qle_refl.
        -- rewrite Forall_forall in Hafter. apply (Hafter _ Hin Hhealthy).
Qed.

Lemma healthy_check_feeds_best_region_witness :
  exists status,
    (get_best_region (self_ (snd (check_region_health "eu-west" answering_200))),
     status)
      ∈ regions (self_ (snd (check_region_health "eu-west" answering_200)))
    /\ healthy status = true
    /\ (latency_ms status <= measured_latency answering_200)%Q.
Proof.
  apply (healthy_check_feeds_best_region "eu-west" answering_200);
    reflexivity.
Defined.

End ReplicationFacts.

Module ChunkTasksFacts.
Import Eff PyDict PyDictFacts DistributedTasks DistributedTasksFacts ChunkTasks.
#[local] Open Scope eff_scope.

(** X18. On an empty feature list [analyze_binary_chunk] does not run the
    engine and returns the failure envelope of an [IndexError]. Otherwise it
    runs the engine exactly once, on the first feature only: when that run
    returns, the envelope has [success] true and [results] holds that single
    feature with its result, the further features being listed but not
    analysed; when it raises an [Exception], the envelope has the offset, the
    error text and [success] false; when it raises an exception that is not
    an [Exception], the task raises it. *)
Theorem chunk_runs_first_feature_only (engine : Engine)
    (binary_chunk : list Byte.byte) (offset : Z) (features : list string)
    (w : World) :
  let run := analyze_binary_chunk engine binary_chunk offset features w in
  (features = [] ->
   run = (Return (chunk_failure offset index_error), w))
  /\ (forall first rest, features = first :: rest ->
        snd run = w ++ [first]
        /\ match engine (length w) first binary_chunk with
           | Return result =>
               exists envelope,
                 fst run = Return envelope
                 /\ success envelope = Some (VBool true)
                 /\ results envelope = Some [(first, result)]
                 /\ entry_of "offset" envelope = Some (VInt offset)
                 /\ entry_of "chunk_size" envelope
                    = Some (VInt (Z.of_nat (length binary_chunk)))
           | Raise e =>
               fst run = if exc_is_exception e
                         then Return (chunk_failure offset e) else Raise e
           end).
Proof.
  intros run. subst run. unfold analyze_binary_chunk. split.
  - intros ->. reflexivity.
  - intros first rest ->.
    unfold try_except, bind, _run_feature_analysis. cbn [ret].
    destruct (engine (length w) first binary_chunk) as [result|e];
      [|destruct (exc_is_exception e)];
      cbn [fst snd]; (split; [reflexivity|]); try reflexivity.
    eexists. split; [reflexivity|].
    repeat split; reflexivity.
Qed.

Lemma chunk_runs_first_feature_only_witness :
  analyze_binary_chunk fails_on_b [] 4096 [] []
    = (Return (chunk_failure 4096 index_error), [])
  /\ snd (analyze_binary_chunk fails_on_b [] 4096 ["a"; "b"] []) = ["a"]
  /\ (exists envelope,
        fst (analyze_binary_chunk fails_on_b [] 4096 ["a"; "b"] [])
          = Return envelope
        /\ success envelope = Some (VBool true)
        /\ results envelope = Some [("a", VStr "ok")]
        /\ entry_of "offset" envelope = Some (VInt 4096)
        /\ entry_of "chunk_size" envelope = Some (VInt 0))
  /\ fst (analyze_binary_chunk fails_on_b [] 4096 ["b"; "a"] [])
     = Return (chunk_failure 4096
                 (mkExc "ValueError" "unsupported feature" EmptyString true)).
Proof.
  split; [|split; [|split]].
  - apply (proj1 (chunk_runs_first_feature_only fails_on_b [] 4096 [] [])).
    reflexivity.
  - apply (proj2 (chunk_runs_first_feature_only fails_on_b [] 4096 ["a"; "b"] [])
             "a" ["b"] eq_refl).
  - apply (proj2 (chunk_runs_first_feature_only fails_on_b [] 4096 ["a"; "b"] [])
             "a" ["b"] eq_refl).
  - apply (proj2 (chunk_runs_first_feature_only fails_on_b [] 4096 ["b"; "a"] [])
             "b" ["a"] eq_refl).
Defined.

(** X19. On a single feature the two dispatch modes run the engine the same
    way, once. When the engine returns they report the same [results]
    mapping with [success] true. When the engine raises an [Exception] they
    differ: chunk mode reports [success] false and no results, feature mode
    reports [success] true with the error recorded under the feature. When
    the engine raises an exception that is not an [Exception], both raise
    it. *)
Theorem single_feature_modes (engine : Engine) (data : list Byte.byte)
    (offset : Z) (feature : string) (w : World) :
  let chunk := analyze_binary_chunk engine data offset [feature] w in
  let parallel := analyze_binary_parallel engine data (of_list [feature]) w in
  snd chunk = w ++ [feature] /\ snd parallel = w ++ [feature]
  /\ match engine (length w) feature data with
     | Return result =>
         exists chunk_envelope parallel_envelope,
           fst chunk = Return chunk_envelope
           /\ fst parallel = Return parallel_envelope
           /\ success chunk_envelope = Some (VBool true)
           /\ success parallel_envelope = Some (VBool true)
           /\ results chunk_envelope = Some [(feature, result)]
           /\ results parallel_envelope = Some [(feature, result)]
     | Raise e =>
         if exc_is_exception e
         then exists chunk_envelope parallel_envelope,
                fst chunk = Return chunk_envelope
                /\ fst parallel = Return parallel_envelope
                /\ success chunk_envelope = Some (VBool false)
                /\ success parallel_envelope = Some (VBool true)
                /\ results chunk_envelope = None
                /\ results parallel_envelope
                   = Some [(feature, VDict [("error", VStr (exc_str e))])]
         else fst chunk = Raise e /\ fst parallel = Raise e
     end.
Proof.
  intros chunk parallel. subst chunk parallel.
  unfold analyze_binary_chunk, analyze_binary_parallel.
  cbn [of_list feature_loop items].
  unfold try_except, bind, _run_feature_analysis. cbn [ret].
  destruct (engine (length w) feature data) as [result|e];
    [|destruct (exc_is_exception e) eqn:Hclass]; cbn [fst snd].
  - split; [reflexivity|]. split; [reflexivity|].
    eexists _, _. repeat split; reflexivity.
  - split; [reflexivity|]. split; [reflexivity|].
    eexists _, _. repeat split; reflexivity.
  - rewrite Hclass. repeat split; reflexivity.
Qed.

End ChunkTasksFacts.

Module StringAnalyzerFacts.
Import PyStr PyStrFacts StringAnalyzer.

Lemma printable_ascii (b : Byte.byte) :
  printable b = true -> (Byte.to_N b < 128)%N.
Proof.
  unfold printable. intros H. apply andb_true_iff in H as [_ H].
  apply N.leb_le in H. lia.
Qed.

Lemma decode_printable (run : list Byte.byte) :
  Forall (fun b => printable b = true) run ->
  decode_ascii run = String.string_of_list_byte run.
Proof.
  intros Hall. unfold decode_ascii. f_equal.
  induction Hall as [|b run Hb _ IH]; [reflexivity|].
  rewrite filter_cons_True by (apply printable_ascii, Hb). f_equal. exact IH.
Qed.

Lemma keep_app (config : Config) (current : list Byte.byte)
    (strings : list string) :
  keep config current strings = strings ++ keep config current [].
Proof.
  unfold keep. destruct (_ <=? _)%Z; [reflexivity | rewrite app_nil_r; reflexivity].
Qed.

(** The strings found so far are only ever appended to. *)
Lemma extract_loop_app (config : Config) (data current : list Byte.byte)
    (strings : list string) :
  extract_loop config data current strings
    = strings ++ extract_loop config data current [].
Proof.
  revert current strings. induction data as [|byte rest IH]; intros current strings.
  - apply keep_app.
  - cbn [extract_loop]. destruct (printable byte).
    + apply IH.
    + rewrite IH, (IH [] (keep config current [])), app_assoc.
      rewrite <- keep_app. reflexivity.
Qed.

(** A byte that is not printable ends the scan of what precedes it just as
    the end of the data would. *)
Lemma extract_loop_separator (config : Config) (a b current : list Byte.byte)
    (sep : Byte.byte) (strings : list string) :
  printable sep = false ->
  extract_loop config (a ++ sep :: b) current strings
    = extract_loop config b [] (extract_loop config a current strings).
Proof.
  intros Hsep. revert current strings.
  induction a as [|byte a IH]; intros current strings.
  - cbn [app extract_loop]. rewrite Hsep. reflexivity.
  - cbn [app extract_loop]. destruct (printable byte); apply IH.
Qed.

Lemma extract_loop_printable (config : Config) (run rest current : list Byte.byte)
    (strings : list string) :
  Forall (fun b => printable b = true) run ->
  extract_loop config (run ++ rest) current strings
    = extract_loop config rest (current ++ run) strings.
Proof.
  intros Hall. revert current.
  induction Hall as [|b run Hb _ IH]; intros current.
  - rewrite app_nil_r. reflexivity.
  - cbn [app extract_loop]. rewrite Hb, IH, <- app_assoc. reflexivity.
Qed.

(** X20. Splitting at a byte that is not printable: the strings extracted
    from data that contain such a byte are the strings extracted from what
    precedes it followed by the strings extracted from what follows it. *)
Theorem extract_strings_splits (config : Config) (a b : list Byte.byte)
    (sep : Byte.byte) :
  printable sep = false ->
  _extract_strings config (a ++ sep :: b)
    = _extract_strings config a ++ _extract_strings config b.
Proof.
  intros Hsep. unfold _extract_strings.
  rewrite (extract_loop_separator config a b [] sep [] Hsep).
  apply extract_loop_app.
Qed.

(** X21. On data whose bytes are all printable [_extract_strings] returns
    the whole data as one string when it has at least [min_string_length]
    bytes (4 unless configured), and nothing otherwise; in particular
    nothing on empty data with a positive minimum. *)
Theorem extract_strings_printable (config : Config) (data : list Byte.byte) :
  Forall (fun b => printable b = true) data ->
  _extract_strings config data
    = if (config_get config "min_string_length" 4 <=? Z.of_nat (length data))%Z
      then [String.string_of_list_byte data] else [].
Proof.
  intros Hall. unfold _extract_strings.
  rewrite <- (app_nil_r data) at 1.
  rewrite (extract_loop_printable config data [] [] [] Hall).
  cbn [app extract_loop]. unfold keep.
  rewrite (decode_printable data Hall). reflexivity.
Qed.

Lemma extract_loop_runs (config : Config) (total : list Byte.byte)
    (data current pre : list Byte.byte) (strings : list string) :
  total = pre ++ current ++ data ->
  Forall (fun b => printable b = true) current ->
  (pre = [] \/ exists pre' b, pre = pre' ++ [b] /\ printable b = false) ->
  Forall (long_run_of config total) strings ->
  Forall (long_run_of config total) (extract_loop config data current strings).
Proof.
  revert current pre strings.
  induction data as [|byte rest IH]; intros current pre strings Htotal Hcur Hpre Hall.
  - cbn [extract_loop]. unfold keep.
    destruct (_ <=? _)%Z eqn:Hlen; [|exact Hall].
    apply Forall_app. split; [exact Hall|]. constructor; [|constructor].
    exists pre, current, []. apply Z.leb_le in Hlen.
    repeat split; try assumption.
    + apply decode_printable, Hcur.
    + left. reflexivity.
  - cbn [extract_loop]. destruct (printable byte) eqn:Hbyte.
    + apply (IH (current ++ [byte]) pre); try assumption.
      * rewrite Htotal, <- !app_assoc. reflexivity.
      * apply Forall_app. split; [exact Hcur|]. constructor; [exact Hbyte|].
        constructor.
    + apply (IH [] (pre ++ current ++ [byte])).
      * rewrite Htotal, <- !app_assoc. reflexivity.
      * constructor.
      * right. exists (pre ++ current), byte.
        rewrite <- !app_assoc. split; [reflexivity | exact Hbyte].
      * unfold keep. destruct (_ <=? _)%Z eqn:Hlen; [|exact Hall].
        apply Forall_app. split; [exact Hall|]. constructor; [|constructor].
        exists pre, current, (byte :: rest). apply Z.leb_le in Hlen.
        repeat split; try assumption.
        -- apply decode_printable, Hcur.
        -- right. exists byte, rest. split; [reflexivity | exact Hbyte].
Qed.

(** X22. Every string [_extract_strings] returns is the decoding of a run of
    printable bytes (32 to 126) of the data that has at least
    [min_string_length] bytes and is maximal: it starts the data or follows
    a byte that is not printable, and ends the data or precedes such a byte. *)
Theorem extract_strings_are_long_runs (config : Config) (data : list Byte.byte) :
  Forall (long_run_of config data) (_extract_strings config data).
Proof.
  unfold _extract_strings.
  apply (extract_loop_runs config data data [] []);
    [reflexivity | constructor | left; reflexivity | constructor].
Qed.

Lemma extract_strings_splits_witness :
  _extract_strings default_config
    ([Byte.x70; Byte.x61; Byte.x73; Byte.x73] ++ Byte.x00
       :: [Byte.x6b; Byte.x65; Byte.x79])
  = _extract_strings default_config [Byte.x70; Byte.x61; Byte.x73; Byte.x73]
    ++ _extract_strings default_config [Byte.x6b; Byte.x65; Byte.x79].
Proof. apply extract_strings_splits. reflexivity. Defined.

Lemma extract_strings_printable_witness :
  _extract_strings default_config [Byte.x70; Byte.x61; Byte.x73; Byte.x73]
    = ["pass"].
Proof.
  apply (extract_strings_printable default_config
           [Byte.x70; Byte.x61; Byte.x73; Byte.x73]).
  repeat constructor.
Defined.

(** *** Suspicious keywords *)

Lemma lower_ascii_idempotent (c : ascii) :
  lower_ascii (lower_ascii c) = lower_ascii c.
Proof. destruct c as [[] [] [] [] [] [] [] []]; reflexivity. Qed.

Lemma lower_idempotent (s : string) : lower (lower s) = lower s.
Proof.
  induction s as [|c s IH]; [reflexivity|].
  cbn [lower]. rewrite lower_ascii_idempotent, IH. reflexivity.
Qed.

(** X23. The findings of [_check_suspicious] are exactly one finding, of
    type "suspicious_string" and severity "low", for each string and each of
    the twelve keywords that occurs in the lower-cased string. So there is
    no finding exactly when no keyword occurs in any string, whatever the
    case of its letters. *)
Theorem suspicious_findings (strings : list string) (finding : pyval) :
  (finding ∈ _check_suspicious strings
   <-> exists s keyword,
         s ∈ strings /\ keyword ∈ suspicious_keywords
         /\ occurs keyword (lower s)
         /\ finding = suspicious_finding keyword)
  /\ (_check_suspicious strings = []
      <-> forall s keyword,
            s ∈ strings -> keyword ∈ suspicious_keywords ->
            ~ occurs keyword (lower s)).
Proof.
  assert (Hmem : forall f,
            f ∈ _check_suspicious strings
            <-> exists s keyword,
                  s ∈ strings /\ keyword ∈ suspicious_keywords
                  /\ occurs keyword (lower s)
                  /\ f = suspicious_finding keyword).
  { intros f. unfold _check_suspicious. rewrite list_elem_of_bind. split.
    - intros (s & Hf & Hs). apply list_elem_of_bind in Hf as (k & Hf & Hk).
      destruct (contains k (lower s)) eqn:Hc.
      + apply list_elem_of_singleton in Hf. apply contains_occurs in Hc.
        exists s, k. repeat split; assumption.
      + apply elem_of_nil in Hf. contradiction.
    - intros (s & k & Hs & Hk & Hocc & ->). exists s. split; [|exact Hs].
      apply list_elem_of_bind. exists k. split; [|exact Hk].
      apply contains_occurs in Hocc. rewrite Hocc. apply list_elem_of_here. }
  split; [apply Hmem|]. split.
  - intros Hnil s k Hs Hk Hocc.
    assert (Hin : suspicious_finding k ∈ _check_suspicious strings)
      by (apply Hmem; exists s, k; repeat split; assumption).
    rewrite Hnil in Hin. apply elem_of_nil in Hin. exact Hin.
  - intros Hnone.
    destruct (_check_suspicious strings) as [|f l] eqn:Hfindings; [reflexivity|].
    exfalso.
    destruct (proj1 (Hmem f)) as (s & k & Hs & Hk & Hocc & _).
    + rewrite ?Hfindings. apply list_elem_of_here.
    + apply (Hnone s k Hs Hk Hocc).
Qed.

(** X24. [_check_suspicious] is blind to the case of letters: it returns the
    same findings, in the same order, on the strings and on their
    lower-casings; and the findings of a list of strings are those of its
    parts, one after the other. *)
Theorem suspicious_ignores_case (strings more : list string) :
  _check_suspicious (lower <$> strings) = _check_suspicious strings
  /\ _check_suspicious (strings ++ more)
     = _check_suspicious strings ++ _check_suspicious more.
Proof.
  unfold _check_suspicious. split.
  - induction strings as [|s strings IH]; [reflexivity|].
    cbn [fmap list_fmap]. rewrite !bind_cons, IH, lower_idempotent. reflexivity.
  - apply bind_app.
Qed.

Example suspicious_example :
  _check_suspicious ["AdminPassWord"; "hello"; "/BIN/SH -c"]
    = [suspicious_finding "password"; suspicious_finding "/bin/sh"].
Proof. vm_compute. reflexivity. Qed.

Lemma suspicious_findings_witness :
  suspicious_finding "key" ∈ _check_suspicious ["MonKEY business"].
Proof.
  apply (proj1 (suspicious_findings ["MonKEY business"] (suspicious_finding "key"))).
  exists "MonKEY business", "key".
  split; [apply list_elem_of_here|].
  split; [do 2 apply list_elem_of_further; apply list_elem_of_here|].
  split; [apply contains_occurs; reflexivity | reflexivity].
Defined.

End StringAnalyzerFacts.

Module EntropyWindowsFacts.
Import EntropyWindows.
#[local] Open Scope Z_scope.

Lemma range_from_multiples (step stop : Z) (fuel : nat) (i : Z) :
  0 < step ->
  (Z.to_nat (stop - i) <= fuel)%nat ->
  range_from fuel i stop step
    = (fun k => i + Z.of_nat k * step)
        <$> seq 0 (Z.to_nat ((stop - i + step - 1) / step)).
Proof.
  intros Hstep. revert i. induction fuel as [|fuel IH]; intros i Hfuel.
  - assert (Hle : stop <= i) by lia.
    assert (Hzero : (stop - i + step - 1) / step <= 0).
    { apply Z.lt_succ_r. apply Z.div_lt_upper_bound; lia. }
    replace (Z.to_nat ((stop - i + step - 1) / step)) with 0%nat by lia.
    reflexivity.
  - cbn [range_from]. destruct (i <? stop) eqn:Hlt.
    + apply Z.ltb_lt in Hlt.
      rewrite IH by lia.
      replace (stop - i + step - 1) with ((stop - (i + step) + step - 1) + 1 * step)
        by lia.
      rewrite Z.div_add by lia.
      assert (Hnn : 0 <= (stop - (i + step) + step - 1) / step).
      { apply Z.div_pos; lia. }
      set (n := Z.to_nat ((stop - (i + step) + step - 1) / step)).
      replace (Z.to_nat ((stop - (i + step) + step - 1) / step + 1))
        with (S n) by (subst n; lia).
      cbn [seq]. rewrite fmap_cons. f_equal; [lia|].
      rewrite <- fmap_S_seq, <- list_fmap_compose.
      apply list_fmap_ext. intros ? k ?. cbn. lia.
    + apply Z.ltb_ge in Hlt.
      assert (Hzero : (stop - i + step - 1) / step <= 0).
      { apply Z.lt_succ_r. apply Z.div_lt_upper_bound; lia. }
      replace (Z.to_nat ((stop - i + step - 1) / step)) with 0%nat by lia.
      reflexivity.
Qed.

(** X25. The windows of [analyze], for a positive step and a binary at
    least as long as the window: their offsets are the successive multiples
    of the step that are below [len - window_size], so every window lies
    inside the binary and stops before its last byte, and there are
    [ceil((len - window_size) / step_size)] of them. The [windows_analyzed]
    entry of the metadata counts one more than that when the step divides
    [len - window_size] (for one, a binary of exactly one window is reported
    with one window analysed and none is), and that many otherwise. *)
Theorem window_offsets_spec (binary_size window_size step_size : Z) :
  0 < step_size ->
  window_size <= binary_size ->
  let offsets := window_offsets binary_size window_size step_size in
  offsets = (fun k => Z.of_nat k * step_size) <$> seq 0 (length offsets)
  /\ (forall i, i ∈ offsets -> 0 <= i /\ i + window_size < binary_size)
  /\ Z.of_nat (length offsets)
     = (binary_size - window_size + step_size - 1) / step_size
  /\ windows_analyzed binary_size window_size step_size
     = Z.of_nat (length offsets)
       + (if (binary_size - window_size) mod step_size =? 0 then 1 else 0).
Proof.
  intros Hstep Hsize offsets. subst offsets.
  unfold window_offsets, py_range, windows_analyzed.
  set (stop := binary_size - window_size).
  assert (Hstop : 0 <= stop) by (subst stop; lia).
  rewrite (range_from_multiples step_size stop) by lia.
  replace (stop - 0 + step_size - 1) with (stop + step_size - 1) by lia.
  set (n := (stop + step_size - 1) / step_size).
  assert (Hn : 0 <= n) by (apply Z.div_pos; lia).
  assert (Hlow : step_size * n <= stop + step_size - 1)
    by (apply Z.mul_div_le; lia).
  assert (Hhigh : stop + step_size - 1 < step_size * (n + 1)).
  { subst n.
    pose proof (Z.mod_pos_bound (stop + step_size - 1) step_size Hstep).
    pose proof (Z.div_mod (stop + step_size - 1) step_size). lia. }
  rewrite length_fmap, length_seq.
  split; [|split; [|split]].
  - apply list_fmap_ext. intros ? k ?. cbn. lia.
  - intros i Hi. apply list_elem_of_fmap in Hi as (k & -> & Hk).
    apply elem_of_seq in Hk. subst stop. nia.
  - lia.
  - rewrite Z2Nat.id by lia.
    pose proof (Z.mod_pos_bound stop step_size Hstep) as Hmod.
    pose proof (Z.div_mod stop step_size) as Hdiv.
    destruct (stop mod step_size =? 0) eqn:Hz.
    + apply Z.eqb_eq in Hz. nia.
    + apply Z.eqb_neq in Hz. nia.
Qed.

Lemma window_offsets_spec_witness :
  window_offsets 512 256 128 = [0; 128]
  /\ windows_analyzed 512 256 128 = 3.
Proof.
  destruct (window_offsets_spec 512 256 128) as (Hoffsets & _ & _ & Hcount);
    [lia | lia |].
  split; [exact Hoffsets | exact Hcount].
Defined.

End EntropyWindowsFacts.

Module MarketplaceFacts.
Import Marketplace.

Example replace_name :
  replace "-plugin" EmptyString
    (replace "ghidrainsight-" EmptyString "ghidrainsight-yara-plugin") = "yara".
Proof. vm_compute. reflexivity. Qed.

Lemma endswith_refl (s : string) : endswith s s = true.
Proof.
  destruct s as [|c s]; cbn [endswith]; rewrite String.eqb_refl; reflexivity.
Qed.

Lemma endswith_app (suffix a b : string) :
  endswith suffix b = true -> endswith suffix (a +:+ b) = true.
Proof.
  intros Hb. induction a as [|c a IH]; [exact Hb|].
  change (String c a +:+ b) with (String c (a +:+ b)).
  cbn [endswith]. rewrite IH. apply orb_true_r.
Qed.

Lemma is_str_true (s : string) (v : pyval) : is_str s v = true <-> v = VStr s.
Proof.
  destruct v; cbn [is_str]; try (split; [discriminate|congruence]).
  rewrite String.eqb_eq. split; [intros ->; reflexivity|congruence].
Qed.

Lemma is_str_false (s : string) (v : pyval) : is_str s v = false <-> v <> VStr s.
Proof.
  rewrite <- is_str_true. destruct (is_str s v); split; congruence.
Qed.

(** What line 168 to line 188 compute on a dictionary, step by step. *)
Lemma parse_dict (repr : pyval -> string) (d : PyDict.t pyval) :
  _parse_github_repo repr (VDict d)
  = (stripped ← str_replace (default (VStr EmptyString) (PyDict.get "name" d))
                  "ghidrainsight-" EmptyString;
     html_url ← PyDict.get "html_url" d;
     items ← iterate (default (VList []) (PyDict.get "topics" d));
     login ← get_or (default (VDict []) (PyDict.get "owner" d)) "login"
               (VStr "unknown");
     type ← get_or (default (VDict []) (PyDict.get "owner" d)) "type" VNone;
     Some (mkPlugin (replace "-plugin" EmptyString stripped) "1.0.0" login
             (default (VStr EmptyString) (PyDict.get "description" d))
             (default (VStr EmptyString) (PyDict.get "html_url" d))
             (py_str repr html_url +:+ "/raw/main/"
                +:+ replace "-plugin" EmptyString stripped +:+ ".py")
             (default (VInt 0) (PyDict.get "stargazers_count" d)) 0
             (List.filter (fun t => negb (is_str marker t)) items)
             (is_str "Organization" type))).
Proof.
  unfold _parse_github_repo. cbn [get_or subscript mbind option_bind].
  destruct (str_replace _ _ _) as [stripped|]; [|reflexivity].
  cbn [mbind option_bind].
  destruct (PyDict.get "html_url" d) as [html_url|]; [|reflexivity].
  cbn [mbind option_bind].
  destruct (iterate _) as [items|]; [|reflexivity].
  cbn [mbind option_bind].
  destruct (default (VDict []) (PyDict.get "owner" d)); reflexivity.
Qed.

Lemma parse_tags_unmarked (repr : pyval -> string) (repo : pyval)
    (plugin : MarketplacePlugin) :
  _parse_github_repo repr repo = Some plugin ->
  ~ In (VStr marker) (tags plugin).
Proof.
  intros Hp. destruct repo as [| | | | |d]; try discriminate Hp.
  rewrite parse_dict in Hp.
  apply bind_Some in Hp as (stripped & _ & Hp).
  apply bind_Some in Hp as (html_url & _ & Hp).
  apply bind_Some in Hp as (items & _ & Hp).
  apply bind_Some in Hp as (login & _ & Hp).
  apply bind_Some in Hp as (type & _ & Hp).
  injection Hp as <-. cbn [tags].
  rewrite filter_In, negb_true_iff, is_str_false. intros [_ H]. apply H.
  reflexivity.
Qed.

(** X26. [_parse_github_repo] never raises, and it answers a plugin exactly
    for a dictionary whose name, when there is one, is a [str], which has an
    [html_url] entry, whose topics, when there are any, can be iterated, and
    whose owner, when there is one, is a dictionary. So a repository without
    [html_url] is dropped, and the default of the [repository] field is
    never used. *)
Theorem parse_github_repo_defined (repr : pyval -> string) (repo : pyval) :
  is_Some (_parse_github_repo repr repo)
  <-> exists d,
        repo = VDict d
        /\ (exists raw,
              default (VStr EmptyString) (PyDict.get "name" d) = VStr raw)
        /\ is_Some (PyDict.get "html_url" d)
        /\ is_Some (iterate (default (VList []) (PyDict.get "topics" d)))
        /\ (exists owner,
              default (VDict []) (PyDict.get "owner" d) = VDict owner).
Proof.
  split.
  - intros [plugin Hp].
    destruct repo as [| | | | |d]; try discriminate Hp.
    exists d. split; [reflexivity|].
    rewrite parse_dict in Hp.
    apply bind_Some in Hp as (stripped & Hname & Hp).
    apply bind_Some in Hp as (html_url & Hurl & Hp).
    apply bind_Some in Hp as (items & Hitems & Hp).
    apply bind_Some in Hp as (login & Hlogin & Hp).
    split; [|split; [|split]].
    + destruct (default (VStr EmptyString) (PyDict.get "name" d));
        try discriminate Hname.
      eexists. reflexivity.
    + rewrite Hurl. eexists. reflexivity.
    + rewrite Hitems. eexists. reflexivity.
    + destruct (default (VDict []) (PyDict.get "owner" d));
        try discriminate Hlogin.
      eexists. reflexivity.
  - intros (d & -> & [raw Hraw] & [html_url Hurl] & [items Hitems]
              & [owner Howner]).
    rewrite parse_dict, Hraw, Hurl, Hitems, Howner.
    cbn [str_replace get_or mbind option_bind]. eexists. reflexivity.
Qed.

(** X27. The plugin [_parse_github_repo] makes of a repository: its name is
    the repository name without the texts "ghidrainsight-" and "-plugin",
    its download URL is [<html_url>/raw/main/<name>.py] and so passes the
    ".py" test of [install], its repository is the [html_url] entry, its
    version is "1.0.0" and its rating 0, its tags are the topics other than
    the marker topic, in their order, and it is verified exactly when the
    owner is of type "Organization". *)
Theorem parse_github_repo_plugin (repr : pyval -> string) (repo : pyval)
    (plugin : MarketplacePlugin) :
  _parse_github_repo repr repo = Some plugin ->
  exists d raw html_url topics,
    repo = VDict d
    /\ default (VStr EmptyString) (PyDict.get "name" d) = VStr raw
    /\ PyDict.get "html_url" d = Some html_url
    /\ iterate (default (VList []) (PyDict.get "topics" d)) = Some topics
    /\ name plugin
       = replace "-plugin" EmptyString (replace "ghidrainsight-" EmptyString raw)
    /\ download_url plugin
       = py_str repr html_url +:+ "/raw/main/" +:+ name plugin +:+ ".py"
    /\ endswith ".py" (download_url plugin) = true
    /\ repository plugin = html_url
    /\ version plugin = "1.0.0"
    /\ rating plugin = 0%Q
    /\ tags plugin = List.filter (fun t => negb (is_str marker t)) topics
    /\ (forall t, In t (tags plugin) <-> In t topics /\ t <> VStr marker)
    /\ (verified plugin = true
        <-> exists owner,
              PyDict.get "owner" d = Some (VDict owner)
              /\ PyDict.get "type" owner = Some (VStr "Organization")).
Proof.
  intros Hp.
  destruct repo as [| | | | |d]; try discriminate Hp.
  rewrite parse_dict in Hp.
  apply bind_Some in Hp as (stripped & Hname & Hp).
  apply bind_Some in Hp as (html_url & Hurl & Hp).
  apply bind_Some in Hp as (items & Hitems & Hp).
  apply bind_Some in Hp as (login & Hlogin & Hp).
  apply bind_Some in Hp as (type & Htype & Hp).
  injection Hp as <-.
  destruct (default (VStr EmptyString) (PyDict.get "name" d)) as [| | |raw| |]
    eqn:Hraw; try discriminate Hname.
  injection Hname as <-.
  exists d, raw, html_url, items. cbn [name download_url repository version
    rating tags verified].
  split; [reflexivity|]. split; [exact Hraw|]. split; [exact Hurl|].
  split; [exact Hitems|]. split; [reflexivity|]. split; [reflexivity|].
  split; [do 3 apply endswith_app; apply endswith_refl|].
  split; [rewrite Hurl; reflexivity|].
  split; [reflexivity|]. split; [reflexivity|]. split; [reflexivity|].
  split.
  - intros t. rewrite filter_In, negb_true_iff, is_str_false. reflexivity.
  - rewrite is_str_true.
    destruct (PyDict.get "owner" d) as [owner|] eqn:Howner; cbn [default] in Htype.
    + destruct owner as [| | | | |o]; try discriminate Htype.
      cbn [get_or] in Htype. injection Htype as <-. split.
      * intros Ht. exists o. split; [reflexivity|].
        destruct (PyDict.get "type" o); simpl in Ht; congruence.
      * intros (o' & [= <-] & ->). reflexivity.
    + cbn [get_or PyDict.get default] in Htype. injection Htype as <-. split.
      * discriminate.
      * intros (o' & [=] & _).
Qed.

Lemma parse_github_repo_defined_witness :
  is_Some (_parse_github_repo no_repr yara_repo)
  /\ ~ is_Some (_parse_github_repo no_repr
                  (VDict [("name", VStr "ghidrainsight-yara-plugin")])).
Proof.
  split.
  - apply (proj2 (parse_github_repo_defined _ _)).
    eexists. split; [reflexivity|].
    split; [eexists; reflexivity|]. split; [eexists; reflexivity|].
    split; eexists; reflexivity.
  - intros H. apply (proj1 (parse_github_repo_defined _ _)) in H.
    destruct H as (d & [= <-] & _ & [v Hv] & _). discriminate Hv.
Defined.

Lemma parse_github_repo_plugin_witness :
  _parse_github_repo no_repr yara_repo = Some yara_plugin
  /\ endswith ".py" (download_url yara_plugin) = true
  /\ (forall t, In t (tags yara_plugin) -> t <> VStr marker).
Proof.
  assert (H : _parse_github_repo no_repr yara_repo = Some yara_plugin)
    by (vm_compute; reflexivity).
  split; [exact H|].
  destruct (parse_github_repo_plugin no_repr yara_repo yara_plugin H)
    as (d & raw & html_url & topics & _ & _ & _ & _ & _ & _ & Hend & _ & _ & _
        & _ & Htags & _).
  split; [exact Hend|].
  intros t Ht. apply (proj1 (Htags t) Ht).
Defined.

(** The plugins a list of repositories adds to the result of [search]. *)
Lemma search_loop_run (repr : pyval -> string) (tags : option (list string))
    (repos : list pyval) (plugins : list MarketplacePlugin) :
  search_loop repr tags repos plugins = plugins ++ matching repr tags repos.
Proof.
  revert plugins. unfold matching.
  induction repos as [|repo rest IH]; intros plugins.
  - cbn. rewrite app_nil_r. reflexivity.
  - cbn [search_loop].
    change (omap (_parse_github_repo repr) (repo :: rest))
      with (match _parse_github_repo repr repo with
            | Some plugin => plugin :: omap (_parse_github_repo repr) rest
            | None => omap (_parse_github_repo repr) rest
            end).
    destruct (_parse_github_repo repr repo) as [plugin|]; [|apply IH].
    cbn [List.filter]. destruct (filtered_out tags plugin); cbn [negb].
    + apply IH.
    + rewrite IH, <- app_assoc. reflexivity.
Qed.

Lemma length_omap_le {A B} (f : A -> option B) (l : list A) :
  (length (omap f l) <= length l)%nat.
Proof.
  induction l as [|a l IH]; [reflexivity|].
  change (omap f (a :: l))
    with (match f a with Some b => b :: omap f l | None => omap f l end).
  destruct (f a); cbn [length]; lia.
Qed.

Lemma matching_length (repr : pyval -> string) (tags : option (list string))
    (repos : list pyval) :
  (length (matching repr tags repos) <= length repos)%nat.
Proof.
  unfold matching.
  etransitivity; [apply filter_length_le|apply length_omap_le].
Qed.

Lemma matching_parsed (repr : pyval -> string) (tags : option (list string))
    (repos : list pyval) (plugin : MarketplacePlugin) :
  In plugin (matching repr tags repos) ->
  (exists repo, In repo repos /\ _parse_github_repo repr repo = Some plugin)
  /\ filtered_out tags plugin = false.
Proof.
  unfold matching. rewrite filter_In, negb_true_iff. intros [Hin Hkept].
  split; [|exact Hkept].
  apply list_elem_of_In, list_elem_of_omap in Hin as (repo & Hrepo & Hp).
  exists repo. split; [apply list_elem_of_In; exact Hrepo|exact Hp].
Qed.

Lemma top20_length (v : pyval) (repos : list pyval) :
  top20 v = Some repos -> (length repos <= 20)%nat.
Proof.
  destruct v; try discriminate; intros [= <-]; rewrite length_take; lia.
Qed.

(** The three ways [search] ends. *)
Lemma search_cases (http : Http) (repr : pyval -> string)
    (self : PluginMarketplace) (query : string) (tags : option (list string)) :
  search http repr self query tags = Return []
  \/ (exists items repos,
        top20 items = Some repos
        /\ search http repr self query tags
           = Return (matching repr tags repos))
  \/ (exists e, search http repr self query tags = Raise e
                /\ exc_is_exception e = false).
Proof.
  unfold search, search_body.
  destruct (http (marketplace_url self) (search_params query))
    as [response|e]; cbn [mbind outcome_bind];
    [|destruct (exc_is_exception e) eqn:Hclass; [left; reflexivity|];
      right; right; exists e; split; [reflexivity|exact Hclass]].
  unfold raise_for_status.
  destruct ((400 <=? status_code response)%Z && (status_code response <? 600)%Z);
    cbn [mbind outcome_bind]; [left; reflexivity|].
  destruct (json response) as [results|e]; cbn [mbind outcome_bind];
    [|destruct (exc_is_exception e) eqn:Hclass; [left; reflexivity|];
      right; right; exists e; split; [reflexivity|exact Hclass]].
  destruct (get_or results "items" (VList [])) as [items|];
    cbn [or_raise mbind outcome_bind]; [|left; reflexivity].
  destruct (top20 items) as [repos|] eqn:Hrepos;
    cbn [or_raise mbind outcome_bind]; [|left; reflexivity].
  right; left. exists items, repos.
  rewrite search_loop_run. split; [exact Hrepos|reflexivity].
Qed.

Lemma search_length (http : Http) (repr : pyval -> string)
    (self : PluginMarketplace) (query : string) (tags : option (list string))
    (found : list MarketplacePlugin) :
  search http repr self query tags = Return found ->
  (length found <= 20)%nat.
Proof.
  destruct (search_cases http repr self query tags)
    as [->|[(items & repos & Hrepos & ->)|(e & -> & _)]];
    intros [= <-]; [cbn; lia|].
  etransitivity; [apply matching_length|].
  exact (top20_length _ _ Hrepos).
Qed.

Lemma search_found (http : Http) (repr : pyval -> string)
    (self : PluginMarketplace) (query : string) (tags : option (list string))
    (found : list MarketplacePlugin) (plugin : MarketplacePlugin) :
  search http repr self query tags = Return found ->
  In plugin found ->
  (exists repo, _parse_github_repo repr repo = Some plugin)
  /\ filtered_out tags plugin = false.
Proof.
  destruct (search_cases http repr self query tags)
    as [->|[(items & repos & _ & ->)|(e & -> & _)]];
    intros [= <-] Hin; [destruct Hin|].
  apply matching_parsed in Hin as [(repo & _ & Hp) Hkept].
  split; [exists repo; exact Hp|exact Hkept].
Qed.

Lemma kept_has_tag (tag : string) (more : list string)
    (plugin : MarketplacePlugin) :
  filtered_out (Some (tag :: more)) plugin = false ->
  exists t, In t (tag :: more) /\ In (VStr t) (tags plugin).
Proof.
  intros Hkept. cbn [filtered_out] in Hkept.
  apply negb_false_iff, existsb_exists in Hkept as (t & Ht & Hhas).
  exists t. split; [exact Ht|].
  unfold has_tag in Hhas. apply existsb_exists in Hhas as (v & Hv & Hstr).
  apply is_str_true in Hstr as ->. exact Hv.
Qed.

Lemma raise_for_status_raises (response : Response) :
  (400 <= status_code response < 600)%Z ->
  raise_for_status response = Raise http_error.
Proof.
  intros [Hlo Hhi]. unfold raise_for_status.
  destruct (Z.leb_spec 400 (status_code response)); [|lia].
  destruct (Z.ltb_spec (status_code response) 600); [|lia].
  reflexivity.
Qed.

Lemma raise_for_status_passes (response : Response) :
  ~ (400 <= status_code response < 600)%Z ->
  raise_for_status response = Return tt.
Proof.
  intros Hstatus. unfold raise_for_status.
  destruct (Z.leb_spec 400 (status_code response)); [|reflexivity].
  destruct (Z.ltb_spec (status_code response) 600); [lia|reflexivity].
Qed.

(** X28. What [search] returns holds at most twenty plugins, each the parse
    of a repository; when a non-empty tag list is given, each plugin
    answered carries one of the tags. A request or a decoding of the body
    that fails with an [Exception], a 4xx or 5xx status, a body that is not
    a dictionary, and a dictionary without "items" give the empty answer.
    When the response is a dictionary with a list under "items", the answer
    is, in the order of the response, the parsed plugins of its first twenty
    items that pass the tag filter: a repository that cannot be parsed is
    skipped and stops nothing. [search] raises nothing but an exception of
    the request or of the decoding that is not an [Exception]. *)
Theorem search_answers (http : Http) (repr : pyval -> string)
    (self : PluginMarketplace) (query : string) (tags : option (list string)) :
  let result := search http repr self query tags in
  let reply := http (marketplace_url self) (search_params query) in
  (forall found, result = Return found ->
     (length found <= 20)%nat
     /\ forall plugin, In plugin found ->
          (exists repo, _parse_github_repo repr repo = Some plugin)
          /\ forall tag more, tags = Some (tag :: more) ->
               exists t, In t (tag :: more)
                         /\ In (VStr t) (Marketplace.tags plugin))
  /\ (forall e, result = Raise e ->
        exc_is_exception e = false
        /\ (reply = Raise e
            \/ exists response, reply = Return response
                                /\ json response = Raise e))
  /\ (forall e, reply = Raise e ->
        result = if exc_is_exception e then Return [] else Raise e)
  /\ (forall response, reply = Return response ->
        ((400 <= status_code response < 600)%Z -> result = Return [])
        /\ (forall e, ~ (400 <= status_code response < 600)%Z ->
              json response = Raise e ->
              result = if exc_is_exception e then Return [] else Raise e)
        /\ (forall v, json response = Return v -> (forall d, v <> VDict d) ->
              result = Return [])
        /\ (forall d, json response = Return (VDict d) ->
              PyDict.get "items" d = None -> result = Return [])
        /\ (forall d items,
              ~ (400 <= status_code response < 600)%Z ->
              json response = Return (VDict d) ->
              PyDict.get "items" d = Some (VList items) ->
              result = Return (matching repr tags (take 20 items)))).
Proof.
  cbv zeta. split; [|split; [|split]].
  - intros found Hfound. split; [apply (search_length _ _ _ _ _ _ Hfound)|].
    intros plugin Hin.
    destruct (search_found _ _ _ _ _ _ _ Hfound Hin) as [Hrepo Hkept].
    split; [exact Hrepo|]. intros tag more ->. apply kept_has_tag, Hkept.
  - unfold search, search_body.
    destruct (http (marketplace_url self) (search_params query))
      as [response|e0]; cbn [mbind outcome_bind].
    + unfold raise_for_status.
      destruct ((400 <=? status_code response)%Z
                && (status_code response <? 600)%Z);
        cbn [mbind outcome_bind]; [intros e H; discriminate H|].
      destruct (json response) as [results|e0] eqn:Hjson;
        cbn [mbind outcome_bind].
      * destruct (get_or results "items" (VList [])) as [items|];
          cbn [or_raise mbind outcome_bind]; [|intros e H; discriminate H].
        destruct (top20 items) as [repos|];
          cbn [or_raise mbind outcome_bind]; intros e H; discriminate H.
      * destruct (exc_is_exception e0) eqn:Hclass; intros e [= <-].
        split; [exact Hclass|]. right. exists response.
        split; [reflexivity|exact Hjson].
    + destruct (exc_is_exception e0) eqn:Hclass; intros e [= <-].
      split; [exact Hclass|]. left. reflexivity.
  - intros e Hreply. unfold search, search_body. rewrite Hreply. reflexivity.
  - intros response Hreply. unfold search, search_body. rewrite Hreply.
    cbn [mbind outcome_bind]. split; [|split; [|split; [|split]]].
    + intros Hstatus. rewrite (raise_for_status_raises _ Hstatus). reflexivity.
    + intros e Hstatus Hjson. rewrite (raise_for_status_passes _ Hstatus).
      cbn [mbind outcome_bind]. rewrite Hjson. reflexivity.
    + intros v Hjson Hother. unfold raise_for_status.
      destruct ((400 <=? status_code response)%Z
                && (status_code response <? 600)%Z);
        cbn [mbind outcome_bind]; [reflexivity|].
      rewrite Hjson. cbn [mbind outcome_bind].
      destruct v as [| | | | |d]; try reflexivity.
      destruct (Hother d eq_refl).
    + intros d Hjson Hitems. unfold raise_for_status.
      destruct ((400 <=? status_code response)%Z
                && (status_code response <? 600)%Z);
        cbn [mbind outcome_bind]; [reflexivity|].
      rewrite Hjson. cbn [get_or mbind outcome_bind]. rewrite Hitems.
      reflexivity.
    + intros d items Hstatus Hjson Hitems.
      rewrite (raise_for_status_passes _ Hstatus).
      cbn [mbind outcome_bind]. rewrite Hjson.
      cbn [get_or mbind outcome_bind]. rewrite Hitems.
      cbn [default from_option id top20 or_raise mbind outcome_bind].
      rewrite search_loop_run. reflexivity.
Qed.

Lemma search_answers_witness :
  search github no_repr (__init__ None) "yara" (Some ["yara"])
  = Return (matching no_repr (Some ["yara"])
              (take 20 [VStr "broken"; yara_repo; untagged_repo]))
  /\ matching no_repr (Some ["yara"])
       (take 20 [VStr "broken"; yara_repo; untagged_repo]) = [yara_plugin]
  /\ search interrupted no_repr (__init__ None) "yara" None
     = Raise (mkExc "KeyboardInterrupt" EmptyString EmptyString false).
Proof.
  split; [|split; [vm_compute; reflexivity|]].
  - destruct (search_answers github no_repr (__init__ None) "yara"
                (Some ["yara"])) as (_ & _ & _ & Hreply).
    destruct (Hreply (mkResponse 200 (Return (VDict [("items",
                VList [VStr "broken"; yara_repo; untagged_repo])]))) eq_refl)
      as (_ & _ & _ & _ & Hitems).
    apply (Hitems [("items", VList [VStr "broken"; yara_repo; untagged_repo])]
             [VStr "broken"; yara_repo; untagged_repo]).
    + cbn [status_code]. lia.
    + reflexivity.
    + reflexivity.
  - destruct (search_answers interrupted no_repr (__init__ None) "yara" None)
      as (_ & _ & Hraise & _).
    apply (Hraise (mkExc "KeyboardInterrupt" EmptyString EmptyString false)
             eq_refl).
Defined.

Lemma slice_to_length {A} (n : Z) (l : list A) :
  (length (slice_to n l) <= length l)%nat.
Proof.
  unfold slice_to. destruct (0 <=? n)%Z; rewrite length_take; lia.
Qed.

(** X29. [get_popular] answers a prefix of what [search] answers for the
    empty query without tags: its first [limit] plugins for a [limit] that
    is not negative, never more than twenty however large the limit, and
    all but the last [-limit] for a negative one; it raises what that
    search raises. Every plugin [get_by_tag] answers carries the tag, and
    for the marker topic, which parsing removes from the tags, it answers
    nothing. *)
Theorem popular_and_tagged (http : Http) (repr : pyval -> string)
    (self : PluginMarketplace) (limit : Z) (tag : string) :
  (forall found, search http repr self EmptyString None = Return found ->
     let popular := slice_to limit found in
     get_popular http repr self limit = Return popular
     /\ ((0 <= limit)%Z ->
         popular = take (Z.to_nat limit) found
         /\ (length popular <= Nat.min (Z.to_nat limit) 20)%nat)
     /\ ((limit < 0)%Z ->
         popular = take (length found - Z.to_nat (- limit)) found)
     /\ (exists rest, found = popular ++ rest))
  /\ (forall e, search http repr self EmptyString None = Raise e ->
        get_popular http repr self limit = Raise e)
  /\ (forall tagged, get_by_tag http repr self tag = Return tagged ->
        Forall (fun plugin => In (VStr tag) (tags plugin)) tagged)
  /\ (forall tagged, get_by_tag http repr self marker = Return tagged ->
        tagged = []).
Proof.
  assert (Htagged : forall t tagged plugin,
            get_by_tag http repr self t = Return tagged ->
            In plugin tagged ->
            In (VStr t) (tags plugin) /\ ~ In (VStr marker) (tags plugin)).
  { intros t tagged plugin Hrun Hin.
    destruct (search_found _ _ _ _ _ _ _ Hrun Hin) as [[repo Hp] Hkept].
    split; [|exact (parse_tags_unmarked _ _ _ Hp)].
    apply kept_has_tag in Hkept as (t' & [<-|[]] & Hin'). exact Hin'. }
  split; [|split; [|split]].
  - intros found Hfound. cbv zeta.
    pose proof (search_length _ _ _ _ _ _ Hfound) as Hlen.
    unfold get_popular. rewrite Hfound. cbn [mbind outcome_bind].
    split; [reflexivity|]. unfold slice_to. split; [|split].
    + intros Hlimit. destruct (Z.leb_spec 0 limit); [|lia].
      split; [reflexivity|]. rewrite length_take. lia.
    + intros Hlimit. destruct (Z.leb_spec 0 limit); [lia|].
      f_equal. lia.
    + destruct (0 <=? limit)%Z; eexists; symmetry; apply take_drop.
  - intros e Hraise. unfold get_popular. rewrite Hraise. reflexivity.
  - intros tagged Hrun. apply List.Forall_forall. intros plugin Hin.
    apply (Htagged tag tagged plugin Hrun Hin).
  - intros tagged Hrun. destruct tagged as [|plugin rest]; [reflexivity|].
    destruct (Htagged marker (plugin :: rest) plugin Hrun) as [Hhas Hnot];
      [left; reflexivity|].
    destruct (Hnot Hhas).
Qed.

Lemma popular_and_tagged_witness :
  get_popular github no_repr (__init__ None) (-1) = Return [yara_plugin]
  /\ get_by_tag github no_repr (__init__ None) marker = Return [].
Proof.
  destruct (popular_and_tagged github no_repr (__init__ None) (-1) "yara")
    as (Hpopular & _ & _ & Hmarker).
  split.
  - destruct (Hpopular [yara_plugin;
                mkPlugin "entropy" "1.0.0" (VStr "unknown") (VStr EmptyString)
                  (VStr "https://github.com/b/e")
                  "https://github.com/b/e/raw/main/entropy.py" (VInt 0) 0 []
                  false])
      as (Hrun & _); [vm_compute; reflexivity|].
    rewrite Hrun. vm_compute. reflexivity.
  - destruct (get_by_tag github no_repr (__init__ None) marker)
      as [tagged|e] eqn:Hrun; [|vm_compute in Hrun; discriminate Hrun].
    rewrite (Hmarker tagged eq_refl). reflexivity.
Defined.

End MarketplaceFacts.
